(** * GameRequest: request lifecycle, bulk import and notification settings

    A shallow embedding of the front-end logic of the GameRequest tool
    (pages [Requests], [Library], [GameDetail], [Settings] and the
    [api/suggestions] helper) together with the properties stated about it.

    Conventions of the embedding.
    - A JavaScript string is a [string]: a sequence of code units below 256.
    - A JavaScript value stored in a settings object or in a JSON answer is a
      [JsVal]; an object used as a dictionary is a [gmap string JsVal].
    - A React event handler is a function from the state of the render in
      which the handler was created (the values its closure reads) to the
      state after its queued updates were applied.  An [async] handler takes
      the answer of each request it awaits as an argument and runs to
      completion.
    - The first part of the file holds the definitions, the second part the
      statements and their proofs. *)

From stdpp Require Import gmap strings list fin_maps pretty.
From Stdlib Require Import ZArith Ascii String Sorted.

Open Scope Z_scope.

(** ** JavaScript values and strings *)

Module Js.

Inductive JsVal : Type :=
| JUndefined
| JNull
| JBool (b : bool)
| JNum (z : Z)
| JNaN
| JStr (s : string).

#[global] Instance JsVal_eq_dec : EqDecision JsVal.
Proof. solve_decision. Defined.

(** [ToBoolean]: what a condition such as [if (v)] or [v ? a : b] tests. *)
Definition truthy (v : JsVal) : bool :=
  match v with
  | JUndefined | JNull | JNaN => false
  | JBool b => b
  | JNum z => negb (z =? 0)
  | JStr s => negb (String.eqb s "")
  end.

(** [v === w]; [NaN] is not equal to itself. *)
Definition strict_eq (v w : JsVal) : bool :=
  match v, w with
  | JNaN, _ | _, JNaN => false
  | _, _ => bool_decide (v = w)
  end.

(** Property access [o.k] on an object: a missing key reads [undefined]. *)
Definition get (o : gmap string JsVal) (k : string) : JsVal :=
  default JUndefined (o !! k).

(** White space and line terminators removed by [String.prototype.trim],
    among the code units below 256: TAB, LF, VT, FF, CR, SP and NBSP. *)
Definition is_whitespace (c : ascii) : bool :=
  let n := nat_of_ascii c in
  ((9 <=? n) && (n <=? 13) || (n =? 32) || (n =? 160))%nat.

Fixpoint trimStart (s : string) : string :=
  match s with
  | EmptyString => EmptyString
  | String c r => if is_whitespace c then trimStart r else s
  end.

Fixpoint trimEnd (s : string) : string :=
  match s with
  | EmptyString => EmptyString
  | String c r =>
      let r' := trimEnd r in
      if is_whitespace c && String.eqb r' "" then EmptyString else String c r'
  end.

Definition trim (s : string) : string := trimEnd (trimStart s).

Definition LF : ascii := ascii_of_nat 10.

(** [s.split('\n')]: never the empty list, [''.split('\n')] is [['']]. *)
Fixpoint split_lines (s : string) : list string :=
  match s with
  | EmptyString => [EmptyString]
  | String c r =>
      if Ascii.eqb c LF then EmptyString :: split_lines r
      else match split_lines r with
           | [] => [String c EmptyString]
           | l :: ls => String c l :: ls
           end
  end.

(** [xs.join(sep)] on an array of strings. *)
Fixpoint join (sep : string) (xs : list string) : string :=
  match xs with
  | [] => EmptyString
  | [x] => x
  | x :: rest => x +:+ sep +:+ join sep rest
  end.

(** A template literal [`${n}`] of an integer. *)
Definition num_to_string (n : Z) : string := pretty n.

(** A string made of white space only. *)
Fixpoint blank (s : string) : bool :=
  match s with
  | EmptyString => true
  | String c r => is_whitespace c && blank r
  end.

(** A string without a line feed. *)
Fixpoint oneLine (s : string) : bool :=
  match s with
  | EmptyString => true
  | String c r => negb (Ascii.eqb c LF) && oneLine r
  end.

End Js.

Import Js.

(** ** The Requests page (request lifecycle as driven from the UI) *)

Module Requests.

Record Request : Type := {
  id : Z;
  game_name : string;
  status : string
}.

#[global] Instance Request_eq_dec : EqDecision Request.
Proof. solve_decision. Defined.

(** A [switch] compares its argument with each [case] in turn; [status] is
    [None] for [null]. *)
Definition getStatusText (status : option string) : string :=
  match status with
  | Some s =>
      if String.eqb s "pending" then "Pending"
      else if String.eqb s "approved" then "Approved"
      else if String.eqb s "rejected" then "Rejected"
      else if String.eqb s "completed" then "Available"
      else "Unknown"
  | None => "Unknown"
  end.

(** [getNextStatus]; [None] is the [null] of the [default] branch. *)
Definition getNextStatus (currentStatus : string) : option string :=
  if String.eqb currentStatus "pending" then Some "approved"
  else if String.eqb currentStatus "approved" then Some "completed"
  else if String.eqb currentStatus "rejected" then Some "approved"
  else None.

Definition getNextStatusText (currentStatus : string) : string :=
  getStatusText (getNextStatus currentStatus).

Record EditModal : Type := {
  edit_isOpen : bool;
  edit_request : option Request;
  newStatus : string
}.

Record NextStatusModal : Type := {
  next_isOpen : bool;
  next_request : option Request;
  nextStatus : string
}.

Record State : Type := {
  requests : list Request;
  editModal : EditModal;
  nextStatusModal : NextStatusModal;
  infoOpen : bool
}.

Definition closedEdit : EditModal :=
  {| edit_isOpen := false; edit_request := None; newStatus := "" |}.

Definition closedNext : NextStatusModal :=
  {| next_isOpen := false; next_request := None; nextStatus := "" |}.

(** The state of the first render, with the requests the server listed. *)
Definition init (rs : list Request) : State :=
  {| requests := rs; editModal := closedEdit;
     nextStatusModal := closedNext; infoOpen := false |}.

(** The [<option value=...>] entries of the Edit Status [<select>]. *)
Inductive StatusOption : Type :=
| OptPending | OptApproved | OptRejected | OptCompleted.

Definition option_value (o : StatusOption) : string :=
  match o with
  | OptPending => "pending"
  | OptApproved => "approved"
  | OptRejected => "rejected"
  | OptCompleted => "completed"
  end.

(** A [PATCH /api/requests/<id>] with body [{status}]. *)
Record Patch : Type := {
  patch_id : Z;
  patch_status : string
}.

Definition openEditModal (request : Request) (st : State) : State :=
  {| requests := requests st;
     editModal := {| edit_isOpen := true; edit_request := Some request;
                     newStatus := status request |};
     nextStatusModal := nextStatusModal st;
     infoOpen := infoOpen st |}.

Definition closeEditModal (st : State) : State :=
  {| requests := requests st; editModal := closedEdit;
     nextStatusModal := nextStatusModal st; infoOpen := infoOpen st |}.

(** [onChange] of the select: [setEditModal(prev => ({...prev, newStatus}))]. *)
Definition selectStatus (o : StatusOption) (st : State) : State :=
  {| requests := requests st;
     editModal := {| edit_isOpen := edit_isOpen (editModal st);
                     edit_request := edit_request (editModal st);
                     newStatus := option_value o |};
     nextStatusModal := nextStatusModal st;
     infoOpen := infoOpen st |}.

Definition set_status (rid : Z) (s : string) (rs : list Request) : list Request :=
  map (fun req => if bool_decide (id req = rid)
                  then {| id := id req; game_name := game_name req; status := s |}
                  else req) rs.

Definition showError (st : State) : State :=
  {| requests := requests st; editModal := editModal st;
     nextStatusModal := nextStatusModal st; infoOpen := true |}.

(** [updateRequestStatus].  [ok] is [Some response.ok], or [None] when
    [fetch] rejects.  Without a request in the modal the URL template
    throws inside the [try] and nothing is sent. *)
Definition updateRequestStatus (ok : option bool) (st : State) : State * list Patch :=
  match edit_request (editModal st) with
  | None => (showError st, [])
  | Some r =>
      let sent := [{| patch_id := id r; patch_status := newStatus (editModal st) |}] in
      match ok with
      | Some true =>
          (closeEditModal
             {| requests := set_status (id r) (newStatus (editModal st)) (requests st);
                editModal := editModal st;
                nextStatusModal := nextStatusModal st;
                infoOpen := infoOpen st |}, sent)
      | _ => (showError st, sent)
      end
  end.

Definition openNextStatusModal (request : Request) (st : State) : State :=
  match getNextStatus (status request) with
  | Some next =>
      {| requests := requests st; editModal := editModal st;
         nextStatusModal := {| next_isOpen := true; next_request := Some request;
                               nextStatus := next |};
         infoOpen := infoOpen st |}
  | None => st
  end.

Definition closeNextStatusModal (st : State) : State :=
  {| requests := requests st; editModal := editModal st;
     nextStatusModal := closedNext; infoOpen := infoOpen st |}.

(** [confirmNextStatus], with the same conventions as [updateRequestStatus]. *)
Definition confirmNextStatus (ok : option bool) (st : State) : State * list Patch :=
  match next_request (nextStatusModal st) with
  | None => (showError st, [])
  | Some r =>
      let sent := [{| patch_id := id r; patch_status := nextStatus (nextStatusModal st) |}] in
      match ok with
      | Some true =>
          (closeNextStatusModal
             {| requests := set_status (id r) (nextStatus (nextStatusModal st)) (requests st);
                editModal := editModal st;
                nextStatusModal := nextStatusModal st;
                infoOpen := infoOpen st |}, sent)
      | _ => (showError st, sent)
      end
  end.

(** What can be done on the page.  The buttons that open the two modals
    sit on the cards of the listed requests and are rendered only when
    [user?.role === 'admin']; the Next Status button is rendered only when
    the status of the card is not ['completed']. *)
Inductive Event : Type :=
| ClickNextStatus (r : Request)
| ClickEdit (r : Request)
| SelectStatus (o : StatusOption)
| SaveEdit (ok : option bool)
| CancelEdit
| ConfirmNext (ok : option bool)
| CancelNext.

(** Whether the control of the event is on the page in state [st].  The
    buttons of the next status modal belong to [ConfirmModal], which is taken
    to render them only while [isOpen] holds. *)
Definition enabled (admin : bool) (st : State) (e : Event) : bool :=
  match e with
  | ClickNextStatus r =>
      admin && bool_decide (r ∈ requests st)
      && negb (String.eqb (status r) "completed")
  | ClickEdit r => admin && bool_decide (r ∈ requests st)
  | SelectStatus _ | SaveEdit _ | CancelEdit => edit_isOpen (editModal st)
  | ConfirmNext _ | CancelNext => next_isOpen (nextStatusModal st)
  end.

(** The handler of each event.  [ConfirmNext] is [confirmNextStatus] alone.
    The confirm button of [ConfirmModal] calls [handleCancel] after it, which
    closes the modal whatever the answer ([RequestsList.clickConfirm]); here
    the modal stays open after a refused PATCH until [CancelNext], so the
    runs of the page are among the runs of these events. *)
Definition handle (e : Event) (st : State) : State * list Patch :=
  match e with
  | ClickNextStatus r => (openNextStatusModal r st, [])
  | ClickEdit r => (openEditModal r st, [])
  | SelectStatus o => (selectStatus o st, [])
  | SaveEdit ok => updateRequestStatus ok st
  | CancelEdit => (closeEditModal st, [])
  | ConfirmNext ok => confirmNextStatus ok st
  | CancelNext => (closeNextStatusModal st, [])
  end.

(** Run a sequence of events; an event whose control is absent is skipped.
    The result is the final state and the requests sent, oldest first. *)
Fixpoint run (admin : bool) (es : list Event) (st : State) : State * list Patch :=
  match es with
  | [] => (st, [])
  | e :: rest =>
      if enabled admin st e then
        let '(st1, sent1) := handle e st in
        let '(st2, sent2) := run admin rest st1 in
        (st2, sent1 ++ sent2)
      else run admin rest st
  end.

(** What holds of the two modals in every state of the page: the next
    status modal holds the next status of its request, and the edit modal
    holds the status of its request or the value of an option. *)
Definition nextModalOk (st : State) : Prop :=
  forall r, next_request (nextStatusModal st) = Some r ->
            getNextStatus (status r) = Some (nextStatus (nextStatusModal st)).

Definition editModalOk (st : State) : Prop :=
  forall r, edit_request (editModal st) = Some r ->
            newStatus (editModal st) = status r
            \/ exists o, newStatus (editModal st) = option_value o.

End Requests.

(** ** The Library page (bulk import from text) *)

Module Library.

Record ImportedGame : Type := {
  original_name : string;
  igdb_name : string;
  genres : option string
}.

Record FailedGame : Type := {
  name : string;
  reason : string
}.

(** The answer of [POST /api/import/text]; the three counters are counts. *)
Record ImportResult : Type := {
  total_games : N;
  successful_imports : N;
  failed_imports : N;
  imported_games : list ImportedGame;
  failed_games : list FailedGame
}.

(** What [authFetch] gives [importGamesFromText]: a rejection (or an
    unreadable body) with the message of the error, an answer that is not
    [ok] with the [detail] of its body (empty when absent), or the result. *)
Inductive Response : Type :=
| FetchRejected (message : string)
| HttpError (detail : string)
| HttpOk (result : ImportResult).

(** [importGamesFromText] of [api/import.js]: the result, or the message of
    the error it throws. *)
Definition importGamesFromText (resp : Response) : ImportResult + string :=
  match resp with
  | FetchRejected message => inr message
  | HttpError detail =>
      inr (if String.eqb detail "" then "Failed to import games" else detail)
  | HttpOk result => inl result
  end.

Inductive ImportStatus : Type := Idle | Loading | Success | Error.

Inductive ImportMode : Type := Bulk | Smart.

Record State : Type := {
  importStatus : ImportStatus;
  importProgress : N;
  importMessage : string;
  importResults : option ImportResult;
  importMode : ImportMode;
  textImportInput : string
}.

Definition init : State :=
  {| importStatus := Idle; importProgress := 0; importMessage := "";
     importResults := None; importMode := Bulk; textImportInput := "" |}.

Definition setImportStatus (v : ImportStatus) (st : State) : State :=
  {| importStatus := v; importProgress := importProgress st;
     importMessage := importMessage st; importResults := importResults st;
     importMode := importMode st; textImportInput := textImportInput st |}.

Definition setImportProgress (v : N) (st : State) : State :=
  {| importStatus := importStatus st; importProgress := v;
     importMessage := importMessage st; importResults := importResults st;
     importMode := importMode st; textImportInput := textImportInput st |}.

Definition setImportMessage (v : string) (st : State) : State :=
  {| importStatus := importStatus st; importProgress := importProgress st;
     importMessage := v; importResults := importResults st;
     importMode := importMode st; textImportInput := textImportInput st |}.

Definition setImportResults (v : option ImportResult) (st : State) : State :=
  {| importStatus := importStatus st; importProgress := importProgress st;
     importMessage := importMessage st; importResults := v;
     importMode := importMode st; textImportInput := textImportInput st |}.

Definition setTextImportInput (v : string) (st : State) : State :=
  {| importStatus := importStatus st; importProgress := importProgress st;
     importMessage := importMessage st; importResults := importResults st;
     importMode := importMode st; textImportInput := v |}.

(** The lines of the text area, trimmed, without the empty ones. *)
Definition parseGameNames (input : string) : list string :=
  filter (fun line => (0 <? String.length line)%nat = true)
         (map trim (split_lines input)).

(** [handleSmartImport]: [api] answers the request made with the names. *)
Definition handleSmartImport (api : list string -> Response)
    (gameNames : list string) (st : State) : State :=
  let st := setImportProgress 0 (setImportStatus Loading st) in
  match importGamesFromText (api gameNames) with
  | inl result =>
      setImportStatus Success (setImportResults (Some result) (setImportProgress 100 st))
  | inr message =>
      setImportMessage ("Error during import: " +:+ message)
        (setImportStatus Error (setImportProgress 0 st))
  end.

(** [handleTextImport]. *)
Definition handleTextImport (api : list string -> Response) (st : State) : State :=
  if String.eqb (trim (textImportInput st)) "" then
    setImportMessage "Please enter some games to import." (setImportStatus Error st)
  else
    let st1 :=
      setImportMessage "Creating completed requests from text input..."
        (setImportProgress 0 (setImportStatus Loading st)) in
    let gameNames := parseGameNames (textImportInput st) in
    if (List.length gameNames =? 0)%nat then
      setImportMessage "No valid game names found in input." (setImportStatus Error st1)
    else
      match importGamesFromText (api gameNames) with
      | inl result =>
          let failedGameNames := map name (failed_games result) in
          setTextImportInput (join (String LF EmptyString) failedGameNames)
            (setImportStatus Success
               (setImportResults (Some result) (setImportProgress 100 st1)))
      | inr message =>
          setImportMessage ("Error during import: " +:+ message)
            (setImportStatus Error (setImportProgress 0 st1))
      end.

(** The text of the status banner computed from a result. *)
Definition bannerText (r : ImportResult) : string :=
  if (successful_imports r =? total_games r)%N then
    "Successfully imported all " +:+ pretty (total_games r) +:+ " games!"
  else if (0 <? successful_imports r)%N then
    "Successfully imported " +:+ pretty (successful_imports r) +:+ " out of "
      +:+ pretty (total_games r) +:+ " games!"
  else
    "Failed to import any games. " +:+ pretty (failed_imports r)
      +:+ " games could not be imported.".

(** The banner under the import box: the result banner when
    [importStatus === 'success' && importResults], the error banner with
    [importMessage] when [importStatus === 'error'], nothing otherwise
    (the progress bar of the loading state is not a message). *)
Inductive Banner : Type :=
| ResultBanner (text : string)
| ErrorBanner (text : string).

Definition banner (st : State) : option Banner :=
  match importStatus st, importResults st with
  | Success, Some r => Some (ResultBanner (bannerText r))
  | Error, _ => Some (ErrorBanner (importMessage st))
  | _, _ => None
  end.

(** The Import Results panel: the three counters, the imported titles and
    the failed names with their reasons. *)
Record Details : Type := {
  shownSuccessful : N;
  shownFailed : N;
  shownTotal : N;
  shownImported : list string;
  shownFailures : list (string * string)
}.

Definition details (st : State) : option Details :=
  match importResults st, importStatus st with
  | Some r, Success =>
      Some {| shownSuccessful := successful_imports r;
              shownFailed := failed_imports r;
              shownTotal := total_games r;
              shownImported := map igdb_name (imported_games r);
              shownFailures := map (fun g => (name g, reason g)) (failed_games r) |}
  | _, _ => None
  end.

End Library.

(** ** The import orchestrator behind [POST /api/import/text] *)

Module ImportOrchestrator.

(** Modelled from the spec: the status of a request record (section 3,
    Request); the server code that stores requests is not part of the
    sources at hand. *)
Inductive Status : Type := Pending | Approved | Rejected | Completed.

(** Modelled from the spec: a catalog entry as far as the import uses it
    (section 3, CatalogEntry): catalog id, display name and genre tags. *)
Record CatalogEntry : Type := {
  catalog_id : Z;
  display_name : string;
  genre_tags : list string
}.

(** Modelled from the spec: a request record (section 3, Request). *)
Record Request : Type := {
  owner : Z;
  requested_name : string;
  resolved_id : option Z;
  req_status : Status
}.

(** Modelled from the spec: the outcome of the Name Matcher for one name
    (sections 4.2 and 4.3): a catalog entry, [NoMatch], or the catalog
    failing with [CatalogUnavailable]. *)
Inductive Resolution : Type :=
| Matched (entry : CatalogEntry)
| NoMatch
| CatalogUnavailable.

(** Modelled from the spec: an imported entry of a batch result (section 3,
    ImportBatch): original name, resolved name, resolved catalog id and
    derived metadata. *)
Record Imported : Type := {
  imp_original_name : string;
  imp_resolved_name : string;
  imp_catalog_id : Z;
  imp_genres : list string
}.

(** Modelled from the spec: a failed entry of a batch result (section 3,
    ImportBatch): original name and failure reason. *)
Record Failed : Type := {
  failed_name : string;
  failed_reason : string
}.

(** Modelled from the spec: the result of a batch (section 3, ImportBatch),
    both lists in input order (section 5). *)
Record BatchResult : Type := {
  imported : list Imported;
  failed : list Failed
}.

(** Modelled from the spec: the Request Store lookup of section 4.3, an
    existing active or completed request of the owner for the catalog id. *)
Definition existing (ownerId cid : Z) (store : list Request) : bool :=
  existsb (fun r =>
             bool_decide (owner r = ownerId)
             && bool_decide (resolved_id r = Some cid)
             && match req_status r with
                | Pending | Approved | Completed => true
                | Rejected => false
                end) store.

Section Batch.

(** The Name Matcher over the external catalog. *)
Variable resolve : string -> Resolution.

Variable ownerId : Z.

(** Modelled from the spec: one item of [importBatch] (section 4.3).
    The item yields an imported entry and a new completed request, or a
    failed entry with its reason; the store is returned with it. *)
Definition importOne (original : string) (store : list Request)
    : (Imported + Failed) * list Request :=
  match resolve original with
  | NoMatch =>
      (inr {| failed_name := original; failed_reason := "NoMatch" |}, store)
  | CatalogUnavailable =>
      (inr {| failed_name := original; failed_reason := "CatalogUnavailable" |}, store)
  | Matched e =>
      if existing ownerId (catalog_id e) store then
        (inr {| failed_name := original;
                failed_reason := "already in library/already requested" |}, store)
      else
        (inl {| imp_original_name := original;
                imp_resolved_name := display_name e;
                imp_catalog_id := catalog_id e;
                imp_genres := genre_tags e |},
         store ++ [{| owner := ownerId; requested_name := original;
                      resolved_id := Some (catalog_id e);
                      req_status := Completed |}])
  end.

(** Modelled from the spec: [importBatch(names, ownerId)] of section 4.3,
    item after item in input order; a failed item is recorded and the
    next one is processed. *)
Fixpoint importBatch (names : list string) (store : list Request)
    : BatchResult * list Request :=
  match names with
  | [] => ({| imported := []; failed := [] |}, store)
  | n :: rest =>
      let '(item, store1) := importOne n store in
      let '(res, store2) := importBatch rest store1 in
      match item with
      | inl i => ({| imported := i :: imported res; failed := failed res |}, store2)
      | inr f => ({| imported := imported res; failed := f :: failed res |}, store2)
      end
  end.

(** Modelled from the spec: the answer of the bulk import interface
    (section 6): the three counters of a batch. *)
Definition summary (names : list string) (res : BatchResult) : N * N * N :=
  (N.of_nat (List.length names),
   N.of_nat (List.length (imported res)),
   N.of_nat (List.length (failed res))).

End Batch.

(** Modelled from the spec: the catalog of the example of section 8, in
    which only ["Half-Life 2"] resolves. *)
Definition exampleResolve (n : string) : Resolution :=
  if String.eqb n "Half-Life 2"
  then Matched {| catalog_id := 220; display_name := "Half-Life 2";
                  genre_tags := ["Shooter"] |}
  else NoMatch.

End ImportOrchestrator.

(** ** The game detail page (availability panel) *)

Module GameDetail.

(** The answer of [GET /api/requests/game/<id>/status]. *)
Record GameStatus : Type := {
  is_available : JsVal;
  can_request : JsVal;
  user_has_request : JsVal;
  user_request_status : JsVal
}.

(** [checkGameStatus]: [resp] is [None] when [fetch] or [response.json()]
    rejects, and otherwise [response.ok] with the body. *)
Definition checkGameStatus (resp : option (bool * GameStatus))
    (gameStatus : option GameStatus) : option GameStatus :=
  match resp with
  | Some (true, status) => Some status
  | _ => gameStatus
  end.

(** What the GAME AVAILABILITY box shows under its explanation. *)
Inductive Panel : Type :=
| AvailableIndicator
| CreateRequestButton (disabled : bool)
| RequestBadge (label : string)
| NoPanel.

Definition statusLabel (s : JsVal) : string :=
  if strict_eq s (JStr "pending") then "Pending"
  else if strict_eq s (JStr "approved") then "Approved"
  else if strict_eq s (JStr "completed") then "Available"
  else if strict_eq s (JStr "rejected") then "Rejected"
  else "Unknown".

(** [gameStatus?.field]: [undefined] while no status was received. *)
Definition field (f : GameStatus -> JsVal) (gameStatus : option GameStatus) : JsVal :=
  match gameStatus with
  | Some g => f g
  | None => JUndefined
  end.

Definition availabilityPanel (userLoggedIn : bool)
    (gameStatus : option GameStatus) : Panel :=
  if truthy (field is_available gameStatus) then AvailableIndicator
  else if truthy (field can_request gameStatus) then
    CreateRequestButton (negb userLoggedIn)
  else if truthy (field user_has_request gameStatus) then
    RequestBadge ("Request: " +:+ statusLabel (field user_request_status gameStatus))
  else NoPanel.

Definition availabilityText (gameStatus : option GameStatus) : string :=
  if truthy (field is_available gameStatus)
  then "This game is already installed and ready to play."
  else "Create a request for your community.".

End GameDetail.

(** ** The suggestions helper of [api/suggestions.js] *)

Module Suggestions.

Section GetGameSuggestions.

(** A suggestion as the server sends it; its fields play no role here. *)
Variable Suggestion : Type.

Variable encodeURIComponent : string -> string.

(** What [authFetch] does with a URL: it rejects, or it resolves to a
    response with [ok], [status], [statusText] and a body that
    [response.json()] reads ([None] when it rejects). *)
Inductive FetchResult : Type :=
| Rejects
| Resolves (ok : bool) (status : Z) (statusText : string)
           (json : option (list Suggestion)).

Variable authFetch : string -> FetchResult.

(** An [async] function settles with a value or with a thrown error. *)
Inductive Settled (A : Type) : Type :=
| Returns (a : A)
| Throws (message : string).

(** A run: the URLs requested and how the promise settles. *)
Record Run : Type := {
  requested : list string;
  result : Settled (list Suggestion)
}.

Definition getGameSuggestions (query : string) (limit : Z) : Run :=
  if String.eqb query "" || (String.length (trim query) <? 2)%nat then
    {| requested := []; result := Returns _ [] |}
  else
    let url := "/api/import/suggestions?q=" +:+ encodeURIComponent (trim query)
               +:+ "&limit=" +:+ pretty limit in
    let attempt : Settled (list Suggestion) :=
      match authFetch url with
      | Rejects => Throws _ "fetch failed"
      | Resolves ok status statusText json =>
          if negb ok then
            Throws _ ("HTTP " +:+ pretty status +:+ ": " +:+ statusText)
          else match json with
               | Some suggestions => Returns _ suggestions
               | None => Throws _ "invalid JSON"
               end
      end in
    {| requested := [url];
       result := match attempt with
                 | Returns _ v => Returns _ v
                 | Throws _ _ => Returns _ []
                 end |}.

End GetGameSuggestions.

Arguments Rejects {Suggestion}.
Arguments Resolves {Suggestion}.
Arguments Returns {A}.
Arguments Throws {A}.
Arguments requested {Suggestion}.
Arguments result {Suggestion}.

End Suggestions.

(** ** The Settings page (notification channel configuration) *)

Module Settings.

Record InfoModal : Type := {
  isOpen : bool;
  title : string;
  message : JsVal;
  type : string
}.

Inductive Tab : Type := General | Telegram | Logs.

(** The state of the component that the settings handlers read and write
    (the log viewer keeps [logs] and [logsLoading] apart from it). *)
Record State : Type := {
  activeTab : Tab;
  loading : bool;
  telegramTestSuccess : bool;
  settings : gmap string JsVal;
  infoModal : InfoModal
}.

Definition defaultSettings : gmap string JsVal :=
  list_to_map
    [ ("maxRequestsPerUser", JNum (-1));
      ("requireAdminApproval", JBool true);
      ("allowUserRequestDeletion", JBool false);
      ("telegramEnabled", JBool false);
      ("telegramBotToken", JStr "");
      ("telegramChatId", JStr "");
      ("notifyOnNewRequest", JBool true);
      ("notifyOnStatusChange", JBool true);
      ("notifyOnUserRegistration", JBool false);
      ("notifyOnSystemErrors", JBool false);
      ("enableApplicationLogs", JBool true);
      ("enableErrorLogs", JBool true);
      ("enableAuditLogs", JBool true);
      ("logRetentionDays", JNum 30) ].

Definition closedInfo : InfoModal :=
  {| isOpen := false; title := ""; message := JStr ""; type := "success" |}.

Definition init : State :=
  {| activeTab := General; loading := false; telegramTestSuccess := false;
     settings := defaultSettings; infoModal := closedInfo |}.

Definition setActiveTab (t : Tab) (st : State) : State :=
  {| activeTab := t; loading := loading st;
     telegramTestSuccess := telegramTestSuccess st;
     settings := settings st; infoModal := infoModal st |}.

Definition setLoading (b : bool) (st : State) : State :=
  {| activeTab := activeTab st; loading := b;
     telegramTestSuccess := telegramTestSuccess st;
     settings := settings st; infoModal := infoModal st |}.

Definition setTelegramTestSuccess (b : bool) (st : State) : State :=
  {| activeTab := activeTab st; loading := loading st;
     telegramTestSuccess := b;
     settings := settings st; infoModal := infoModal st |}.

(** [setSettings(prev => f(prev))]: the updater sees the latest queued value. *)
Definition setSettings (f : gmap string JsVal -> gmap string JsVal) (st : State) : State :=
  {| activeTab := activeTab st; loading := loading st;
     telegramTestSuccess := telegramTestSuccess st;
     settings := f (settings st); infoModal := infoModal st |}.

Definition setInfoModal (m : InfoModal) (st : State) : State :=
  {| activeTab := activeTab st; loading := loading st;
     telegramTestSuccess := telegramTestSuccess st;
     settings := settings st; infoModal := m |}.

Definition errorModal (t : string) (m : JsVal) : InfoModal :=
  {| isOpen := true; title := t; message := m; type := "error" |}.

Definition successModal (t : string) (m : JsVal) : InfoModal :=
  {| isOpen := true; title := t; message := m; type := "success" |}.

(** A request sent to the server. *)
Inductive Request : Type :=
| GetSettings
| PutSettings (body : gmap string JsVal)
| PostTelegramTest (bot_token chat_id : JsVal).

(** The answer to a request whose body is read: [fetch] rejects, or it
    resolves with [response.ok] and a body; [json] is [None] when
    [response.json()] rejects or yields [null], and otherwise the properties
    of the value it yields (none for a number or a boolean). *)
Inductive Fetched : Type :=
| Rejected
| Responded (ok : bool) (json : option (gmap string JsVal)).

(** [a || b] on values. *)
Definition or_else (a b : JsVal) : JsVal := if truthy a then a else b.

(** [loadSettings], the effect of the first render. *)
Definition loadSettings (f : Fetched) (st : State) : State * list Request :=
  let st1 := setLoading true st in
  let st2 :=
    match f with
    | Responded true (Some data) => setSettings (fun _ => delete "logLevel" data) st1
    | _ => st1
    end in
  (setLoading false st2, [GetSettings]).

(** [handleSettingChange(key, value)].  The test of [settings.telegramEnabled]
    reads the settings of the render, the updaters the queued ones. *)
Definition handleSettingChange (key : string) (value : JsVal) (st : State) : State :=
  let st1 := setSettings (fun prev => <[key := value]> prev) st in
  if String.eqb key "telegramBotToken" || String.eqb key "telegramChatId" then
    let st2 := setTelegramTestSuccess false st1 in
    if truthy (get (settings st) "telegramEnabled") then
      setSettings
        (fun prev => <["telegramEnabled" := JBool false]> (<[key := value]> prev)) st2
    else st2
  else st1.

(** [handleTelegramToggle]; [resp] is [response.ok], [None] when [fetch]
    rejects. *)
Definition handleTelegramToggle (resp : option bool) (st : State) : State * list Request :=
  let newValue := negb (truthy (get (settings st) "telegramEnabled")) in
  let st1 := setLoading true st in
  let st2 := setSettings (fun prev => <["telegramEnabled" := JBool newValue]> prev) st1 in
  let updatedSettings := <["telegramEnabled" := JBool newValue]> (settings st) in
  let failed := errorModal "Error Saving" (JStr "Telegram setting could not be saved.") in
  let st3 :=
    match resp with
    | Some true =>
        setInfoModal
          (successModal
             (if newValue then "Telegram enabled" else "Telegram disabled")
             (JStr (if newValue then "Telegram notifications are now active."
                    else "Telegram notifications have been disabled."))) st2
    | Some false =>
        setInfoModal failed
          (setSettings
             (fun prev => <["telegramEnabled" := JBool (negb newValue)]> prev) st2)
    | None => setInfoModal failed st2
    end in
  (setLoading false st3, [PutSettings updatedSettings]).

(** [handleTelegramNotificationToggle(key, newValue)]. *)
Definition handleTelegramNotificationToggle (key : string) (newValue : bool)
    (resp : option bool) (st : State) : State * list Request :=
  let st1 := setLoading true st in
  let st2 := setSettings (fun prev => <[key := JBool newValue]> prev) st1 in
  let updatedSettings := <[key := JBool newValue]> (settings st) in
  let failed := errorModal "Error Saving" (JStr "Notification setting could not be saved.") in
  let st3 :=
    match resp with
    | Some true => st2
    | Some false =>
        setInfoModal failed
          (setSettings (fun prev => <[key := JBool (negb newValue)]> prev) st2)
    | None => setInfoModal failed st2
    end in
  (setLoading false st3, [PutSettings updatedSettings]).

(** [handleSave]. *)
Definition handleSave (resp : option bool) (st : State) : State * list Request :=
  let st1 := setLoading true st in
  let st2 :=
    match resp with
    | Some true =>
        setInfoModal
          (successModal "Settings Saved"
             (JStr "All changes have been saved successfully.")) st1
    | _ =>
        setInfoModal
          (errorModal "Error Saving"
             (JStr "Settings could not be saved. Please try again.")) st1
    end in
  (setLoading false st2, [PutSettings (settings st)]).

(** [testTelegramConnection]: [save] answers the PUT of the settings, [test]
    the POST to the test endpoint (sent only after the PUT was accepted). *)
Definition testTelegramConnection (save : option bool) (test : Fetched)
    (st : State) : State * list Request :=
  if negb (truthy (get (settings st) "telegramBotToken"))
     || negb (truthy (get (settings st) "telegramChatId")) then
    (setInfoModal
       (errorModal "Incomplete Configuration"
          (JStr "Please provide both Bot Token and Chat ID.")) st, [])
  else
    let st1 := setLoading true st in
    let put := PutSettings (settings st) in
    let post := PostTelegramTest (get (settings st) "telegramBotToken")
                                 (get (settings st) "telegramChatId") in
    let caught :=
      setLoading false
        (setInfoModal
           (errorModal "Connection Failed"
              (JStr "Could not establish Telegram connection. Check your configuration."))
           (setTelegramTestSuccess false st1)) in
    match save with
    | Some true =>
        match test with
        | Responded ok (Some data) =>
            if ok && strict_eq (get data "success") (JBool true) then
              (setLoading false
                 (setInfoModal
                    (successModal "Connection Successful"
                       (JStr "Telegram configuration has been saved and test message sent successfully. You can now enable Telegram."))
                    (setTelegramTestSuccess true st1)), [put; post])
            else
              (setLoading false
                 (setInfoModal
                    (errorModal "Connection Failed"
                       (or_else (get data "detail")
                          (or_else (get data "message")
                             (JStr "Could not establish Telegram connection."))))
                    (setTelegramTestSuccess false st1)), [put; post])
        | _ => (caught, [put; post])
        end
    | _ => (caught, [put])
    end.

Definition closeInfoModal (st : State) : State := setInfoModal closedInfo st.

(** The [disabled] attribute of the Enable Telegram switch. *)
Definition toggleDisabled (st : State) : bool :=
  (negb (telegramTestSuccess st) && negb (truthy (get (settings st) "telegramEnabled")))
  || loading st.

(** The boolean settings switched by [handleSettingChange(key, !settings[key])]. *)
Inductive FlagKey : Type :=
| RequireAdminApproval | AllowUserRequestDeletion
| EnableApplicationLogs | EnableErrorLogs | EnableAuditLogs.

Definition flagName (k : FlagKey) : string :=
  match k with
  | RequireAdminApproval => "requireAdminApproval"
  | AllowUserRequestDeletion => "allowUserRequestDeletion"
  | EnableApplicationLogs => "enableApplicationLogs"
  | EnableErrorLogs => "enableErrorLogs"
  | EnableAuditLogs => "enableAuditLogs"
  end.

Definition flagTab (k : FlagKey) : Tab :=
  match k with
  | RequireAdminApproval | AllowUserRequestDeletion => General
  | _ => Logs
  end.

(** The notification types switched by [handleTelegramNotificationToggle]. *)
Inductive NotifyKey : Type :=
| NotifyOnNewRequest | NotifyOnStatusChange
| NotifyOnUserRegistration | NotifyOnSystemErrors.

Definition notifyName (k : NotifyKey) : string :=
  match k with
  | NotifyOnNewRequest => "notifyOnNewRequest"
  | NotifyOnStatusChange => "notifyOnStatusChange"
  | NotifyOnUserRegistration => "notifyOnUserRegistration"
  | NotifyOnSystemErrors => "notifyOnSystemErrors"
  end.

(** What the administrator can do on the page, with the answers of the
    server to the requests of the handler. *)
Inductive Event : Type :=
| SelectTab (t : Tab)
| ChangeMaxRequests (v : Z)
| ToggleFlag (k : FlagKey)
| TypeBotToken (s : string)
| TypeChatId (s : string)
| ChangeLogRetention (v : option Z)
| ClickTest (save : option bool) (test : Fetched)
| ClickEnableTelegram (resp : option bool)
| ClickNotification (k : NotifyKey) (resp : option bool)
| ClickSave (resp : option bool)
| CloseInfo.

Definition onTab (t : Tab) (st : State) : bool :=
  match t, activeTab st with
  | General, General | Telegram, Telegram | Logs, Logs => true
  | _, _ => false
  end.

(** Whether the control of the event is rendered and not [disabled]. *)
Definition enabled (st : State) (e : Event) : bool :=
  match e with
  | SelectTab _ => true
  | ChangeMaxRequests _ => onTab General st
  | ToggleFlag k => onTab (flagTab k) st
  | TypeBotToken _ | TypeChatId _ => onTab Telegram st
  | ChangeLogRetention _ => onTab Logs st
  | ClickTest _ _ => onTab Telegram st && negb (loading st)
  | ClickEnableTelegram _ => onTab Telegram st && negb (toggleDisabled st)
  | ClickNotification _ _ =>
      onTab Telegram st
      && negb (negb (truthy (get (settings st) "telegramEnabled")) || loading st)
  | ClickSave _ => (onTab General st || onTab Logs st) && negb (loading st)
  | CloseInfo => isOpen (infoModal st)
  end.

Definition handle (e : Event) (st : State) : State * list Request :=
  match e with
  | SelectTab t => (setActiveTab t st, [])
  | ChangeMaxRequests v => (handleSettingChange "maxRequestsPerUser" (JNum v) st, [])
  | ToggleFlag k =>
      (handleSettingChange (flagName k)
         (JBool (negb (truthy (get (settings st) (flagName k))))) st, [])
  | TypeBotToken s => (handleSettingChange "telegramBotToken" (JStr s) st, [])
  | TypeChatId s => (handleSettingChange "telegramChatId" (JStr s) st, [])
  | ChangeLogRetention v =>
      (handleSettingChange "logRetentionDays"
         (match v with Some z => JNum z | None => JNaN end) st, [])
  | ClickTest save test => testTelegramConnection save test st
  | ClickEnableTelegram resp => handleTelegramToggle resp st
  | ClickNotification k resp =>
      handleTelegramNotificationToggle (notifyName k)
        (negb (truthy (get (settings st) (notifyName k)))) resp st
  | ClickSave resp => handleSave resp st
  | CloseInfo => (closeInfoModal st, [])
  end.

(** The page after its first render and the answer to [loadSettings]. *)
Definition mounted (f : Fetched) : State := fst (loadSettings f init).

Definition credentials (st : State) : JsVal * JsVal :=
  (get (settings st) "telegramBotToken", get (settings st) "telegramChatId").

Definition channelEnabled (st : State) : bool :=
  truthy (get (settings st) "telegramEnabled").

(** Whether [ClickTest save test] in state [st] ends in a delivered test:
    the configuration is complete, the PUT was accepted, and the test
    endpoint answered OK with [success === true]. *)
Definition delivered (save : option bool) (test : Fetched) (st : State) : bool :=
  truthy (get (settings st) "telegramBotToken")
  && truthy (get (settings st) "telegramChatId")
  && match save, test with
     | Some true, Responded true (Some data) =>
         strict_eq (get data "success") (JBool true)
     | _, _ => false
     end.

(** History variable: the credentials of the last delivered test, as long as
    no credential was edited since. *)
Definition track (e : Event) (st : State) (tested : option (JsVal * JsVal))
    : option (JsVal * JsVal) :=
  match e with
  | TypeBotToken _ | TypeChatId _ => None
  | ClickTest save test =>
      if delivered save test st then Some (credentials st) else tested
  | _ => tested
  end.

(** At mount the history holds the stored credentials when the channel is
    stored enabled: they were tested by the session that enabled it. *)
Definition stored (f : Fetched) : option (JsVal * JsVal) :=
  if channelEnabled (mounted f) then Some (credentials (mounted f)) else None.

(** Run a sequence of events with the history variable; an event whose
    control is absent or disabled is skipped.  Every handler runs to
    completion before the next event, also the handlers that wait for the
    server: what is typed while a request is pending is not part of these
    runs (see [SettingsAsync.run] for the connection test).  The result is
    the final state, the history and the requests sent, oldest first. *)
Fixpoint run (es : list Event) (st : State) (tested : option (JsVal * JsVal))
    : State * option (JsVal * JsVal) * list Request :=
  match es with
  | [] => (st, tested, [])
  | e :: rest =>
      if enabled st e then
        let '(st1, sent1) := handle e st in
        let '(st2, tested2, sent2) := run rest st1 (track e st tested) in
        (st2, tested2, sent1 ++ sent2)
      else run rest st tested
  end.

(** Whether the sequence holds a delivered test, run from [st]. *)
Fixpoint deliveredIn (es : list Event) (st : State) : bool :=
  match es with
  | [] => false
  | e :: rest =>
      if enabled st e then
        match e with
        | ClickTest save test => delivered save test st
        | _ => false
        end || deliveredIn rest (fst (handle e st))
      else deliveredIn rest st
  end.

(** The invariant of the page: when the test is marked successful, and when
    the channel is enabled, the credentials in the form are those of the
    history variable. *)
Definition validated (st : State) (tested : option (JsVal * JsVal)) : Prop :=
  (telegramTestSuccess st = true -> tested = Some (credentials st))
  /\ (channelEnabled st = true -> tested = Some (credentials st)).

End Settings.

(** ** The settings page while a connection test is pending *)

Module SettingsAsync.

Import Settings.

(** A pending [testTelegramConnection]: the handler waits for the answer to
    its PUT or to its POST, and goes on reading [settings] from the render
    in which the button was clicked (its closure), whatever the form holds
    by then. *)
Inductive Pending : Type :=
| NoTest
| AwaitSave (closure : gmap string JsVal)
| AwaitTest (closure : gmap string JsVal).

Record Page : Type := {
  form : State;
  pending : Pending
}.

Definition start (st : State) : Page := {| form := st; pending := NoTest |}.

(** The [catch] and [finally] blocks of [testTelegramConnection]. *)
Definition caught (st : State) : State :=
  setLoading false
    (setInfoModal
       (errorModal "Connection Failed"
          (JStr "Could not establish Telegram connection. Check your configuration."))
       (setTelegramTestSuccess false st)).

(** [testTelegramConnection] up to its first [await]. *)
Definition testBegins (st : State) : State * Pending * list Request :=
  if negb (truthy (get (settings st) "telegramBotToken"))
     || negb (truthy (get (settings st) "telegramChatId")) then
    (setInfoModal
       (errorModal "Incomplete Configuration"
          (JStr "Please provide both Bot Token and Chat ID.")) st, NoTest, [])
  else
    (setLoading true st, AwaitSave (settings st), [PutSettings (settings st)]).

(** From the answer to the PUT to the second [await]. *)
Definition testSaved (closure : gmap string JsVal) (save : option bool)
    (st : State) : State * Pending * list Request :=
  match save with
  | Some true =>
      (st, AwaitTest closure,
       [PostTelegramTest (get closure "telegramBotToken")
                         (get closure "telegramChatId")])
  | _ => (caught st, NoTest, [])
  end.

(** From the answer to the POST to the end. *)
Definition testAnswered (test : Fetched) (st : State) : State :=
  match test with
  | Responded ok (Some data) =>
      if ok && strict_eq (get data "success") (JBool true) then
        setLoading false
          (setInfoModal
             (successModal "Connection Successful"
                (JStr "Telegram configuration has been saved and test message sent successfully. You can now enable Telegram."))
             (setTelegramTestSuccess true st))
      else
        setLoading false
          (setInfoModal
             (errorModal "Connection Failed"
                (or_else (get data "detail")
                   (or_else (get data "message")
                      (JStr "Could not establish Telegram connection."))))
             (setTelegramTestSuccess false st))
  | _ => caught st
  end.

(** The three parts with nothing in between. *)
Definition testAtOnce (save : option bool) (test : Fetched) (st : State)
    : State * list Request :=
  match testBegins st with
  | (st1, AwaitSave closure, sent1) =>
      match testSaved closure save st1 with
      | (st2, AwaitTest _, sent2) => (testAnswered test st2, sent1 ++ sent2)
      | (st2, _, sent2) => (st2, sent1 ++ sent2)
      end
  | (st1, _, sent1) => (st1, sent1)
  end.

(** What happens on the page: an event whose handler runs to completion
    (the click on the test button apart), the click on the test button, and
    the two answers a pending test waits for. *)
Inductive Step : Type :=
| User (e : Event)
| ClickTestButton
| SaveResponds (save : option bool)
| TestResponds (test : Fetched).

(** The inputs of the bot token and of the chat id carry no [disabled]
    attribute: they take input while a test is pending.  The buttons that
    send are disabled by [loading]. *)
Definition stepEnabled (p : Page) (s : Step) : bool :=
  match s with
  | User (ClickTest _ _) => false
  | User e => enabled (form p) e
  | ClickTestButton => onTab Telegram (form p) && negb (loading (form p))
  | SaveResponds _ =>
      match pending p with AwaitSave _ => true | _ => false end
  | TestResponds _ =>
      match pending p with AwaitTest _ => true | _ => false end
  end.

Definition step (s : Step) (p : Page) : Page * list Request :=
  match s with
  | User e =>
      let '(st, sent) := handle e (form p) in
      ({| form := st; pending := pending p |}, sent)
  | ClickTestButton =>
      let '(st, pend, sent) := testBegins (form p) in
      ({| form := st; pending := pend |}, sent)
  | SaveResponds save =>
      match pending p with
      | AwaitSave closure =>
          let '(st, pend, sent) := testSaved closure save (form p) in
          ({| form := st; pending := pend |}, sent)
      | _ => (p, [])
      end
  | TestResponds test =>
      match pending p with
      | AwaitTest _ =>
          ({| form := testAnswered test (form p); pending := NoTest |}, [])
      | _ => (p, [])
      end
  end.

(** History variable, as [Settings.track]: the credentials of the last
    delivered test, which are those of the handler's closure, as long as no
    credential was edited since the test was delivered. *)
Definition trackStep (s : Step) (p : Page) (tested : option (JsVal * JsVal))
    : option (JsVal * JsVal) :=
  match s with
  | User (TypeBotToken _) | User (TypeChatId _) => None
  | TestResponds (Responded true (Some data)) =>
      match pending p with
      | AwaitTest closure =>
          if strict_eq (get data "success") (JBool true)
          then Some (get closure "telegramBotToken", get closure "telegramChatId")
          else tested
      | _ => tested
      end
  | _ => tested
  end.

(** Run steps; the result is the page, the history, the requests sent,
    oldest first, and the number of steps that were skipped because their
    control was absent or disabled or no answer was awaited. *)
Fixpoint run (steps : list Step) (p : Page) (tested : option (JsVal * JsVal))
    : Page * option (JsVal * JsVal) * list Request * nat :=
  match steps with
  | [] => (p, tested, [], 0%nat)
  | s :: rest =>
      if stepEnabled p s then
        let '(p1, sent1) := step s p in
        let '(p2, tested2, sent2, skipped) := run rest p1 (trackStep s p tested) in
        (p2, tested2, sent1 ++ sent2, skipped)
      else
        let '(p2, tested2, sent2, skipped) := run rest p tested in
        (p2, tested2, sent2, S skipped)
  end.

(** A credential edited while the test of the previous one is pending. *)
Definition editDuringTest : list Step :=
  [ User (SelectTab Telegram);
    User (TypeBotToken "A-token");
    User (TypeChatId "C");
    ClickTestButton;
    User (TypeBotToken "B-token");
    SaveResponds (Some true);
    TestResponds (Responded true (Some {[ "success" := JBool true ]}));
    User (ClickEnableTelegram (Some true)) ].

End SettingsAsync.

(** ** Rendering of the two administrator pages *)

Module Pages.

(** The user object of [AuthContext], as far as the pages read it. *)
Record User : Type := {
  username : string;
  role : string
}.

(** [isAdmin: user?.role === 'admin'] of the context value. *)
Definition isAdmin (user : option User) : bool :=
  match user with
  | Some u => String.eqb (role u) "admin"
  | None => false
  end.

(** The handlers a page binds to the controls it renders. *)
Inductive Handler : Type :=
| HandleTextImport | HandleSmartImport | EditTextImportInput | ClearList
| SelectImportMode | CloseResults
| HandleSettingChange | HandleTelegramToggle | HandleTelegramNotificationToggle
| HandleSave | TestTelegramConnection | SelectSettingsTab
| LoadLogs | DownloadLogFile | CleanupOldLogs | CloseInfoModal.

(** What a render returns: [<Navigate to=... replace />], or the page with
    the handlers bound in it. *)
Inductive Element : Type :=
| Navigate (to : string) (replace : bool)
| Page (handlers : list Handler).

(** Functions called by the effects that React runs after the render was
    committed. *)
Inductive Effect : Type :=
| CallLoadSettings
| CallLoadLogs.

Record Rendered : Type := {
  element : Element;
  effects : list Effect
}.

(** The handlers that a rendered element lets the user invoke. *)
Definition invocable (e : Element) : list Handler :=
  match e with
  | Navigate _ _ => []
  | Page handlers => handlers
  end.

(** [Library]: the redirect precedes the handlers; the component declares
    no effect. *)
Definition renderLibrary (user : option User) (st : Library.State) : Rendered :=
  if negb (isAdmin user) then
    {| element := Navigate "/" true; effects := [] |}
  else
    {| element :=
         Page ([SelectImportMode]
               ++ match Library.importMode st with
                  | Library.Bulk => [EditTextImportInput; HandleTextImport; ClearList]
                  | Library.Smart => [HandleSmartImport]
                  end
               ++ match Library.importResults st, Library.importStatus st with
                  | Some _, Library.Success => [CloseResults]
                  | _, _ => []
                  end);
       effects := [] |}.

(** [Settings]: the two [useEffect] calls precede the redirect, so their
    effects run after every first render: [loadSettings()], and
    [loadLogs()] when the active tab is the logs tab.  An administrator sees
    a spinner while the settings object is empty and loading. *)
Definition renderSettings (user : option User) (st : Settings.State) : Rendered :=
  {| element :=
       if negb (isAdmin user) then Navigate "/" true
       else if Settings.loading st && (size (Settings.settings st) =? 0)%nat then
         Page []
       else
         Page ([SelectSettingsTab; CloseInfoModal]
               ++ match Settings.activeTab st with
                  | Settings.General => [HandleSettingChange; HandleSave]
                  | Settings.Telegram =>
                      [HandleSettingChange; TestTelegramConnection;
                       HandleTelegramToggle; HandleTelegramNotificationToggle]
                  | Settings.Logs =>
                      [HandleSettingChange; LoadLogs; DownloadLogFile;
                       CleanupOldLogs; HandleSave]
                  end);
     effects :=
       CallLoadSettings
       :: match Settings.activeTab st with
          | Settings.Logs => [CallLoadLogs]
          | _ => []
          end |}.

(** [Users], the third administrator page, has the same redirect and a
    mount effect like that of [Settings]; its [fetchUsers] returns at once
    unless [isAdmin].  The requests of that effect. *)
Inductive UsersRequest : Type := GetUsers | GetRequestCounts.

Definition fetchUsers (user : option User) : list UsersRequest :=
  if negb (isAdmin user) then [] else [GetUsers; GetRequestCounts].

(** Everything a first render of a page sets in motion or makes available:
    the calls of its effects and the handlers of its controls. *)
Inductive Operation : Type :=
| ByEffect (e : Effect)
| ByControl (h : Handler).

Definition operations (r : Rendered) : list Operation :=
  map ByEffect (effects r) ++ map ByControl (invocable (element r)).

End Pages.

(** ** More of JavaScript's strings *)

Module JsText.

(** [String.prototype.toLowerCase] on code units below 256: the letters A-Z
    and the capital letters of Latin-1 (192-214 and 216-222) move up by 32. *)
Definition lowerChar (c : ascii) : ascii :=
  let n := nat_of_ascii c in
  if ((65 <=? n) && (n <=? 90) || (192 <=? n) && (n <=? 214)
      || (216 <=? n) && (n <=? 222))%nat
  then ascii_of_nat (n + 32) else c.

Fixpoint toLowerCase (s : string) : string :=
  match s with
  | EmptyString => EmptyString
  | String c r => String (lowerChar c) (toLowerCase r)
  end.

(** [s.startsWith(p)]. *)
Fixpoint startsWith (p s : string) : bool :=
  match p, s with
  | EmptyString, _ => true
  | String _ _, EmptyString => false
  | String a p', String b s' => Ascii.eqb a b && startsWith p' s'
  end.

(** [s.includes(sub)]. *)
Fixpoint includes (sub s : string) : bool :=
  startsWith sub s
  || match s with
     | EmptyString => false
     | String _ r => includes sub r
     end.

(** [!!s] for a value that is a string, [null] or [undefined]. *)
Definition present (v : option string) : bool :=
  match v with
  | Some s => negb (String.eqb s "")
  | None => false
  end.

End JsText.

Import JsText.

(** ** The runtime configuration helper ([config.js]) *)

Module Config.

Definition isLocalhostValue (value : option string) : bool :=
  match value with
  | Some v =>
      if String.eqb v "" then false
      else
        let normalized := toLowerCase v in
        includes "localhost" normalized || includes "127.0.0.1" normalized
  | None => false
  end.

(** [getRuntimeValue]: [window] is [None] outside a browser, and holds
    [window._env_] otherwise ([None] when [config.js] set none). *)
Definition getRuntimeValue (window : option (option (gmap string string)))
    : option string :=
  match window with
  | Some (Some env) => env !! "VITE_API_BASE_URL"
  | _ => None
  end.

(** [getApiBaseUrl], with the runtime value, [import.meta.env.VITE_API_BASE_URL]
    and [import.meta.env.MODE] as arguments. *)
Definition getApiBaseUrl (runtimeValue buildTimeValue : option string)
    (mode : string) : string :=
  if present runtimeValue && negb (isLocalhostValue runtimeValue) then
    default "" runtimeValue
  else if present buildTimeValue && negb (isLocalhostValue buildTimeValue) then
    default "" buildTimeValue
  else if String.eqb mode "production" then ""
  else if present buildTimeValue then default "" buildTimeValue
  else "http://127.0.0.1:8000".

End Config.

(** ** Authenticated requests and the stored session ([api/auth.js]) *)

Module Auth.

(** [localStorage] is a dictionary of strings. *)
Definition getItem (k : string) (localStorage : gmap string string) : option string :=
  localStorage !! k.

Definition setItem (k v : string) (localStorage : gmap string string)
    : gmap string string :=
  <[k := v]> localStorage.

Definition removeItem (k : string) (localStorage : gmap string string)
    : gmap string string :=
  delete k localStorage.

(** The [options] argument of [fetch], as far as the callers set it. *)
Record Options : Type := {
  method : option string;
  headers : option (gmap string string);
  body : option string
}.

Definition noOptions : Options :=
  {| method := None; headers := None; body := None |}.

(** A call of [fetch]. *)
Record FetchCall : Type := {
  call_url : string;
  call_method : option string;
  call_headers : gmap string string;
  call_body : option string
}.

Definition defaultHeaders (token : option string) : gmap string string :=
  let json : gmap string string := {[ "Content-Type" := "application/json" ]} in
  if present token then <["Authorization" := "Bearer " +:+ default "" token]> json
  else json.

(** [authFetch(url, options)]: the call of [fetch] it makes.  In
    [{...defaultHeaders, ...options.headers}] the headers of the caller win. *)
Definition authFetch (API_BASE_URL : string) (localStorage : gmap string string)
    (url : string) (options : Options) : FetchCall :=
  let token := getItem "token" localStorage in
  {| call_url := if startsWith "http" url then url else API_BASE_URL +:+ url;
     call_method := method options;
     call_headers := default ∅ (headers options) ∪ defaultHeaders token;
     call_body := body options |}.

(** The call made by [importGamesFromText(games)] of [api/import.js]; [json]
    is [JSON.stringify({ games })] and [API_BASE] the same base URL. *)
Definition importCall (API_BASE : string) (localStorage : gmap string string)
    (json : string) : FetchCall :=
  authFetch API_BASE localStorage (API_BASE +:+ "/api/import/text")
    {| method := Some "POST";
       headers := Some {[ "Content-Type" := "application/json" ]};
       body := Some json |}.

Definition logout (localStorage : gmap string string) : gmap string string :=
  removeItem "user" (removeItem "token" localStorage).

Definition isAuthenticated (localStorage : gmap string string) : bool :=
  present (getItem "token" localStorage).

Section StoredUser.

Variable User : Type.

(** [JSON.stringify] and [JSON.parse] on user objects; [parse] is [None]
    where [JSON.parse] throws. *)
Variable stringify : User -> string.
Variable parse : string -> option User.

Inductive Stored : Type :=
| NoUser
| StoredUser (u : User)
| ParseError.

Definition getStoredUser (localStorage : gmap string string) : Stored :=
  match getItem "user" localStorage with
  | Some userData =>
      if String.eqb userData "" then NoUser
      else match parse userData with
           | Some u => StoredUser u
           | None => ParseError
           end
  | None => NoUser
  end.

Definition storeAuthData (token : string) (user : User)
    (localStorage : gmap string string) : gmap string string :=
  setItem "user" (stringify user) (setItem "token" token localStorage).

End StoredUser.

Arguments NoUser {User}.
Arguments StoredUser {User}.
Arguments ParseError {User}.

End Auth.

(** ** The list of the Requests page: deleting, filtering, sorting, counting *)

Module RequestsList.

Import Requests.

(** [confirmDelete] for the request of the delete modal: the list after the
    [DELETE], and whether the error modal is shown.  [ok] is [response.ok],
    [None] when [fetch] rejects. *)
Definition confirmDelete (ok : option bool) (requestId : Z) (rs : list Request)
    : list Request * bool :=
  match ok with
  | Some true =>
      (List.filter (fun req => negb (bool_decide (id req = requestId))) rs, false)
  | _ => (rs, true)
  end.

Definition filteredRequests (filterStatus : string) (rs : list Request)
    : list Request :=
  List.filter
    (fun request =>
       String.eqb filterStatus "all" || String.eqb (status request) filterStatus)
    rs.

(** The result of the comparison function, from [aValue < bValue] and
    [aValue > bValue]. *)
Definition ordered (lt gt asc : bool) : Z :=
  if lt then (if asc then -1 else 1)
  else if gt then (if asc then 1 else -1)
  else 0.

(** [Array.prototype.sort] with a comparison function.  The sort is stable
    (ECMAScript 2019): with a comparison function that is consistent its
    result is the one arrangement that is sorted and keeps equal elements in
    their order, which insertion from the right computes. *)
Fixpoint insertSorted {A : Type} (cmp : A -> A -> Z) (x : A) (l : list A) : list A :=
  match l with
  | [] => [x]
  | y :: rest =>
      if 0 <? cmp x y then y :: insertSorted cmp x rest else x :: l
  end.

Definition sortWith {A : Type} (cmp : A -> A -> Z) (l : list A) : list A :=
  foldr (insertSorted cmp) [] l.

Section Sorting.

(** The time value of [new Date(request.created_at)], for the dates the
    server sends. *)
Variable timeValue : Request -> Z.

(** The comparison function of [sortedRequests]. *)
Definition compareRequests (sortBy sortOrder : string) (a b : Request) : Z :=
  let asc := String.eqb sortOrder "asc" in
  if String.eqb sortBy "created_at" then
    ordered (timeValue a <? timeValue b) (timeValue b <? timeValue a) asc
  else if String.eqb sortBy "game_name" then
    let aValue := toLowerCase (game_name a) in
    let bValue := toLowerCase (game_name b) in
    ordered (String.ltb aValue bValue) (String.ltb bValue aValue) asc
  else if String.eqb sortBy "status" then
    ordered (String.ltb (status a) (status b)) (String.ltb (status b) (status a)) asc
  else 0.

Definition sortedRequests (filterStatus sortBy sortOrder : string)
    (rs : list Request) : list Request :=
  sortWith (compareRequests sortBy sortOrder) (filteredRequests filterStatus rs).

End Sorting.

(** The counters of the Statistics box: Total counts [requests], the four
    others count [sortedRequests]. *)
Definition countStatus (s : string) (shown : list Request) : nat :=
  List.length (List.filter (fun r => String.eqb (status r) s) shown).

Record Statistics : Type := {
  statTotal : nat;
  statPending : nat;
  statApproved : nat;
  statRejected : nat;
  statAvailable : nat
}.

Definition statistics (requests shown : list Request) : Statistics :=
  {| statTotal := List.length requests;
     statPending := countStatus "pending" shown;
     statApproved := countStatus "approved" shown;
     statRejected := countStatus "rejected" shown;
     statAvailable := countStatus "completed" shown |}.

(** The confirm button of [ConfirmModal]: nothing is rendered unless
    [isOpen]; a click calls [onConfirm()] and then [handleCancel()]. *)
Definition clickConfirm {S O : Type} (isOpen : bool)
    (onConfirm : S -> S * list O) (handleCancel : S -> S) (st : S) : S * list O :=
  if isOpen then
    let '(st1, out) := onConfirm st in (handleCancel st1, out)
  else (st, []).

(** A click on the Next Status button of the card of [r], followed by a
    click on the confirm button of the modal. *)
Definition advance (admin : bool) (r : Request) (ok : option bool) (st : State)
    : State * list Patch :=
  let st1 := if enabled admin st (ClickNextStatus r)
             then openNextStatusModal r st else st in
  clickConfirm (next_isOpen (nextStatusModal st1))
    (confirmNextStatus ok) closeNextStatusModal st1.

Definition withStatus (s : string) (r : Request) : Request :=
  {| id := id r; game_name := game_name r; status := s |}.

End RequestsList.

(** ** The smart import form ([SmartGameImport] and its [SmartGameInput]s) *)

Module SmartGameImport.

(** [name.trim().length > 0]. *)
Definition nonBlank (name : string) : bool :=
  (0 <? String.length (trim name))%nat.

(** The form: [gameInputs] of [SmartGameImport], and the [inputValue] of
    each mounted [SmartGameInput].  The inputs are keyed by their index, so
    the input at a position keeps its own [inputValue] when the list
    changes; a new input starts from the [value] it is given. *)
Record State : Type := {
  gameInputs : list string;
  inputValues : list string
}.

Definition init : State := {| gameInputs := [""]; inputValues := [""] |}.

(** After a render of [names], the inputs at the positions that stay keep
    their text, those beyond are unmounted and new ones show their name. *)
Definition remount (names shown : list string) : list string :=
  take (List.length names) shown ++ drop (List.length shown) names.

(** Typing in the input at [index] (or selecting a suggestion there, with
    the name of the game as value): the input sets its [inputValue] and
    calls [handleInputChange(index, value)].  [index] is the position of a
    rendered input. *)
Definition typeInto (index : nat) (value : string) (st : State) : State :=
  {| gameInputs := <[index := value]> (gameInputs st);
     inputValues := <[index := value]> (inputValues st) |}.

Definition addGameInput (st : State) : State :=
  let names := gameInputs st ++ [""] in
  {| gameInputs := names; inputValues := remount names (inputValues st) |}.

Definition removeGameInput (index : nat) (st : State) : State :=
  if (1 <? List.length (gameInputs st))%nat then
    let names := delete index (gameInputs st) in
    {| gameInputs := names; inputValues := remount names (inputValues st) |}
  else st.

(** [handleImport]: the new form and the argument of [onImport], if called. *)
Definition handleImport (st : State) : State * option (list string) :=
  let gameNames := List.filter nonBlank (gameInputs st) in
  if (0 <? List.length gameNames)%nat then
    ({| gameInputs := [""]; inputValues := remount [""] (inputValues st) |},
     Some gameNames)
  else (st, None).

Definition hasValidGames (st : State) : bool :=
  existsb nonBlank (gameInputs st).

(** The number in the label of the import button. *)
Definition importCount (st : State) : nat :=
  List.length (List.filter nonBlank (gameInputs st)).

Inductive Event : Type :=
| TypeInto (index : nat) (value : string)
| Add
| Remove (index : nat)
| Import.

(** Whether the control of the event is rendered and not disabled;
    [disabled] is the prop of the form ([importStatus === 'loading']). *)
Definition enabled (disabled : bool) (st : State) (e : Event) : bool :=
  match e with
  | TypeInto index _ => (index <? List.length (gameInputs st))%nat
  | Add => true
  | Remove index =>
      (1 <? List.length (gameInputs st))%nat
      && (index <? List.length (gameInputs st))%nat
  | Import => negb (disabled || negb (hasValidGames st))
  end.

Definition handle (e : Event) (st : State) : State * option (list string) :=
  match e with
  | TypeInto index value => (typeInto index value st, None)
  | Add => (addGameInput st, None)
  | Remove index => (removeGameInput index st, None)
  | Import => handleImport st
  end.

(** Run events on the form while the page is not importing; the result is
    the form and the lists of names passed to [onImport], oldest first. *)
Fixpoint run (es : list Event) (st : State) : State * list (list string) :=
  match es with
  | [] => (st, [])
  | e :: rest =>
      if enabled false st e then
        let '(st1, out) := handle e st in
        let '(st2, outs) := run rest st1 in
        (st2, match out with Some names => names :: outs | None => outs end)
      else run rest st
  end.

End SmartGameImport.

(** ** The autocomplete inputs ([GameAutocomplete] and [NavigationSearch]) *)

Module Autocomplete.

Inductive Key : Type := ArrowDown | ArrowUp | Enter | Escape | OtherKey.

Section Component.

Variable Suggestion : Type.

(** [game.name] and [game.id] of a suggestion. *)
Variable suggestionName : Suggestion -> string.
Variable suggestionId : Suggestion -> Z.

Variable encodeURIComponent : string -> string.
Variable authFetch : string -> Suggestions.FetchResult Suggestion.

(** The prop [maxSuggestions]. *)
Variable maxSuggestions : Z.

(** [true] for [NavigationSearch], [false] for [GameAutocomplete]: the two
    components differ in what a selection does and in the Enter key while
    no suggestion is shown. *)
Variable navigation : bool.

(** The state of the component, with the [value] its parent holds for it. *)
Record State : Type := {
  value : string;
  suggestions : list Suggestion;
  isLoading : bool;
  showDropdown : bool;
  selectedIndex : Z
}.

Definition init (v : string) : State :=
  {| value := v; suggestions := []; isLoading := false;
     showDropdown := false; selectedIndex := -1 |}.

(** What a handler does besides changing the state. *)
Inductive Output : Type :=
| Requested (url : string)
| Selected (game : Suggestion)
| Navigated (path : string)
| Searched (query : string)
| Blurred.

(** The callback of the debounce timer, for the [query] it was set with. *)
Definition search (query : string) (st : State) : State * list Output :=
  if (2 <=? String.length (trim query))%nat then
    let run := Suggestions.getGameSuggestions Suggestion encodeURIComponent
                 authFetch query maxSuggestions in
    (match Suggestions.result run with
     | Suggestions.Returns results =>
         {| value := value st; suggestions := results; isLoading := false;
            showDropdown := (0 <? List.length results)%nat;
            selectedIndex := -1 |}
     | Suggestions.Throws _ =>
         {| value := value st; suggestions := []; isLoading := false;
            showDropdown := false; selectedIndex := selectedIndex st |}
     end, map Requested (Suggestions.requested run))
  else
    ({| value := value st; suggestions := []; isLoading := false;
        showDropdown := false; selectedIndex := selectedIndex st |}, []).

(** [handleInputChange]: the parent takes the new value; the search runs
    when the timer fires. *)
Definition handleInputChange (newValue : string) (st : State) : State :=
  {| value := newValue; suggestions := suggestions st; isLoading := isLoading st;
     showDropdown := showDropdown st; selectedIndex := selectedIndex st |}.

Definition handleGameSelect (game : Suggestion) (st : State) : State * list Output :=
  ({| value := suggestionName game; suggestions := []; isLoading := isLoading st;
      showDropdown := false; selectedIndex := -1 |},
   Selected game
   :: if navigation then [Navigated ("/game/" +:+ pretty (suggestionId game))]
      else []).

Definition closeDropdown (st : State) : State :=
  {| value := value st; suggestions := suggestions st; isLoading := isLoading st;
     showDropdown := false; selectedIndex := -1 |}.

Definition setSelectedIndex (i : Z) (st : State) : State :=
  {| value := value st; suggestions := suggestions st; isLoading := isLoading st;
     showDropdown := showDropdown st; selectedIndex := i |}.

Definition handleKeyDown (key : Key) (st : State) : State * list Output :=
  let len := Z.of_nat (List.length (suggestions st)) in
  if negb (showDropdown st) || (len =? 0) then
    match key with
    | Enter =>
        if navigation then
          (st, (if (2 <=? String.length (trim (value st)))%nat
                then [Searched (trim (value st))] else [])
               ++ [Blurred])
        else (st, [])
    | _ => (st, [])
    end
  else
    match key with
    | ArrowDown =>
        (setSelectedIndex
           (if selectedIndex st <? len - 1 then selectedIndex st + 1
            else selectedIndex st) st, [])
    | ArrowUp =>
        (setSelectedIndex
           (if 0 <? selectedIndex st then selectedIndex st - 1
            else selectedIndex st) st, [])
    | Enter =>
        if (0 <=? selectedIndex st) && (selectedIndex st <? len) then
          match suggestions st !! Z.to_nat (selectedIndex st) with
          | Some game => handleGameSelect game st
          | None => (st, [])
          end
        else (st, [])
    | Escape => (closeDropdown st, [Blurred])
    | OtherKey => (st, [])
    end.

(** The "No games found" box is rendered under this condition. *)
Definition noResultsShown (st : State) : bool :=
  showDropdown st && (List.length (suggestions st) =? 0)%nat
  && negb (isLoading st) && (2 <=? String.length (trim (value st)))%nat.

Inductive Event : Type :=
| TypeValue (newValue : string)
| TimerFires (query : string)
| KeyDown (key : Key)
| ClickSuggestion (index : nat)
| ClickOutside.

(** The rows of the dropdown are rendered while
    [showDropdown && suggestions.length > 0]. *)
Definition enabled (st : State) (e : Event) : bool :=
  match e with
  | ClickSuggestion index =>
      showDropdown st && (index <? List.length (suggestions st))%nat
  | _ => true
  end.

Definition handle (e : Event) (st : State) : State * list Output :=
  match e with
  | TypeValue newValue => (handleInputChange newValue st, [])
  | TimerFires query => search query st
  | KeyDown key => handleKeyDown key st
  | ClickSuggestion index =>
      match suggestions st !! index with
      | Some game => handleGameSelect game st
      | None => (st, [])
      end
  | ClickOutside => (closeDropdown st, [])
  end.

Fixpoint run (es : list Event) (st : State) : State * list Output :=
  match es with
  | [] => (st, [])
  | e :: rest =>
      if enabled st e then
        let '(st1, out1) := handle e st in
        let '(st2, out2) := run rest st1 in
        (st2, out1 ++ out2)
      else run rest st
  end.

(** While the dropdown is shown there are suggestions, and the highlighted
    row is none ([-1]) or one of them. *)
Definition dropdownOk (st : State) : Prop :=
  showDropdown st = true ->
  suggestions st <> []
  /\ -1 <= selectedIndex st < Z.of_nat (List.length (suggestions st)).

End Component.

Arguments value {Suggestion}.
Arguments suggestions {Suggestion}.
Arguments isLoading {Suggestion}.
Arguments showDropdown {Suggestion}.
Arguments selectedIndex {Suggestion}.
Arguments Requested {Suggestion}.
Arguments Selected {Suggestion}.
Arguments Navigated {Suggestion}.
Arguments Searched {Suggestion}.
Arguments Blurred {Suggestion}.

End Autocomplete.

(** ** The screenshot gallery of the game detail page *)

Module Screenshots.

Inductive GalleryKey : Type :=
| KeyEscape | KeyArrowLeft | KeyArrowRight | KeyOther.

Record State : Type := {
  activeScreenshot : Z;
  isScreenshotFullscreen : bool
}.

Definition init : State :=
  {| activeScreenshot := 0; isScreenshotFullscreen := false |}.

Definition setActiveScreenshot (f : Z -> Z) (st : State) : State :=
  {| activeScreenshot := f (activeScreenshot st);
     isScreenshotFullscreen := isScreenshotFullscreen st |}.

Definition setIsScreenshotFullscreen (b : bool) (st : State) : State :=
  {| activeScreenshot := activeScreenshot st; isScreenshotFullscreen := b |}.

(** The [keydown] listener; [totalScreenshots] is [game.screenshots.length].
    The effect installs it anew after every change of [activeScreenshot], so
    the index it reads is taken to be the current one when a key is pressed. *)
Definition handleKeyDown (totalScreenshots : Z) (key : GalleryKey) (st : State)
    : State :=
  match key with
  | KeyEscape => setIsScreenshotFullscreen false st
  | KeyArrowLeft =>
      if 0 <? activeScreenshot st then setActiveScreenshot (fun prev => prev - 1) st
      else st
  | KeyArrowRight =>
      if activeScreenshot st <? totalScreenshots - 1
      then setActiveScreenshot (fun prev => prev + 1) st
      else st
  | KeyOther => st
  end.

Inductive Event : Type :=
| Key (key : GalleryKey)
| ClickPrevious
| ClickNext
| ClickThumbnail (index : Z)
| OpenFullscreen
| CloseFullscreen.

(** Whether [game.screenshots[activeScreenshot]] exists.  The gallery and
    the fullscreen viewer read its [image_id] while rendering: outside the
    screenshots the read is of [undefined] and the render throws; no error
    boundary catches it, and the page is unmounted with its listener. *)
Definition inRange (totalScreenshots : Z) (st : State) : bool :=
  (0 <=? activeScreenshot st) && (activeScreenshot st <? totalScreenshots).

(** The listener is installed and the gallery rendered when the game has
    screenshots, and the render did not throw; the arrows are rendered when
    there is a screenshot on their side; the thumbnails are those of
    [screenshots.slice(0, 10)], when there is more than one screenshot. *)
Definition enabled (totalScreenshots : Z) (st : State) (e : Event) : bool :=
  (0 <? totalScreenshots) && inRange totalScreenshots st
  && match e with
     | Key _ | OpenFullscreen => true
     | ClickPrevious => 0 <? activeScreenshot st
     | ClickNext => activeScreenshot st <? totalScreenshots - 1
     | ClickThumbnail index =>
         (1 <? totalScreenshots) && (0 <=? index)
         && (index <? Z.min totalScreenshots 10)
     | CloseFullscreen => isScreenshotFullscreen st
     end.

Definition handle (totalScreenshots : Z) (e : Event) (st : State) : State :=
  match e with
  | Key key => handleKeyDown totalScreenshots key st
  | ClickPrevious => setActiveScreenshot (fun prev => prev - 1) st
  | ClickNext => setActiveScreenshot (fun prev => prev + 1) st
  | ClickThumbnail index => setActiveScreenshot (fun _ => index) st
  | OpenFullscreen => setIsScreenshotFullscreen true st
  | CloseFullscreen => setIsScreenshotFullscreen false st
  end.

Fixpoint run (totalScreenshots : Z) (es : list Event) (st : State) : State :=
  match es with
  | [] => st
  | e :: rest =>
      run totalScreenshots rest
        (if enabled totalScreenshots st e then handle totalScreenshots e st else st)
  end.

(** What the render of the page does with the screenshots of the game,
    [None] when the game has no [screenshots] array and otherwise its
    length: the gallery is rendered when the array is not empty, the
    fullscreen viewer when it is open and there is an array, and both read
    [game.screenshots[activeScreenshot].image_id]. *)
Definition renders (screenshots : option Z) (st : State) : bool :=
  match screenshots with
  | None => true
  | Some totalScreenshots =>
      if (0 <? totalScreenshots) || isScreenshotFullscreen st
      then inRange totalScreenshots st
      else true
  end.

(** The page: shown in a state, or unmounted after a render that threw. *)
Inductive Page : Type :=
| Shown (st : State)
| Crashed.


End Screenshots.

(** ** The requests of the settings page, in the order they are sent *)

Module SettingsTraffic.

Import Settings.

(** Whether the request [prev] sent just before a test of the credentials
    [bot_token] and [chat_id] is a PUT of settings holding them, both
    non-empty. *)
Definition savedFor (prev : option Request) (bot_token chat_id : JsVal) : bool :=
  match prev with
  | Some (PutSettings body) =>
      bool_decide (get body "telegramBotToken" = bot_token)
      && bool_decide (get body "telegramChatId" = chat_id)
      && truthy bot_token && truthy chat_id
  | _ => false
  end.

(** Every POST to the test endpoint in [sent] comes right after such a PUT;
    [prev] is the request sent before [sent]. *)
Fixpoint testsFollowSaves (prev : option Request) (sent : list Request) : bool :=
  match sent with
  | [] => true
  | r :: rest =>
      match r with
      | PostTelegramTest bot_token chat_id => savedFor prev bot_token chat_id
      | _ => true
      end && testsFollowSaves (Some r) rest
  end.

(** The two switches of the Telegram tab that save at once, with the key
    they write. *)
Inductive Switch : Type :=
| EnableTelegram
| Notification (k : NotifyKey).

Definition switchKey (s : Switch) : string :=
  match s with
  | EnableTelegram => "telegramEnabled"
  | Notification k => notifyName k
  end.

Definition click (s : Switch) (resp : option bool) : Event :=
  match s with
  | EnableTelegram => ClickEnableTelegram resp
  | Notification k => ClickNotification k resp
  end.

End SettingsTraffic.

(** ** Names as the text import submits them *)

Module Names.

(** A string that is empty or starts with a character that is not white
    space. *)
Definition startsClean (s : string) : bool :=
  match s with
  | EmptyString => true
  | String c _ => negb (is_whitespace c)
  end.

(** A name as [parseGameNames] yields it: not empty, within one line, with
    no white space around it. *)
Definition clean (n : string) : Prop :=
  n <> "" /\ oneLine n = true /\ trim n = n.

End Names.

(** ** Requesting a game from its detail page *)

Module RequestFlow.

Import GameDetail.

(** The game of the page, as far as the request reads it: [game.name],
    [game.cover?.image_id] and the names of [game.genres]. *)
Record Game : Type := {
  name : string;
  cover_image_id : option string;
  genres : option (list string)
}.

(** The body of [POST /api/requests/]. *)
Record Post : Type := {
  game_name : string;
  igdb_id : option Z;
  igdb_cover_url : option string;
  igdb_genres : option string;
  comment : string
}.

Record RequestModal : Type := {
  isOpen : bool;
  gameName : string
}.

Record InfoModal : Type := {
  info_isOpen : bool;
  info_title : string;
  info_message : string;
  info_type : string
}.

Record State : Type := {
  gameStatus : option GameStatus;
  requestModal : RequestModal;
  infoModal : InfoModal
}.

Definition closedRequest : RequestModal := {| isOpen := false; gameName := "" |}.

Definition closedInfo : InfoModal :=
  {| info_isOpen := false; info_title := ""; info_message := "";
     info_type := "info" |}.

(** The page once the game was fetched and [checkGameStatus] answered. *)
Definition init (gameStatus : option GameStatus) : State :=
  {| gameStatus := gameStatus; requestModal := closedRequest;
     infoModal := closedInfo |}.

Definition setGameStatus (g : option GameStatus) (st : State) : State :=
  {| gameStatus := g; requestModal := requestModal st; infoModal := infoModal st |}.

Definition setRequestModal (m : RequestModal) (st : State) : State :=
  {| gameStatus := gameStatus st; requestModal := m; infoModal := infoModal st |}.

Definition setInfoModal (m : InfoModal) (st : State) : State :=
  {| gameStatus := gameStatus st; requestModal := requestModal st; infoModal := m |}.

(** [requestData]; [parsedGameId] is [parseInt(gameId)], [None] for [NaN]. *)
Definition requestData (parsedGameId : option Z) (game : Game) : Post :=
  {| game_name := name game;
     igdb_id := parsedGameId;
     igdb_cover_url :=
       match cover_image_id game with
       | Some image_id =>
           if String.eqb image_id "" then None
           else Some ("https://images.igdb.com/igdb/image/upload/t_cover_big/"
                      +:+ image_id +:+ ".webp")
       | None => None
       end;
     igdb_genres :=
       match genres game with
       | Some names =>
           if String.eqb (join ", " names) "" then None
           else Some (join ", " names)
       | None => None
       end;
     comment := "Request for " +:+ name game |}.

Definition handleRequestGame (game : Game) (st : State) : State :=
  setRequestModal {| isOpen := true; gameName := name game |} st.

Definition cancelRequest (st : State) : State := setRequestModal closedRequest st.

(** [confirmRequest]: [resp] is [response.ok] of the POST, [None] when
    [fetch] rejects; [refresh] answers the [checkGameStatus] that follows an
    accepted request. *)
Definition confirmRequest (parsedGameId : option Z) (game : Game)
    (resp : option bool) (refresh : option (bool * GameStatus)) (st : State)
    : State * list Post :=
  (match resp with
   | Some true =>
       setGameStatus (checkGameStatus refresh (gameStatus st))
         (setRequestModal closedRequest st)
   | _ =>
       setInfoModal
         {| info_isOpen := true; info_title := "Error";
            info_message := "Failed to create the request. Please try again.";
            info_type := "error" |} st
   end, [requestData parsedGameId game]).

(** A click on Create request, when the button is rendered and not
    disabled, followed by a click on the confirm button of the modal. *)
Definition request (userLoggedIn : bool) (parsedGameId : option Z) (game : Game)
    (resp : option bool) (refresh : option (bool * GameStatus)) (st : State)
    : State * list Post :=
  let st1 :=
    match availabilityPanel userLoggedIn (gameStatus st) with
    | CreateRequestButton false => handleRequestGame game st
    | _ => st
    end in
  RequestsList.clickConfirm (isOpen (requestModal st1))
    (confirmRequest parsedGameId game resp refresh) cancelRequest st1.

End RequestFlow.

(** * Properties *)

(** ** Request lifecycle on the Requests page *)

Section RequestsFacts.

Import Requests.

Lemma getNextStatus_Some (s t : string) :
  getNextStatus s = Some t <->
  (s = "pending" /\ t = "approved")
  \/ (s = "approved" /\ t = "completed")
  \/ (s = "rejected" /\ t = "approved").
Proof.
  unfold getNextStatus.
  destruct (String.eqb_spec s "pending") as [->|Hp]; simpl.
  { split; [intros [= <-]; auto | intros [[_ ->]|[[[=] _]|[[=] _]]]; reflexivity]. }
  destruct (String.eqb_spec s "approved") as [->|Ha]; simpl.
  { split; [intros [= <-]; auto | intros [[[=] _]|[[_ ->]|[[=] _]]]; reflexivity]. }
  destruct (String.eqb_spec s "rejected") as [->|Hr]; simpl.
  { split; [intros [= <-]; auto | intros [[[=] _]|[[[=] _]|[_ ->]]]; reflexivity]. }
  split; [discriminate | intros [[? _]|[[? _]|[? _]]]; contradiction].
Qed.

(** C2.  [getNextStatus] is the progression graph of the lifecycle: pending
    goes to approved, approved to completed, rejected to approved, and
    completed, like every other value, has no next status. *)
Theorem getNextStatus_transition_graph :
  getNextStatus "pending" = Some "approved"
  /\ getNextStatus "approved" = Some "completed"
  /\ getNextStatus "rejected" = Some "approved"
  /\ getNextStatus "completed" = None
  /\ forall s : string,
       s <> "pending" -> s <> "approved" -> s <> "rejected" ->
       getNextStatus s = None.
Proof.
  repeat split; try reflexivity.
  intros s Hp Ha Hr.
  destruct (getNextStatus s) as [t|] eqn:E; [|reflexivity].
  apply getNextStatus_Some in E.
  destruct E as [[? _]|[[? _]|[? _]]]; contradiction.
Qed.

Lemma getNextStatus_transition_graph_witness :
  "archived" <> "pending" /\ getNextStatus "archived" = None.
Proof.
  split; [discriminate|].
  apply (proj2 (proj2 (proj2 (proj2 getNextStatus_transition_graph))));
    discriminate.
Defined.

Lemma getNextStatus_never_pending (s : string) :
  getNextStatus s <> Some "pending".
Proof.
  intros E. apply getNextStatus_Some in E.
  destruct E as [[_ [=]]|[[_ [=]]|[_ [=]]]].
Qed.

Lemma getNextStatus_targets (s t : string) :
  getNextStatus s = Some t -> t = "approved" \/ t = "completed".
Proof.
  intros E. apply getNextStatus_Some in E.
  destruct E as [[_ ->]|[[_ ->]|[_ ->]]]; auto.
Qed.

End RequestsFacts.

Section RequestsModals.

Import Requests.

Lemma handle_nextModalOk (e : Event) (st : State) :
  nextModalOk st -> nextModalOk (fst (handle e st)).
Proof.
  unfold nextModalOk.
  destruct st as [rs [eo er es] [no nr ns] io]; simpl. intros H.
  destruct e as [r|r|o|ok| |ok| ]; simpl; try exact H.
  - unfold openNextStatusModal.
    destruct (getNextStatus (status r)) as [next|] eqn:E; simpl; [|exact H].
    intros r' [= <-]. exact E.
  - unfold updateRequestStatus; simpl.
    destruct er as [r|]; [|exact H].
    destruct ok as [[|]|]; exact H.
  - unfold confirmNextStatus; simpl.
    destruct nr as [r|]; [|exact H].
    destruct ok as [[|]|]; simpl; try exact H. discriminate.
  - discriminate.
Qed.

Lemma handle_editModalOk (e : Event) (st : State) :
  editModalOk st -> editModalOk (fst (handle e st)).
Proof.
  unfold editModalOk.
  destruct st as [rs [eo er es] [no nr ns] io]; simpl. intros H.
  destruct e as [r|r|o|ok| |ok| ]; simpl; try exact H.
  - unfold openNextStatusModal.
    destruct (getNextStatus (status r)); exact H.
  - intros r' [= <-]. left. reflexivity.
  - intros r' _. right. exists o. reflexivity.
  - unfold updateRequestStatus; simpl.
    destruct er as [r|]; [|exact H].
    destruct ok as [[|]|]; simpl; try exact H. discriminate.
  - discriminate.
  - unfold confirmNextStatus; simpl.
    destruct nr as [r|]; [|exact H].
    destruct ok as [[|]|]; exact H.
Qed.

Lemma run_modals_ok (admin : bool) (es : list Event) (st : State) :
  nextModalOk st -> editModalOk st ->
  nextModalOk (fst (run admin es st)) /\ editModalOk (fst (run admin es st)).
Proof.
  revert st. induction es as [|e es IH]; intros st Hn He; simpl; [auto|].
  destruct (enabled admin st e); [|auto].
  pose proof (handle_nextModalOk e st Hn) as Hn'.
  pose proof (handle_editModalOk e st He) as He'.
  destruct (handle e st) as [st1 sent1]; simpl in *.
  specialize (IH st1 Hn' He').
  destruct (run admin es st1) as [st2 sent2]; simpl in *. exact IH.
Qed.

Lemma init_modals_ok (rs : list Request) :
  nextModalOk (init rs) /\ editModalOk (init rs).
Proof. split; intros r; discriminate. Qed.

(** C3, as the code has it.  In every state the Requests page can reach, the
    status sent by confirming the next-status modal is ['approved'] or
    ['completed'] and never ['pending']; the status sent by saving the edit
    modal is the value of one of its four options (['pending'] among them)
    or the status its request was listed with. *)
Theorem status_changes_sent (admin : bool) (rs : list Request)
    (es : list Event) (ok : option bool) (p : Patch) :
  let st := fst (run admin es (init rs)) in
  (In p (snd (confirmNextStatus ok st)) ->
     patch_status p <> "pending"
     /\ (patch_status p = "approved" \/ patch_status p = "completed"))
  /\ (In p (snd (updateRequestStatus ok st)) ->
        (exists o, patch_status p = option_value o)
        \/ (exists r, edit_request (editModal st) = Some r
                      /\ patch_status p = status r)).
Proof.
  intros st.
  destruct (init_modals_ok rs) as [Hn0 He0].
  destruct (run_modals_ok admin es (init rs) Hn0 He0) as [Hn He].
  fold st in Hn, He. split.
  - unfold confirmNextStatus.
    destruct (next_request (nextStatusModal st)) as [r|] eqn:E; [|intros []].
    specialize (Hn r E).
    assert (Hp : In p [{| patch_id := id r;
                          patch_status := nextStatus (nextStatusModal st) |}] ->
                 patch_status p <> "pending"
                 /\ (patch_status p = "approved" \/ patch_status p = "completed")).
    { intros [<-|[]]; simpl. split.
      - intros Hpend. rewrite Hpend in Hn.
        exact (getNextStatus_never_pending _ Hn).
      - exact (getNextStatus_targets _ _ Hn). }
    destruct ok as [[|]|]; exact Hp.
  - unfold updateRequestStatus.
    destruct (edit_request (editModal st)) as [r|] eqn:E; [|intros []].
    specialize (He r E).
    assert (Hp : In p [{| patch_id := id r;
                          patch_status := newStatus (editModal st) |}] ->
                 (exists o, patch_status p = option_value o)
                 \/ (exists r0, Some r = Some r0 /\ patch_status p = status r0)).
    { intros [<-|[]]; simpl.
      destruct He as [He|He]; [right; exists r; auto | left; exact He]. }
    destruct ok as [[|]|]; exact Hp.
Qed.

Lemma status_changes_sent_witness :
  let r := {| id := 7; game_name := "Hades"; status := "rejected" |} in
  let st := fst (run true [ClickNextStatus r] (init [r])) in
  let p := {| patch_id := 7; patch_status := "approved" |} in
  In p (snd (confirmNextStatus (Some true) st))
  /\ patch_status p <> "pending".
Proof.
  intros r st p.
  assert (H : In p (snd (confirmNextStatus (Some true) st))).
  { vm_compute. left. reflexivity. }
  split; [exact H|].
  exact (proj1 (proj1 (status_changes_sent true [r] [ClickNextStatus r]
                         (Some true) p) H)).
Defined.

(** C3, as stated, fails: an administrator who opens the edit modal on an
    approved request, selects Pending and saves sends ['pending'] to the
    server, and the request is listed as pending afterwards. *)
Lemma edit_modal_sends_pending :
  let r := {| id := 7; game_name := "Hades"; status := "approved" |} in
  let es := [ClickEdit r; SelectStatus OptPending; SaveEdit (Some true)] in
  snd (run true es (init [r])) = [{| patch_id := 7; patch_status := "pending" |}]
  /\ requests (fst (run true es (init [r])))
     = [{| id := 7; game_name := "Hades"; status := "pending" |}]
  /\ ~ (forall (admin : bool) (rs : list Request) (es : list Event) (p : Patch),
          In p (snd (run admin es (init rs))) -> patch_status p <> "pending").
Proof.
  intros r es.
  assert (E : snd (run true es (init [r]))
              = [{| patch_id := 7; patch_status := "pending" |}])
    by (vm_compute; reflexivity).
  split; [exact E|]. split; [vm_compute; reflexivity|].
  intros H.
  apply (H true [r] es {| patch_id := 7; patch_status := "pending" |});
    [rewrite E; left|]; reflexivity.
Qed.

End RequestsModals.

(** ** Strings: trimming, splitting into lines and joining *)

Section StringFacts.

Example trim_sample :
  trim (String (ascii_of_nat 9) "  Elden Ring " +:+ String LF "") = "Elden Ring".
Proof. reflexivity. Qed.

Example split_lines_sample :
  split_lines ("a" +:+ String LF "" +:+ String LF "b") = ["a"; ""; "b"]
  /\ split_lines "" = [""].
Proof. split; reflexivity. Qed.

Example parseGameNames_sample :
  Library.parseGameNames
    ("  The Witcher 3 " +:+ String LF "   " +:+ String LF "Hades")
  = ["The Witcher 3"; "Hades"].
Proof. reflexivity. Qed.

Example join_sample :
  join (String LF "") ["a"; "b"; "c"]
  = "a" +:+ String LF "b" +:+ String LF "c"
  /\ join (String LF "") [] = "".
Proof. split; reflexivity. Qed.

Lemma trimStart_blank (s : string) : trimStart s = "" <-> blank s = true.
Proof.
  induction s as [|c r IH]; simpl; [tauto|].
  destruct (is_whitespace c); simpl; [exact IH|].
  split; discriminate.
Qed.

Lemma trimEnd_blank (s : string) : trimEnd s = "" <-> blank s = true.
Proof.
  induction s as [|c r IH]; simpl; [tauto|].
  destruct (is_whitespace c); simpl.
  - destruct (String.eqb_spec (trimEnd r) "") as [E|E].
    + split; [intros _; apply IH, E | reflexivity].
    + split; [discriminate | intros B; apply IH in B; contradiction].
  - split; discriminate.
Qed.

Lemma blank_trimStart (s : string) : blank (trimStart s) = blank s.
Proof.
  induction s as [|c r IH]; simpl; [reflexivity|].
  destruct (is_whitespace c) eqn:E; simpl; [exact IH|].
  rewrite E. reflexivity.
Qed.

Lemma trim_blank (s : string) : trim s = "" <-> blank s = true.
Proof.
  unfold trim. rewrite trimEnd_blank, blank_trimStart. tauto.
Qed.

Lemma split_lines_not_nil (s : string) : split_lines s <> [].
Proof.
  induction s as [|c r IH]; simpl; [discriminate|].
  destruct (Ascii.eqb c LF); [discriminate|].
  destruct (split_lines r); discriminate.
Qed.

(** A string whose lines are all blank is blank. *)
Lemma blank_lines (s : string) :
  Forall (fun l => blank l = true) (split_lines s) -> blank s = true.
Proof.
  induction s as [|c r IH]; simpl; [reflexivity|].
  destruct (Ascii.eqb_spec c LF) as [->|Hc].
  - intros H. inversion H; subst. simpl. apply IH. assumption.
  - destruct (split_lines r) as [|l ls] eqn:E.
    + intros H. inversion H as [|? ? Hb _]; subst. simpl in Hb.
      apply andb_true_iff in Hb as [-> _]. simpl.
      exfalso. exact (split_lines_not_nil r E).
    + intros H. inversion H as [|? ? Hb Hls]; subst. simpl in Hb.
      apply andb_true_iff in Hb as [-> Hl]. simpl.
      apply IH. constructor; assumption.
Qed.

Lemma length_zero_empty (s : string) :
  (0 <? String.length s)%nat = true <-> s <> "".
Proof.
  destruct s; simpl; split; try discriminate; try reflexivity.
  intros H. contradiction.
Qed.

(** A text that is not blank has at least one game name. *)
Lemma parseGameNames_not_nil (input : string) :
  trim input <> "" -> Library.parseGameNames input <> [].
Proof.
  intros Ht Hnil. apply Ht, trim_blank, blank_lines.
  apply List.Forall_forall. intros l Hl.
  apply trim_blank.
  destruct (string_dec (trim l) "") as [E|E]; [exact E|exfalso].
  unfold Library.parseGameNames in Hnil.
  apply (filter_nil_not_elem_of _ _ (trim l) Hnil).
  - apply length_zero_empty, E.
  - apply list_elem_of_In, List.in_map, Hl.
Qed.

Lemma split_lines_oneLine (s : string) :
  oneLine s = true -> split_lines s = [s].
Proof.
  induction s as [|c r IH]; simpl; [reflexivity|].
  intros H. apply andb_true_iff in H as [Hc Hr].
  apply negb_true_iff in Hc. rewrite Hc, (IH Hr). reflexivity.
Qed.

Lemma split_lines_app (s t : string) :
  oneLine s = true ->
  split_lines (s +:+ String LF t) = s :: split_lines t.
Proof.
  induction s as [|c r IH]; simpl.
  - intros _. reflexivity.
  - intros H. apply andb_true_iff in H as [Hc Hr].
    apply negb_true_iff in Hc. rewrite Hc.
    change (r ++ String LF t)%string with (r +:+ String LF t).
    rewrite (IH Hr). reflexivity.
Qed.

Lemma split_lines_join (names : list string) :
  names <> [] ->
  Forall (fun n => oneLine n = true) names ->
  split_lines (join (String LF EmptyString) names) = names.
Proof.
  induction names as [|n rest IH]; [contradiction|].
  intros _ H. inversion H as [|? ? Hn Hrest]; subst.
  destruct rest as [|m rest'].
  - simpl. apply split_lines_oneLine, Hn.
  - change (join (String LF "") (n :: m :: rest'))
      with (n +:+ String LF "" +:+ join (String LF "") (m :: rest')).
    change (String LF "" +:+ join (String LF "") (m :: rest'))
      with (String LF (join (String LF "") (m :: rest'))).
    rewrite (split_lines_app _ _ Hn), IH; [reflexivity|discriminate|exact Hrest].
Qed.

(** Names that are not empty, hold no line feed and have no white space
    around them come back from the text they were joined into. *)
Lemma parseGameNames_join (names : list string) :
  Forall (fun n => n <> "" /\ oneLine n = true /\ trim n = n) names ->
  Library.parseGameNames (join (String LF EmptyString) names) = names.
Proof.
  intros H. unfold Library.parseGameNames.
  destruct names as [|n rest]; [reflexivity|].
  rewrite split_lines_join; [|discriminate|].
  - induction H as [|x l [Hx [_ Ht]] _ IH]; [reflexivity|].
    simpl. rewrite Ht, filter_cons_True by (apply length_zero_empty, Hx).
    f_equal. apply IH.
  - eapply List.Forall_impl; [|exact H]. simpl. tauto.
Qed.

End StringFacts.

(** ** Bulk import on the Library page *)

Section LibraryFacts.

Import Library.

Lemma handleTextImport_success (api : list string -> Response) (st : State)
    (r : ImportResult) :
  trim (textImportInput st) <> "" ->
  importGamesFromText (api (parseGameNames (textImportInput st))) = inl r ->
  handleTextImport api st
  = setTextImportInput (join (String LF EmptyString) (map name (failed_games r)))
      (setImportStatus Success
         (setImportResults (Some r)
            (setImportProgress 100
               (setImportMessage "Creating completed requests from text input..."
                  (setImportProgress 0 (setImportStatus Loading st)))))).
Proof.
  intros Ht Hr. unfold handleTextImport.
  destruct (String.eqb_spec (trim (textImportInput st)) "") as [E|_];
    [contradiction|].
  pose proof (parseGameNames_not_nil _ Ht) as Hn.
  destruct (parseGameNames (textImportInput st)) as [|n ns] eqn:En;
    [contradiction|].
  simpl. rewrite Hr. reflexivity.
Qed.

(** The import ends in the success state only through a result of the API. *)
Lemma handleTextImport_success_inv (api : list string -> Response) (st : State) :
  importStatus (handleTextImport api st) = Success ->
  exists r,
    importGamesFromText (api (parseGameNames (textImportInput st))) = inl r
    /\ importResults (handleTextImport api st) = Some r.
Proof.
  unfold handleTextImport.
  destruct (String.eqb (trim (textImportInput st)) ""); [discriminate|].
  destruct (List.length (parseGameNames (textImportInput st)) =? 0)%nat;
    [discriminate|].
  destruct (importGamesFromText _) as [r|m]; [|discriminate].
  intros _. exists r. split; reflexivity.
Qed.

(** C4.  For an import result shown on the page, the banner holds the
    all-failure text only when no game was imported; when some game was
    imported it reads that all [total_games] games were imported (the two
    counters being equal) or that [successful_imports] out of [total_games]
    were, and the results panel shows the three counters. *)
Theorem import_banner_partial_success (st : State) (r : ImportResult) :
  importStatus st = Success -> importResults st = Some r ->
  banner st = Some (ResultBanner (bannerText r))
  /\ (String.prefix "Failed to import any games" (bannerText r) = true ->
      successful_imports r = 0%N)
  /\ ((0 < successful_imports r)%N ->
      (successful_imports r = total_games r
       /\ bannerText r
          = "Successfully imported all " +:+ pretty (successful_imports r)
            +:+ " games!")
      \/ (successful_imports r <> total_games r
          /\ bannerText r
             = "Successfully imported " +:+ pretty (successful_imports r)
               +:+ " out of " +:+ pretty (total_games r) +:+ " games!"))
  /\ exists d, details st = Some d
               /\ shownSuccessful d = successful_imports r
               /\ shownFailed d = failed_imports r
               /\ shownTotal d = total_games r.
Proof.
  intros Hs Hr. unfold banner, details, bannerText. rewrite Hs, Hr.
  split; [reflexivity|].
  destruct (N.eqb_spec (successful_imports r) (total_games r)) as [E|E].
  - split; [discriminate|]. split; [|eexists; repeat split].
    intros _. left. rewrite E. auto.
  - destruct (N.ltb_spec 0 (successful_imports r)) as [L|L].
    + split; [discriminate|]. split; [|eexists; repeat split].
      intros _. right. auto.
    + split; [intros _; lia|]. split; [lia|eexists; repeat split].
Qed.

Lemma import_banner_partial_success_witness :
  let r := {| total_games := 3; successful_imports := 1; failed_imports := 2;
              imported_games := [{| original_name := "half life 2";
                                    igdb_name := "Half-Life 2";
                                    genres := Some "Shooter" |}];
              failed_games := [{| name := "Not A Real Game XYZ123";
                                  reason := "No match found" |};
                               {| name := "Half-Life 2";
                                  reason := "Already in library" |}] |} in
  let st := {| importStatus := Success; importProgress := 100;
               importMessage := ""; importResults := Some r;
               importMode := Bulk; textImportInput := "" |} in
  banner st = Some (ResultBanner "Successfully imported 1 out of 3 games!").
Proof.
  intros r st.
  exact (proj1 (import_banner_partial_success st r eq_refl eq_refl)).
Defined.

(** C5.  When the text holds a game name and the import API answers with a
    result, the text input becomes the names of the failed entries of that
    result, one per line and in the order of the result, and nothing else;
    the result is stored and the page is in the success state. *)
Theorem text_import_keeps_failed_names (api : list string -> Response)
    (st : State) (r : ImportResult) :
  trim (textImportInput st) <> "" ->
  importGamesFromText (api (parseGameNames (textImportInput st))) = inl r ->
  textImportInput (handleTextImport api st)
  = join (String LF EmptyString) (map name (failed_games r))
  /\ importStatus (handleTextImport api st) = Success
  /\ importResults (handleTextImport api st) = Some r.
Proof.
  intros Ht Hr. rewrite (handleTextImport_success api st r Ht Hr).
  repeat split.
Qed.

Lemma text_import_keeps_failed_names_witness :
  let r := {| total_games := 3; successful_imports := 1; failed_imports := 2;
              imported_games := [{| original_name := "half life 2";
                                    igdb_name := "Half-Life 2";
                                    genres := Some "Shooter" |}];
              failed_games := [{| name := "Not A Real Game XYZ123";
                                  reason := "No match found" |};
                               {| name := "Half-Life 2";
                                  reason := "Already in library" |}] |} in
  let st := setTextImportInput
              ("half life 2" +:+ String LF "Not A Real Game XYZ123"
               +:+ String LF "Half-Life 2") init in
  textImportInput (handleTextImport (fun _ => HttpOk r) st)
  = "Not A Real Game XYZ123" +:+ String LF "Half-Life 2".
Proof.
  intros r st.
  refine (proj1 (text_import_keeps_failed_names (fun _ => HttpOk r) st r _ _)).
  - vm_compute. discriminate.
  - reflexivity.
Defined.

(** The next import from the text left in the box submits the failed names
    and only them, when these are names as the page submits them. *)
Lemma retry_submits_failed_names (api : list string -> Response) (st : State)
    (r : ImportResult) :
  trim (textImportInput st) <> "" ->
  importGamesFromText (api (parseGameNames (textImportInput st))) = inl r ->
  Forall (fun n => n <> "" /\ oneLine n = true /\ trim n = n)
         (map name (failed_games r)) ->
  parseGameNames (textImportInput (handleTextImport api st))
  = map name (failed_games r).
Proof.
  intros Ht Hr Hc.
  rewrite (handleTextImport_success api st r Ht Hr). simpl.
  apply parseGameNames_join, Hc.
Qed.

End LibraryFacts.

(** ** The import batch *)

Section ImportBatchFacts.

Import ImportOrchestrator.

Variable resolve : string -> Resolution.
Variable ownerId : Z.

Lemma importBatch_cons (n : string) (rest : list string) (store : list Request) :
  importBatch resolve ownerId (n :: rest) store
  = let item := importOne resolve ownerId n store in
    let tail := importBatch resolve ownerId rest (snd item) in
    (match fst item with
     | inl i => {| imported := i :: imported (fst tail); failed := failed (fst tail) |}
     | inr f => {| imported := imported (fst tail); failed := f :: failed (fst tail) |}
     end, snd tail).
Proof.
  simpl. destruct (importOne resolve ownerId n store) as [item store1]. simpl.
  destruct (importBatch resolve ownerId rest store1) as [res store2].
  destruct item; reflexivity.
Qed.

Lemma importOne_name (n : string) (store : list Request) :
  match fst (importOne resolve ownerId n store) with
  | inl i => imp_original_name i = n
  | inr f => failed_name f = n
  end.
Proof.
  unfold importOne. destruct (resolve n) as [e| |]; simpl; try reflexivity.
  destruct (existing ownerId (catalog_id e) store); reflexivity.
Qed.

(** A batch goes on after its first names whatever became of them: the
    entries of a longer batch are those of its first part followed by those
    of the rest, run on the store the first part left. *)
Lemma importBatch_app (l1 l2 : list string) (store : list Request) :
  let first := importBatch resolve ownerId l1 store in
  let second := importBatch resolve ownerId l2 (snd first) in
  importBatch resolve ownerId (l1 ++ l2) store
  = ({| imported := imported (fst first) ++ imported (fst second);
        failed := failed (fst first) ++ failed (fst second) |}, snd second).
Proof.
  revert store. induction l1 as [|n l1 IH]; intros store.
  - simpl. destruct (importBatch resolve ownerId l2 store) as [[i f] s].
    reflexivity.
  - cbv zeta. rewrite <- app_comm_cons, !importBatch_cons. cbv zeta.
    rewrite IH. simpl.
    destruct (fst (importOne resolve ownerId n store)); reflexivity.
Qed.

Lemma importBatch_entries (names : list string) (store : list Request) :
  let res := fst (importBatch resolve ownerId names store) in
  (List.length (imported res) + List.length (failed res))%nat = List.length names
  /\ map imp_original_name (imported res) ++ map failed_name (failed res)
     ≡ₚ names.
Proof.
  revert store. induction names as [|n rest IH]; intros store.
  - simpl. split; reflexivity.
  - cbv zeta. rewrite importBatch_cons. cbv zeta.
    pose proof (importOne_name n store) as Hn.
    destruct (importOne resolve ownerId n store) as [item store1].
    simpl in Hn |- *.
    destruct (IH store1) as [Hlen Hperm].
    destruct item as [i|f]; simpl; rewrite Hn.
    + split; [lia|]. constructor. exact Hperm.
    + split; [lia|].
      rewrite <- Permutation_middle. constructor. exact Hperm.
Qed.

(** C6.  Every submitted name of a batch ends as exactly one entry: the
    imported and the failed entries together are as many as the names, and
    their original names are the submitted names; the names that follow a
    failed item are processed like the others. *)
Theorem importBatch_accounts_for_every_name (names : list string)
    (store : list Request) :
  let res := fst (importBatch resolve ownerId names store) in
  (List.length (imported res) + List.length (failed res))%nat = List.length names
  /\ map imp_original_name (imported res) ++ map failed_name (failed res)
     ≡ₚ names
  /\ forall (before after : list string),
       names = before ++ after ->
       let first := importBatch resolve ownerId before store in
       let second := importBatch resolve ownerId after (snd first) in
       imported res = imported (fst first) ++ imported (fst second)
       /\ failed res = failed (fst first) ++ failed (fst second)
       /\ (List.length (imported (fst second))
           + List.length (failed (fst second)))%nat = List.length after.
Proof.
  intros res. destruct (importBatch_entries names store) as [Hlen Hperm].
  split; [exact Hlen|]. split; [exact Hperm|].
  intros before after -> first second. subst res.
  rewrite importBatch_app. simpl. repeat split.
  apply importBatch_entries.
Qed.

(** The three counters of the answer add up. *)
Lemma summary_adds_up (names : list string) (store : list Request) :
  let '(total, successful, failures) :=
    summary names (fst (importBatch resolve ownerId names store)) in
  (successful + failures = total)%N.
Proof.
  unfold summary.
  destruct (importBatch_entries names store) as [H _].
  cbv zeta in H. lia.
Qed.

End ImportBatchFacts.

Section ImportBatchExample.

Import ImportOrchestrator.

(** The example of the spec: of three names one is imported, one has no
    match and the repeated one is a duplicate, in input order. *)
Example importBatch_half_life :
  let names := ["Half-Life 2"; "Not A Real Game XYZ123"; "Half-Life 2"] in
  let res := fst (importBatch exampleResolve 1 names []) in
  summary names res = (3%N, 1%N, 2%N)
  /\ map imp_original_name (imported res) = ["Half-Life 2"]
  /\ failed res
     = [{| failed_name := "Not A Real Game XYZ123"; failed_reason := "NoMatch" |};
        {| failed_name := "Half-Life 2";
           failed_reason := "already in library/already requested" |}].
Proof. vm_compute. repeat split. Qed.

Lemma importBatch_accounts_for_every_name_witness :
  let names := ["Half-Life 2"; "Not A Real Game XYZ123"; "Half-Life 2"] in
  let res := fst (importBatch exampleResolve 1 names []) in
  let first := importBatch exampleResolve 1 ["Half-Life 2"] [] in
  let second :=
    importBatch exampleResolve 1 ["Not A Real Game XYZ123"; "Half-Life 2"]
      (snd first) in
  (List.length (imported res) + List.length (failed res))%nat = 3%nat
  /\ failed res = failed (fst first) ++ failed (fst second).
Proof.
  intros names res first second.
  pose proof (importBatch_accounts_for_every_name exampleResolve 1 names [])
    as [Hlen [_ Hsplit]].
  split; [exact Hlen|].
  exact (proj1 (proj2 (Hsplit ["Half-Life 2"]
                         ["Not A Real Game XYZ123"; "Half-Life 2"] eq_refl))).
Defined.

End ImportBatchExample.

(** ** The availability panel of the game detail page *)

Section GameDetailFacts.

Import GameDetail.

Lemma statusLabel_cases (s : JsVal) :
  (s = JStr "pending" /\ statusLabel s = "Pending")
  \/ (s = JStr "approved" /\ statusLabel s = "Approved")
  \/ (s = JStr "completed" /\ statusLabel s = "Available")
  \/ (s = JStr "rejected" /\ statusLabel s = "Rejected")
  \/ (s <> JStr "pending" /\ s <> JStr "approved" /\ s <> JStr "completed"
      /\ s <> JStr "rejected" /\ statusLabel s = "Unknown").
Proof.
  unfold statusLabel, strict_eq.
  destruct s as [| |b|z| |t]; try (do 4 right; repeat split; discriminate).
  repeat case_bool_decide; simplify_eq; auto 10.
Qed.

(** C7.  For a status object the panel shows one of four things, decided in
    this order: the Available indicator exactly when [is_available] holds;
    else the Create request button exactly when [can_request] holds; else
    the badge of the user's request exactly when [user_has_request] holds,
    labelled Pending, Approved, Available or Rejected after
    [user_request_status] and Unknown for any other value; else nothing. *)
Theorem availabilityPanel_priority (userLoggedIn : bool) (g : GameStatus) :
  let panel := availabilityPanel userLoggedIn (Some g) in
  (panel = AvailableIndicator <-> truthy (is_available g) = true)
  /\ ((exists d, panel = CreateRequestButton d) <->
      truthy (is_available g) = false /\ truthy (can_request g) = true)
  /\ ((exists l, panel = RequestBadge l) <->
      truthy (is_available g) = false /\ truthy (can_request g) = false
      /\ truthy (user_has_request g) = true)
  /\ (panel = NoPanel <->
      truthy (is_available g) = false /\ truthy (can_request g) = false
      /\ truthy (user_has_request g) = false)
  /\ (forall l, panel = RequestBadge l ->
        l = "Request: " +:+ statusLabel (user_request_status g))
  /\ statusLabel (JStr "pending") = "Pending"
  /\ statusLabel (JStr "approved") = "Approved"
  /\ statusLabel (JStr "completed") = "Available"
  /\ statusLabel (JStr "rejected") = "Rejected"
  /\ (forall s, s <> JStr "pending" -> s <> JStr "approved" ->
                s <> JStr "completed" -> s <> JStr "rejected" ->
                statusLabel s = "Unknown").
Proof.
  intros panel. subst panel. unfold availabilityPanel. simpl.
  assert (Hunknown : forall s, s <> JStr "pending" -> s <> JStr "approved" ->
                       s <> JStr "completed" -> s <> JStr "rejected" ->
                       statusLabel s = "Unknown").
  { intros s H1 H2 H3 H4.
    destruct (statusLabel_cases s)
      as [[? ?]|[[? ?]|[[? ?]|[[? ?]|[_ [_ [_ [_ ?]]]]]]]];
      try contradiction; assumption. }
  destruct (truthy (is_available g)), (truthy (can_request g)),
    (truthy (user_has_request g)).
  all: repeat apply conj; try exact Hunknown; try reflexivity.
  all: try discriminate.
  all: try (intros [? ?]; discriminate).
  all: try (intros [? [? ?]]; discriminate).
  all: try (intros _; eexists; reflexivity).
  all: try (intros _; repeat split; reflexivity).
  all: try (intros ? [= <-]; reflexivity).
  all: try (intros; reflexivity).
Qed.

Lemma availabilityPanel_priority_witness :
  let g := {| is_available := JBool false; can_request := JBool false;
              user_has_request := JBool true;
              user_request_status := JStr "approved" |} in
  availabilityPanel true (Some g) = RequestBadge "Request: Approved".
Proof.
  intros g.
  pose proof (availabilityPanel_priority true g) as [_ [_ [Hb [_ [Hl _]]]]].
  destruct (proj2 Hb (conj eq_refl (conj eq_refl eq_refl))) as [l El].
  rewrite El. f_equal. exact (Hl l El).
Defined.

(** On a status object whose three flags are booleans, "holds" is "is
    [true]". *)
Lemma availabilityPanel_booleans (userLoggedIn a c h : bool) (s : JsVal) :
  availabilityPanel userLoggedIn
    (Some {| is_available := JBool a; can_request := JBool c;
             user_has_request := JBool h; user_request_status := s |})
  = if a then AvailableIndicator
    else if c then CreateRequestButton (negb userLoggedIn)
    else if h then RequestBadge ("Request: " +:+ statusLabel s)
    else NoPanel.
Proof. reflexivity. Qed.

(** Before a status was received nothing is shown, and a failed query
    leaves the panel as it was. *)
Lemma availabilityPanel_no_status (userLoggedIn : bool) :
  availabilityPanel userLoggedIn None = NoPanel.
Proof. reflexivity. Qed.

Lemma checkGameStatus_failed (g : option GameStatus) (body : GameStatus) :
  checkGameStatus None g = g /\ checkGameStatus (Some (false, body)) g = g.
Proof. split; reflexivity. Qed.

End GameDetailFacts.

(** ** Suggestions for the autocomplete *)

Section SuggestionsFacts.

Import Suggestions.

Variable Suggestion : Type.
Variable encodeURIComponent : string -> string.
Variable authFetch : string -> FetchResult Suggestion.

Lemma getGameSuggestions_short (query : string) (limit : Z) :
  (String.length (trim query) < 2)%nat ->
  getGameSuggestions Suggestion encodeURIComponent authFetch query limit
  = {| requested := []; result := Returns [] |}.
Proof.
  intros H. unfold getGameSuggestions.
  apply Nat.ltb_lt in H. rewrite H, orb_true_r. reflexivity.
Qed.

Lemma getGameSuggestions_returns (query : string) (limit : Z) :
  exists v,
    result (getGameSuggestions Suggestion encodeURIComponent authFetch query limit)
    = Returns v.
Proof.
  unfold getGameSuggestions.
  destruct (_ || _); simpl; [eauto|].
  destruct (authFetch _) as [|ok status statusText json]; simpl; [eauto|].
  destruct ok; simpl; [|eauto]. destruct json; eauto.
Qed.

(** C9.  [getGameSuggestions] always settles with a list and never throws.
    For a query whose trimmed length is below 2 it returns the empty list
    and requests nothing; when the request it makes is rejected, or is
    answered with a response that is not OK, it returns the empty list. *)
Theorem getGameSuggestions_total (query : string) (limit : Z) :
  let run := getGameSuggestions Suggestion encodeURIComponent authFetch
               query limit in
  (exists v, result run = Returns v)
  /\ ((String.length (trim query) < 2)%nat ->
      run = {| requested := []; result := Returns [] |})
  /\ (forall url, In url (requested run) ->
        (authFetch url = Rejects
         \/ exists status statusText json,
              authFetch url = Resolves false status statusText json) ->
        result run = Returns []).
Proof.
  intros run. subst run.
  split; [apply getGameSuggestions_returns|].
  split; [apply getGameSuggestions_short|].
  unfold getGameSuggestions.
  destruct (_ || _); simpl; [intros url []|].
  intros url [<-|[]] [E|[status [statusText [json E]]]]; rewrite E; reflexivity.
Qed.

End SuggestionsFacts.

Section SuggestionsExample.

Import Suggestions.

Lemma getGameSuggestions_total_witness :
  getGameSuggestions string (fun s => s) (fun _ => Rejects) " z " 10
  = {| requested := []; result := Returns [] |}
  /\ result (getGameSuggestions string (fun s => s)
               (fun _ => Resolves false 503 "Service Unavailable" None)
               "zelda" 10)
     = Returns [].
Proof.
  split.
  - apply (proj1 (proj2 (getGameSuggestions_total string (fun s => s)
                           (fun _ => Rejects) " z " 10))).
    vm_compute. lia.
  - apply (proj2 (proj2 (getGameSuggestions_total string (fun s => s)
                           (fun _ => Resolves false 503 "Service Unavailable" None)
                           "zelda" 10))
             "/api/import/suggestions?q=zelda&limit=10").
    + vm_compute. left. reflexivity.
    + right. eauto.
Defined.

End SuggestionsExample.

(** ** The notification channel on the Settings page *)

Section SettingsFacts.

Import Settings.

Lemma get_insert_eq (m : gmap string JsVal) (k : string) (v : JsVal) :
  get (<[k := v]> m) k = v.
Proof. unfold get. rewrite lookup_insert_eq. reflexivity. Qed.

Lemma get_insert_ne (m : gmap string JsVal) (k k' : string) (v : JsVal) :
  k <> k' -> get (<[k := v]> m) k' = get m k'.
Proof. intros H. unfold get. rewrite lookup_insert_ne by exact H. reflexivity. Qed.

(** [handleSettingChange] on a key that is not a credential only writes
    that key. *)
Lemma handleSettingChange_other (key : string) (value : JsVal) (st : State) :
  key <> "telegramBotToken" -> key <> "telegramChatId" ->
  handleSettingChange key value st
  = setSettings (fun prev => <[key := value]> prev) st.
Proof.
  intros Hb Hc. unfold handleSettingChange.
  apply String.eqb_neq in Hb, Hc. rewrite Hb, Hc. reflexivity.
Qed.

(** [handleSettingChange] on a credential. *)
Lemma handleSettingChange_credential (key : string) (value : JsVal) (st : State) :
  key = "telegramBotToken" \/ key = "telegramChatId" ->
  telegramTestSuccess (handleSettingChange key value st) = false
  /\ settings (handleSettingChange key value st)
     = (if channelEnabled st
        then <["telegramEnabled" := JBool false]> (<[key := value]> (settings st))
        else <[key := value]> (settings st))
  /\ channelEnabled (handleSettingChange key value st) = false
  /\ get (settings (handleSettingChange key value st)) key = value
  /\ activeTab (handleSettingChange key value st) = activeTab st
  /\ loading (handleSettingChange key value st) = loading st.
Proof.
  intros Hk. unfold handleSettingChange, channelEnabled.
  assert (Hc : String.eqb key "telegramBotToken" || String.eqb key "telegramChatId"
               = true) by (destruct Hk as [-> | ->]; reflexivity).
  assert (Hne : key <> "telegramEnabled") by (destruct Hk as [-> | ->]; discriminate).
  rewrite Hc.
  destruct (truthy (get (settings st) "telegramEnabled")) eqn:E; simpl.
  - repeat split.
    + f_equal. apply insert_insert_eq.
    + rewrite get_insert_eq. reflexivity.
    + rewrite get_insert_ne by congruence. apply get_insert_eq.
  - repeat split.
    + rewrite get_insert_ne by exact Hne. exact E.
    + apply get_insert_eq.
Qed.

Ltac keys :=
  repeat first [rewrite get_insert_eq | rewrite get_insert_ne by discriminate].

Ltac other_key :=
  cbn [handle fst];
  rewrite handleSettingChange_other by discriminate;
  unfold channelEnabled, credentials; cbn [setSettings settings telegramTestSuccess];
  keys.

(** What an event does to the test flag, to the enabled flag and to the
    credentials. *)
Lemma handle_telegramTestSuccess (e : Event) (st : State) :
  telegramTestSuccess (fst (handle e st))
  = match e with
    | TypeBotToken _ | TypeChatId _ => false
    | ClickTest save test =>
        if truthy (get (settings st) "telegramBotToken")
           && truthy (get (settings st) "telegramChatId")
        then delivered save test st
        else telegramTestSuccess st
    | _ => telegramTestSuccess st
    end.
Proof.
  destruct e as [t|v|k|s|s|v|save test|resp|k resp|resp| ];
    [reflexivity| | | | | | | | | |reflexivity]; cbn [handle fst].
  - other_key. reflexivity.
  - destruct k; other_key; reflexivity.
  - apply handleSettingChange_credential. auto.
  - apply handleSettingChange_credential. auto.
  - other_key. reflexivity.
  - unfold testTelegramConnection, delivered.
    destruct (truthy (get (settings st) "telegramBotToken")),
      (truthy (get (settings st) "telegramChatId")); simpl; try reflexivity.
    destruct save as [[|]|]; simpl; try reflexivity.
    destruct test as [|ok [data|]]; simpl; try reflexivity.
    + destruct ok; simpl; [|reflexivity].
      destruct (strict_eq (get data "success") (JBool true)); reflexivity.
    + destruct ok; reflexivity.
  - destruct resp as [[|]|]; reflexivity.
  - destruct resp as [[|]|]; reflexivity.
  - destruct resp as [[|]|]; reflexivity.
Qed.

Lemma handle_credentials (e : Event) (st : State) :
  credentials (fst (handle e st))
  = match e with
    | TypeBotToken s => (JStr s, snd (credentials st))
    | TypeChatId s => (fst (credentials st), JStr s)
    | _ => credentials st
    end.
Proof.
  destruct e as [t|v|k|s|s|v|save test|resp|k resp|resp| ];
    [reflexivity| | | | | | | | | |reflexivity]; cbn [handle fst].
  - other_key. reflexivity.
  - destruct k; other_key; reflexivity.
  - destruct (handleSettingChange_credential "telegramBotToken" (JStr s) st)
      as [_ [E _]]; [auto|].
    unfold credentials. rewrite E.
    destruct (channelEnabled st); keys; reflexivity.
  - destruct (handleSettingChange_credential "telegramChatId" (JStr s) st)
      as [_ [E _]]; [auto|].
    unfold credentials. rewrite E.
    destruct (channelEnabled st); keys; reflexivity.
  - other_key. reflexivity.
  - unfold testTelegramConnection.
    destruct (negb _ || negb _); [reflexivity|].
    destruct save as [[|]|]; try reflexivity.
    destruct test as [|ok [data|]]; try reflexivity.
    destruct (ok && _); reflexivity.
  - destruct resp as [[|]|]; unfold credentials; simpl; keys; reflexivity.
  - destruct k, resp as [[|]|]; unfold credentials; simpl; keys; reflexivity.
  - destruct resp as [[|]|]; reflexivity.
Qed.

Lemma handle_channelEnabled (e : Event) (st : State) :
  channelEnabled (fst (handle e st))
  = match e with
    | TypeBotToken _ | TypeChatId _ => false
    | ClickEnableTelegram (Some false) => channelEnabled st
    | ClickEnableTelegram _ => negb (channelEnabled st)
    | _ => channelEnabled st
    end.
Proof.
  destruct e as [t|v|k|s|s|v|save test|resp|k resp|resp| ];
    [reflexivity| | | | | | | | | |reflexivity]; cbn [handle fst].
  - other_key. reflexivity.
  - destruct k; other_key; reflexivity.
  - apply handleSettingChange_credential. auto.
  - apply handleSettingChange_credential. auto.
  - other_key. reflexivity.
  - unfold testTelegramConnection.
    destruct (negb _ || negb _); [reflexivity|].
    destruct save as [[|]|]; try reflexivity.
    destruct test as [|ok [data|]]; try reflexivity.
    destruct (ok && _); reflexivity.
  - destruct resp as [[|]|]; unfold channelEnabled; simpl; keys; simpl;
      rewrite ?negb_involutive; reflexivity.
  - destruct k, resp as [[|]|]; unfold channelEnabled; simpl; keys;
      reflexivity.
  - destruct resp as [[|]|]; reflexivity.
Qed.

Lemma delivered_inv (save : option bool) (test : Fetched) (st : State) :
  delivered save test st = true ->
  save = Some true
  /\ exists data, test = Responded true (Some data)
                  /\ get data "success" = JBool true.
Proof.
  unfold delivered. intros H.
  apply andb_true_iff in H as [_ H].
  destruct save as [[|]|]; try discriminate.
  destruct test as [|[|] [data|]]; try discriminate.
  split; [reflexivity|]. exists data. split; [reflexivity|].
  unfold strict_eq in H.
  destruct (get data "success"); try discriminate.
  apply bool_decide_eq_true in H. exact H.
Qed.

Lemma mounted_telegramTestSuccess (f : Fetched) :
  telegramTestSuccess (mounted f) = false.
Proof. destruct f as [|[|] [data|]]; reflexivity. Qed.

Lemma validated_mounted (f : Fetched) : validated (mounted f) (stored f).
Proof.
  split.
  - rewrite mounted_telegramTestSuccess. discriminate.
  - intros H. unfold stored. rewrite H. reflexivity.
Qed.

(** Every operation of the page keeps the invariant. *)
Lemma handle_validated (e : Event) (st : State) (tested : option (JsVal * JsVal)) :
  enabled st e = true ->
  validated st tested ->
  validated (fst (handle e st)) (track e st tested).
Proof.
  intros He [Hts Hen]. unfold validated.
  rewrite handle_telegramTestSuccess, handle_channelEnabled, handle_credentials.
  destruct e as [t|v|k|s|s|v|save test|resp|k resp|resp| ];
    cbn [track]; try (split; assumption); try (split; discriminate).
  - (* the connection test *)
    unfold delivered.
    destruct (truthy (get (settings st) "telegramBotToken")
              && truthy (get (settings st) "telegramChatId")); cbn [andb].
    + destruct (match save with Some true => _ | _ => false end);
        [split; reflexivity|split; [discriminate|assumption]].
    + split; assumption.
  - (* the Enable Telegram switch *)
    cbn [enabled] in He. apply andb_true_iff in He as [_ He].
    apply negb_true_iff in He. unfold toggleDisabled in He.
    apply orb_false_iff in He as [He _].
    fold (channelEnabled st) in He.
    split; [assumption|].
    destruct resp as [[|]|]; try assumption.
    + destruct (channelEnabled st); [discriminate|].
      destruct (telegramTestSuccess st); [auto|discriminate].
    + destruct (channelEnabled st); [discriminate|].
      destruct (telegramTestSuccess st); [auto|discriminate].
Qed.

Lemma run_validated (es : list Event) (st : State)
    (tested : option (JsVal * JsVal)) :
  validated st tested ->
  validated (fst (fst (run es st tested))) (snd (fst (run es st tested))).
Proof.
  revert st tested. induction es as [|e es IH]; intros st tested H; [exact H|].
  cbn [run]. destruct (enabled st e) eqn:He; [|apply IH, H].
  pose proof (handle_validated e st tested He H) as H1.
  destruct (handle e st) as [st1 sent1]. cbn [fst] in H1.
  specialize (IH st1 (track e st tested) H1).
  destruct (run es st1 (track e st tested)) as [[st2 tested2] sent2].
  exact IH.
Qed.

(** The test flag rises only in a delivered test, and the channel goes from
    disabled to enabled only through the switch, with the test flag up. *)
Lemma handle_raises_testSuccess (e : Event) (st : State) :
  telegramTestSuccess st = false ->
  telegramTestSuccess (fst (handle e st)) = true ->
  exists save test, e = ClickTest save test /\ delivered save test st = true.
Proof.
  intros H0. rewrite handle_telegramTestSuccess.
  destruct e as [t|v|k|s|s|v|save test|resp|k resp|resp| ]; try congruence.
  destruct (_ && _); [|congruence].
  intros H. exists save, test. split; [reflexivity|exact H].
Qed.

Lemma handle_enables_channel (e : Event) (st : State) :
  enabled st e = true ->
  channelEnabled st = false ->
  channelEnabled (fst (handle e st)) = true ->
  telegramTestSuccess st = true /\ exists resp, e = ClickEnableTelegram resp.
Proof.
  intros He H0. rewrite handle_channelEnabled.
  destruct e as [t|v|k|s|s|v|save test|resp|k resp|resp| ]; try congruence.
  intros _. split; [|eauto].
  cbn [enabled] in He. apply andb_true_iff in He as [_ He].
  apply negb_true_iff in He. unfold toggleDisabled in He.
  apply orb_false_iff in He as [He _].
  fold (channelEnabled st) in He. rewrite H0 in He.
  destruct (telegramTestSuccess st); [reflexivity|discriminate].
Qed.

Lemma run_history (es : list Event) (st : State)
    (tested : option (JsVal * JsVal)) :
  let final := fst (fst (run es st tested)) in
  (telegramTestSuccess final = true ->
   telegramTestSuccess st = true \/ deliveredIn es st = true)
  /\ (channelEnabled final = true ->
      channelEnabled st = true \/ telegramTestSuccess st = true
      \/ deliveredIn es st = true).
Proof.
  revert st tested. induction es as [|e es IH]; intros st tested.
  - cbn. auto.
  - cbn [run deliveredIn]. destruct (enabled st e) eqn:He; [|apply IH].
    specialize (IH (fst (handle e st)) (track e st tested)).
    destruct (handle e st) as [st1 sent1] eqn:Eh. cbn [fst] in IH |- *.
    destruct (run es st1 (track e st tested)) as [[st2 tested2] sent2].
    cbn [fst] in IH |- *. destruct IH as [IHts IHen].
    assert (Hts1 : telegramTestSuccess st1 = true ->
                   telegramTestSuccess st = true
                   \/ match e with
                      | ClickTest save test => delivered save test st
                      | _ => false
                      end = true).
    { intros H1. destruct (telegramTestSuccess st) eqn:E0; [auto|right].
      destruct (handle_raises_testSuccess e st E0) as [save [test [-> Hd]]];
        [rewrite Eh; exact H1|exact Hd]. }
    assert (Hen1 : channelEnabled st1 = true ->
                   channelEnabled st = true \/ telegramTestSuccess st = true).
    { intros H1. destruct (channelEnabled st) eqn:E0; [auto|right].
      apply (handle_enables_channel e st He E0). rewrite Eh. exact H1. }
    split.
    + intros H. destruct (IHts H) as [H1|H1].
      * destruct (Hts1 H1) as [H2|H2]; [auto|right; rewrite H2; reflexivity].
      * right. rewrite H1. apply orb_true_r.
    + intros H. destruct (IHen H) as [H1|[H1|H1]].
      * destruct (Hen1 H1) as [H2|H2]; auto.
      * destruct (Hts1 H1) as [H2|H2]; [auto|].
        right; right. rewrite H2. reflexivity.
      * right; right. rewrite H1. apply orb_true_r.
Qed.

(** A PUT of the settings carries an enabled channel only from a state in
    which the channel was enabled or the test flag was up. *)
Lemma handle_sends_enabled (e : Event) (st : State) (body : gmap string JsVal) :
  enabled st e = true ->
  In (PutSettings body) (snd (handle e st)) ->
  truthy (get body "telegramEnabled") = true ->
  channelEnabled st = true \/ telegramTestSuccess st = true.
Proof.
  intros He Hin Hb.
  destruct e as [t|v|k|s|s|v|save test|resp|k resp|resp| ];
    cbn [handle snd] in Hin; try (destruct Hin; fail).
  - unfold testTelegramConnection in Hin.
    destruct (negb _ || negb _); [destruct Hin|].
    destruct save as [[|]|];
      [destruct test as [|ok [data|]]; [|destruct (ok && _)|]|..];
      cbn [snd In] in Hin;
      (destruct Hin as [[= <-]|Hin];
       [left; exact Hb|try destruct Hin as [[=]|Hin]; destruct Hin]).
  - cbn [enabled] in He. apply andb_true_iff in He as [_ He].
    apply negb_true_iff in He. unfold toggleDisabled in He.
    apply orb_false_iff in He as [He _].
    fold (channelEnabled st) in He.
    destruct (channelEnabled st); [auto|].
    destruct (telegramTestSuccess st); [auto|discriminate].
  - unfold handleTelegramNotificationToggle in Hin. cbn [snd] in Hin.
    destruct Hin as [[= <-]|[]]. left. unfold channelEnabled.
    destruct k; cbn [notifyName] in Hb;
      rewrite get_insert_ne in Hb by discriminate; exact Hb.
  - unfold handleSave in Hin. cbn [snd] in Hin.
    destruct Hin as [[= <-]|[]]. left. exact Hb.
Qed.

(** C1.  The Enable Telegram switch is disabled whenever the test flag is
    down and the channel is not enabled.  The test flag is raised only by a
    click on the test button whose save was accepted and whose test request
    was answered OK with a body in which [success] is [true].  Hence, in
    any state the page reaches from its first render, a raised test flag
    comes with a delivered test earlier in the session, an enabled channel
    was enabled in the stored settings or comes with such a test, and a PUT
    that carries an enabled channel is sent only from such a state. *)
Theorem telegram_enable_requires_delivered_test :
  (forall st : State,
     telegramTestSuccess st = false -> channelEnabled st = false ->
     toggleDisabled st = true
     /\ forall resp, enabled st (ClickEnableTelegram resp) = false)
  /\ (forall (e : Event) (st : State),
        telegramTestSuccess st = false ->
        telegramTestSuccess (fst (handle e st)) = true ->
        exists data,
          e = ClickTest (Some true) (Responded true (Some data))
          /\ get data "success" = JBool true)
  /\ (forall (f : Fetched) (es : list Event),
        let final := fst (fst (run es (mounted f) (stored f))) in
        (telegramTestSuccess final = true -> deliveredIn es (mounted f) = true)
        /\ (channelEnabled final = true ->
            channelEnabled (mounted f) = true
            \/ deliveredIn es (mounted f) = true))
  /\ (forall (e : Event) (st : State) (body : gmap string JsVal),
        enabled st e = true ->
        In (PutSettings body) (snd (handle e st)) ->
        truthy (get body "telegramEnabled") = true ->
        channelEnabled st = true \/ telegramTestSuccess st = true).
Proof.
  split; [|split; [|split]].
  - intros st Hts Hen.
    assert (Hd : toggleDisabled st = true).
    { unfold toggleDisabled. fold (channelEnabled st).
      rewrite Hts, Hen. reflexivity. }
    split; [exact Hd|]. intros resp. cbn [enabled].
    rewrite Hd. apply andb_false_r.
  - intros e st H0 H1.
    destruct (handle_raises_testSuccess e st H0 H1) as [save [test [-> Hd]]].
    destruct (delivered_inv save test st Hd) as [-> [data [-> Hs]]].
    exists data. split; [reflexivity|exact Hs].
  - intros f es final.
    destruct (run_history es (mounted f) (stored f)) as [Hts Hen].
    fold final in Hts, Hen.
    rewrite mounted_telegramTestSuccess in Hts, Hen. split.
    + intros H. destruct (Hts H) as [?|?]; [discriminate|assumption].
    + intros H. destruct (Hen H) as [?|[?|?]]; [auto|discriminate|auto].
  - apply handle_sends_enabled.
Qed.

(** A change of the bot token or of the chat id through
    [handleSettingChange] lowers the test flag and, when the channel was
    enabled, sets it to disabled.  As long as every handler runs to
    completion before the next one starts, every operation of the page
    keeps the invariant that an enabled channel (like a raised test flag)
    goes with credentials that are those of the last delivered test and
    were not edited since; the invariant holds after the first render, with
    the stored credentials of a channel stored enabled taken as tested.
    [SettingsAsync] has the page with a test that is pending. *)
Theorem credential_edit_revokes_validation :
  (forall (key : string) (value : JsVal) (st : State),
     key = "telegramBotToken" \/ key = "telegramChatId" ->
     let st' := handleSettingChange key value st in
     telegramTestSuccess st' = false
     /\ (channelEnabled st = true ->
         get (settings st') "telegramEnabled" = JBool false)
     /\ channelEnabled st' = false
     /\ get (settings st') key = value)
  /\ (forall f : Fetched, validated (mounted f) (stored f))
  /\ (forall (e : Event) (st : State) (tested : option (JsVal * JsVal)),
        enabled st e = true ->
        validated st tested ->
        validated (fst (handle e st)) (track e st tested))
  /\ (forall (f : Fetched) (es : list Event),
        let final := fst (fst (run es (mounted f) (stored f))) in
        let tested := snd (fst (run es (mounted f) (stored f))) in
        channelEnabled final = true -> tested = Some (credentials final)).
Proof.
  split; [|split; [|split]].
  - intros key value st Hk st'.
    destruct (handleSettingChange_credential key value st Hk)
      as [Hts [Hs [Hen [Hv _]]]].
    repeat split; try assumption.
    intros H. subst st'. rewrite Hs, H. apply get_insert_eq.
  - apply validated_mounted.
  - apply handle_validated.
  - intros f es final tested.
    apply (run_validated es (mounted f) (stored f) (validated_mounted f)).
Qed.

Lemma telegram_enable_requires_delivered_test_witness :
  let answer := Responded true (Some {[ "success" := JBool true ]}) in
  let es := [SelectTab Telegram; TypeBotToken "123456:ABC"; TypeChatId "-1001";
             ClickTest (Some true) answer; ClickEnableTelegram (Some true)] in
  let final := fst (fst (run es (mounted Rejected) (stored Rejected))) in
  toggleDisabled init = true
  /\ channelEnabled final = true
  /\ deliveredIn es (mounted Rejected) = true.
Proof.
  intros answer es final.
  destruct telegram_enable_requires_delivered_test as [Hswitch [_ [Hrun _]]].
  split; [exact (proj1 (Hswitch init eq_refl eq_refl))|].
  assert (Hen : channelEnabled final = true) by (vm_compute; reflexivity).
  split; [exact Hen|].
  destruct (proj2 (Hrun Rejected es) Hen) as [H|H]; [|exact H].
  vm_compute in H. discriminate H.
Defined.

Lemma credential_edit_revokes_validation_witness :
  let answer := Responded true (Some {[ "success" := JBool true ]}) in
  let es := [SelectTab Telegram; TypeBotToken "123456:ABC"; TypeChatId "-1001";
             ClickTest (Some true) answer; ClickEnableTelegram (Some true)] in
  let final := fst (fst (run es (mounted Rejected) (stored Rejected))) in
  let tested := snd (fst (run es (mounted Rejected) (stored Rejected))) in
  let edited := handleSettingChange "telegramBotToken" (JStr "654321:XYZ") final in
  tested = Some (JStr "123456:ABC", JStr "-1001")
  /\ telegramTestSuccess edited = false
  /\ channelEnabled edited = false.
Proof.
  intros answer es final tested edited.
  destruct credential_edit_revokes_validation as [Hedit [_ [_ Hrun]]].
  split.
  - assert (Hen : channelEnabled final = true) by (vm_compute; reflexivity).
    unfold tested. rewrite (Hrun Rejected es Hen). vm_compute. reflexivity.
  - destruct (Hedit "telegramBotToken" (JStr "654321:XYZ") final
                (or_introl eq_refl)) as [Hts [_ [Hen _]]].
    split; [exact Hts|exact Hen].
Defined.

End SettingsFacts.

(** ** The administrator pages and other users *)

Section SettingsAsyncFacts.

Import Settings SettingsAsync.

(** The three parts of [testTelegramConnection], with nothing in between,
    are the handler run to completion. *)
Lemma testAtOnce_complete (save : option bool) (test : Fetched) (st : State) :
  testAtOnce save test st = testTelegramConnection save test st.
Proof.
  unfold testAtOnce, testBegins, testTelegramConnection.
  destruct (negb (truthy (get (settings st) "telegramBotToken"))
            || negb (truthy (get (settings st) "telegramChatId")));
    [reflexivity|].
  destruct save as [[|]|]; [|reflexivity|reflexivity].
  cbn [testSaved app]. unfold testAnswered, caught.
  destruct test as [|ok [data|]]; [reflexivity| |reflexivity].
  destruct (ok && strict_eq (get data "success") (JBool true)); reflexivity.
Qed.

(** Steps that are events with handlers run to completion do on the form
    what [Settings.run] does. *)
Lemma run_events (es : list Event) (p : Page) (tested : option (JsVal * JsVal)) :
  Forall (fun e => match e with ClickTest _ _ => False | _ => True end) es ->
  let '(q, tested', sent, _) := SettingsAsync.run (map User es) p tested in
  (form q, tested', sent) = Settings.run es (form p) tested
  /\ pending q = pending p.
Proof.
  intros Hall. revert p tested.
  induction Hall as [|e es He _ IH]; intros p tested; [split; reflexivity|].
  cbn [map SettingsAsync.run Settings.run].
  assert (Hen : stepEnabled p (User e) = enabled (form p) e)
    by (destruct e; solve [reflexivity | contradiction]).
  rewrite Hen. destruct (enabled (form p) e).
  - cbn [step]. destruct (handle e (form p)) as [st1 sent1].
    assert (Htr : trackStep (User e) p tested = track e (form p) tested)
      by (destruct e; solve [reflexivity | contradiction]).
    rewrite Htr.
    specialize (IH {| form := st1; pending := pending p |}
                  (track e (form p) tested)).
    destruct (SettingsAsync.run (map User es) _ _) as [[[q tested2] sent2] k].
    cbn [form pending] in IH. destruct IH as [IH Hp].
    rewrite <- IH. split; [reflexivity|exact Hp].
  - specialize (IH p tested).
    destruct (SettingsAsync.run (map User es) p tested) as [[[q tested2] sent2] k].
    exact IH.
Qed.

(** C8.  The bot token edited while the test of the previous token is
    pending: the keystroke lowers the test flag, and the answer to the test
    raises it again, over the edit.  Every step of [editDuringTest] is
    taken; the only test sent was for ["A-token"], the form ends with the
    channel enabled on ["B-token"], and the last PUT stores the enabled
    channel with that token, which no test has seen: an enabled channel
    does not imply credentials that are the tested ones. *)
Theorem credential_edit_during_test_enables_untested :
  let outcome := SettingsAsync.run editDuringTest (start (mounted Rejected))
                   (stored Rejected) in
  let page := fst (fst (fst outcome)) in
  let tested := snd (fst (fst outcome)) in
  let sent := snd (fst outcome) in
  snd outcome = 0%nat
  /\ pending page = NoTest
  /\ telegramTestSuccess (form page) = true
  /\ channelEnabled (form page) = true
  /\ credentials (form page) = (JStr "B-token", JStr "C")
  /\ tested = Some (JStr "A-token", JStr "C")
  /\ ~ validated (form page) tested
  /\ match sent with
     | [PutSettings saved; PostTelegramTest bot_token chat_id; PutSettings enabling] =>
         get saved "telegramBotToken" = JStr "A-token"
         /\ bot_token = JStr "A-token" /\ chat_id = JStr "C"
         /\ get enabling "telegramBotToken" = JStr "B-token"
         /\ get enabling "telegramEnabled" = JBool true
     | _ => False
     end.
Proof.
  intros outcome page tested sent.
  assert (Hen : channelEnabled (form page) = true) by (vm_compute; reflexivity).
  assert (Ht : tested = Some (JStr "A-token", JStr "C"))
    by (vm_compute; reflexivity).
  assert (Hc : credentials (form page) = (JStr "B-token", JStr "C"))
    by (vm_compute; reflexivity).
  split; [vm_compute; reflexivity|]. split; [vm_compute; reflexivity|].
  split; [vm_compute; reflexivity|]. split; [exact Hen|].
  split; [exact Hc|]. split; [exact Ht|]. split.
  - intros [_ H]. specialize (H Hen). rewrite Ht, Hc in H. discriminate H.
  - vm_compute. repeat split.
Qed.

End SettingsAsyncFacts.

Section PagesFacts.

Import Pages.

Lemma isAdmin_role (u : User) : isAdmin (Some u) = false <-> role u <> "admin".
Proof. unfold isAdmin. apply String.eqb_neq. Qed.

(** In a render for an authenticated user whose
    role is not ['admin'] both pages return a redirect to ['/'] and none of
    their controls, so that no import handler and no settings handler can
    be invoked; the Library page runs no effect, and the only calls that the
    Settings page still makes are those of its effects, [loadSettings()]
    after the first render (and [loadLogs()], were the logs tab active). *)
Theorem admin_pages_redirect_other_users (u : User) (ls : Library.State)
    (ss : Settings.State) :
  role u <> "admin" ->
  renderLibrary (Some u) ls = {| element := Navigate "/" true; effects := [] |}
  /\ operations (renderLibrary (Some u) ls) = []
  /\ element (renderSettings (Some u) ss) = Navigate "/" true
  /\ invocable (element (renderSettings (Some u) ss)) = []
  /\ (forall op, In op (operations (renderSettings (Some u) ss)) ->
        op = ByEffect CallLoadSettings \/ op = ByEffect CallLoadLogs)
  /\ operations (renderSettings (Some u) Settings.init)
     = [ByEffect CallLoadSettings].
Proof.
  intros Hr. apply isAdmin_role in Hr.
  unfold renderLibrary, renderSettings, operations. cbn [element effects].
  rewrite Hr. cbn. repeat split.
  intros op. destruct (Settings.activeTab ss); cbn; intuition.
Qed.

Lemma admin_pages_redirect_other_users_witness :
  let u := {| username := "bob"; role := "user" |} in
  renderLibrary (Some u) Library.init
  = {| element := Navigate "/" true; effects := [] |}
  /\ element (renderSettings (Some u) Settings.init) = Navigate "/" true.
Proof.
  intros u.
  assert (Hr : role u <> "admin") by discriminate.
  destruct (admin_pages_redirect_other_users u Library.init Settings.init Hr)
    as [Hl [_ [Hs _]]].
  split; [exact Hl|exact Hs].
Defined.

(** C10.  The Settings page rendered for a user who is not an
    administrator returns the redirect, and its mount effect, declared
    above the guard, calls [loadSettings()] all the same, which sends the
    GET of the settings whatever the answer: a settings operation is
    invoked.  The sibling pages do not: [fetchUsers] of the Users page
    returns before its requests, and the Library page has no effect. *)
Lemma settings_redirect_still_loads :
  let u := {| username := "bob"; role := "user" |} in
  role u <> "admin"
  /\ element (renderSettings (Some u) Settings.init) = Navigate "/" true
  /\ operations (renderSettings (Some u) Settings.init)
     = [ByEffect CallLoadSettings]
  /\ (forall f : Settings.Fetched,
        snd (Settings.loadSettings f Settings.init) = [Settings.GetSettings])
  /\ fetchUsers (Some u) = []
  /\ operations (renderLibrary (Some u) Library.init) = []
  /\ ~ (forall (v : User) (ss : Settings.State),
          role v <> "admin" -> operations (renderSettings (Some v) ss) = []).
Proof.
  intros u. split; [discriminate|]. repeat split.
  intros H. specialize (H u Settings.init). discriminate H. discriminate.
Qed.

End PagesFacts.

(** * Further properties of the code around the claims *)

(** ** The base URL and the requests built on it *)

Section ConfigFacts.

Import Config.

Lemma isLocalhostValue_present (v : option string) :
  isLocalhostValue v = true -> present v = true.
Proof.
  destruct v as [s|]; simpl; [|discriminate].
  destruct (String.eqb s ""); [discriminate|reflexivity].
Qed.

(** X1.  A runtime value that is set and not a localhost address is the
    base URL whatever the build says; in production mode the base URL is
    never a localhost address, and it is empty (same origin) unless such a
    value is configured at run time or at build time. *)
Theorem getApiBaseUrl_production (runtimeValue buildTimeValue : option string)
    (mode : string) :
  (present runtimeValue = true -> isLocalhostValue runtimeValue = false ->
   getApiBaseUrl runtimeValue buildTimeValue mode = default "" runtimeValue)
  /\ isLocalhostValue (Some (getApiBaseUrl runtimeValue buildTimeValue "production"))
     = false
  /\ (getApiBaseUrl runtimeValue buildTimeValue "production" = ""
      \/ (Some (getApiBaseUrl runtimeValue buildTimeValue "production")
          = runtimeValue)
      \/ (Some (getApiBaseUrl runtimeValue buildTimeValue "production")
          = buildTimeValue)).
Proof.
  split; [|split].
  - intros Hp Hl. unfold getApiBaseUrl. rewrite Hp, Hl. reflexivity.
  - unfold getApiBaseUrl.
    destruct (present runtimeValue && negb (isLocalhostValue runtimeValue)) eqn:Er.
    + apply andb_true_iff in Er as [Hp Hl]. apply negb_true_iff in Hl.
      destruct runtimeValue as [r|]; [exact Hl|discriminate].
    + destruct (present buildTimeValue && negb (isLocalhostValue buildTimeValue))
        eqn:Eb; [|reflexivity].
      apply andb_true_iff in Eb as [Hp Hl]. apply negb_true_iff in Hl.
      destruct buildTimeValue as [b|]; [exact Hl|discriminate].
  - unfold getApiBaseUrl.
    destruct (present runtimeValue && negb (isLocalhostValue runtimeValue)) eqn:Er.
    + apply andb_true_iff in Er as [Hp _].
      destruct runtimeValue as [r|]; [auto|discriminate].
    + destruct (present buildTimeValue && negb (isLocalhostValue buildTimeValue))
        eqn:Eb; [|auto].
      apply andb_true_iff in Eb as [Hp _].
      destruct buildTimeValue as [b|]; [auto|discriminate].
Qed.

Lemma getApiBaseUrl_production_witness :
  getApiBaseUrl (Some "https://games.example.org") (Some "http://localhost:8000")
    "development"
  = "https://games.example.org".
Proof.
  apply (proj1 (getApiBaseUrl_production (Some "https://games.example.org")
                  (Some "http://localhost:8000") "development"));
    reflexivity.
Defined.

Example getApiBaseUrl_samples :
  getApiBaseUrl (Some "http://LocalHost:8000") None "production" = ""
  /\ getApiBaseUrl None None "development" = "http://127.0.0.1:8000"
  /\ getApiBaseUrl None (Some "http://localhost:9000") "development"
     = "http://localhost:9000"
  /\ getRuntimeValue None = None
  /\ getRuntimeValue (Some (Some {[ "VITE_API_BASE_URL" := "https://x.io" ]}))
     = Some "https://x.io".
Proof. repeat split; vm_compute; reflexivity. Qed.

End ConfigFacts.

Section AuthFacts.

Import Auth.

Lemma append_cons (a : ascii) (s t : string) :
  String a s +:+ t = String a (s +:+ t).
Proof. reflexivity. Qed.

Lemma append_nil (t : string) : "" +:+ t = t.
Proof. reflexivity. Qed.

Lemma length_append (s t : string) :
  String.length (s +:+ t) = (String.length s + String.length t)%nat.
Proof.
  induction s as [|a s IH]; [reflexivity|].
  rewrite append_cons. simpl. rewrite IH. reflexivity.
Qed.

Lemma startsWith_http_path (base : string) :
  startsWith "http" (base +:+ "/api/import/text") = startsWith "http" base.
Proof.
  destruct base as [|a [|b [|c [|d r]]]];
    rewrite ?append_cons, ?append_nil; cbn -[Ascii.eqb];
    repeat match goal with
           | |- context [Ascii.eqb ?x ?y] =>
               destruct (Ascii.eqb x y) eqn:?; try discriminate; cbn [andb]
           end; try reflexivity.
Qed.

(** X2.  [importGamesFromText] requests [API_BASE + '/api/import/text']
    exactly when the base URL is empty or starts with ['http']; with any
    other base [authFetch] prefixes the base a second time. *)
Theorem importCall_url (API_BASE : string) (localStorage : gmap string string)
    (json : string) :
  let url := call_url (importCall API_BASE localStorage json) in
  (API_BASE = "" \/ startsWith "http" API_BASE = true ->
   url = API_BASE +:+ "/api/import/text")
  /\ (API_BASE <> "" -> startsWith "http" API_BASE = false ->
      url = API_BASE +:+ API_BASE +:+ "/api/import/text"
      /\ url <> API_BASE +:+ "/api/import/text").
Proof.
  cbv zeta. unfold importCall, authFetch. cbn [call_url].
  rewrite startsWith_http_path. split.
  - intros [-> | ->]; reflexivity.
  - intros Hne Hs. rewrite Hs. split; [reflexivity|].
    intros E. apply Hne.
    assert (L : String.length (API_BASE +:+ API_BASE +:+ "/api/import/text")
                = String.length (API_BASE +:+ "/api/import/text"))
      by (rewrite E; reflexivity).
    rewrite !length_append in L.
    destruct API_BASE; [reflexivity|simpl in L; lia].
Qed.

Lemma importCall_url_witness :
  call_url (importCall "http://127.0.0.1:8000" ∅ "{}")
  = "http://127.0.0.1:8000/api/import/text"
  /\ call_url (importCall "/backend" ∅ "{}") = "/backend/backend/api/import/text".
Proof.
  split.
  - apply (proj1 (importCall_url "http://127.0.0.1:8000" ∅ "{}")).
    right. reflexivity.
  - apply (proj2 (importCall_url "/backend" ∅ "{}")); [discriminate|reflexivity].
Defined.

(** X3.  The headers of a call made by [authFetch]: every header the
    caller passes is sent as passed; the content type defaults to JSON; and
    unless the caller passes an [Authorization] header, the call carries
    [Bearer <token>] when a token that is not empty is stored and no
    [Authorization] header otherwise. *)
Theorem authFetch_headers (API_BASE_URL : string)
    (localStorage : gmap string string) (url : string) (options : Options) :
  let sent := call_headers (authFetch API_BASE_URL localStorage url options) in
  let given := default ∅ (headers options) in
  (forall k v, given !! k = Some v -> sent !! k = Some v)
  /\ (given !! "Content-Type" = None ->
      sent !! "Content-Type" = Some "application/json")
  /\ (given !! "Authorization" = None ->
      sent !! "Authorization"
      = match localStorage !! "token" with
        | Some t => if String.eqb t "" then None else Some ("Bearer " +:+ t)
        | None => None
        end)
  /\ (forall k, k <> "Content-Type" -> k <> "Authorization" ->
                sent !! k = given !! k).
Proof.
  cbv zeta. unfold authFetch, defaultHeaders, getItem. cbn [call_headers].
  set (given := default ∅ (headers options)).
  split; [|split; [|split]].
  - intros k v H. apply lookup_union_Some_l. exact H.
  - intros H. rewrite lookup_union_r by exact H.
    destruct (present (localStorage !! "token")).
    + rewrite lookup_insert_ne by discriminate. apply lookup_singleton_eq.
    + apply lookup_singleton_eq.
  - intros H. rewrite lookup_union_r by exact H.
    destruct (localStorage !! "token") as [t|]; simpl.
    + destruct (String.eqb t ""); simpl.
      * apply lookup_singleton_ne. discriminate.
      * apply lookup_insert_eq.
    + apply lookup_singleton_ne. discriminate.
  - intros k Hc Ha.
    destruct (given !! k) as [v|] eqn:E.
    + apply lookup_union_Some_l. exact E.
    + rewrite lookup_union_r by exact E.
      destruct (present (localStorage !! "token")).
      * rewrite lookup_insert_ne by congruence.
        apply lookup_singleton_ne. congruence.
      * apply lookup_singleton_ne. congruence.
Qed.

Lemma authFetch_headers_witness :
  call_headers
    (authFetch "" {[ "token" := "abc" ]} "/api/auth/profile" noOptions)
  !! "Authorization" = Some "Bearer abc".
Proof.
  pose proof (proj1 (proj2 (proj2 (authFetch_headers "" {[ "token" := "abc" ]}
                                     "/api/auth/profile" noOptions)))) as H.
  cbv zeta in H. rewrite H; [vm_compute; reflexivity|reflexivity].
Defined.

Section Session.

Variable User : Type.
Variable stringify : User -> string.
Variable parse : string -> option User.

(** X4.  Storing a session and reading it back: after [storeAuthData] the
    session counts as authenticated exactly when the token is not empty,
    and the stored user is read back when [JSON.parse] inverts
    [JSON.stringify] on it; after [logout] the session is not authenticated,
    no user is stored, a call of [authFetch] without headers of its own
    carries no [Authorization] header, and every other key of the storage
    is as before. *)
Theorem session_round_trip (token : string) (user : User)
    (localStorage : gmap string string) :
  let stored := storeAuthData User stringify token user localStorage in
  isAuthenticated stored = negb (String.eqb token "")
  /\ (stringify user <> "" -> parse (stringify user) = Some user ->
      getStoredUser User parse stored = StoredUser user)
  /\ isAuthenticated (logout stored) = false
  /\ getStoredUser User parse (logout stored) = NoUser
  /\ (forall base url,
        call_headers (authFetch base (logout stored) url noOptions)
        !! "Authorization" = None)
  /\ (forall k, k <> "token" -> k <> "user" ->
                logout stored !! k = localStorage !! k).
Proof.
  cbv zeta.
  unfold storeAuthData, logout, isAuthenticated, getStoredUser, getItem,
    setItem, removeItem.
  split; [|split; [|split; [|split; [|split]]]].
  - rewrite lookup_insert_ne by discriminate. rewrite lookup_insert_eq.
    reflexivity.
  - intros Hne Hp. rewrite lookup_insert_eq.
    apply String.eqb_neq in Hne. rewrite Hne, Hp. reflexivity.
  - rewrite lookup_delete_ne by discriminate. rewrite lookup_delete_eq.
    reflexivity.
  - rewrite lookup_delete_eq. reflexivity.
  - intros base url. unfold authFetch, defaultHeaders, getItem.
    cbn [call_headers headers noOptions default].
    rewrite lookup_delete_ne by discriminate. rewrite lookup_delete_eq.
    cbn [present]. rewrite (left_id_L ∅ (∪)).
    apply lookup_singleton_ne. discriminate.
  - intros k Ht Hu.
    rewrite lookup_delete_ne by congruence.
    rewrite lookup_delete_ne by congruence.
    rewrite lookup_insert_ne by congruence.
    apply lookup_insert_ne. congruence.
Qed.

End Session.

End AuthFacts.

Section SessionExample.

Import Auth.

Lemma session_round_trip_witness :
  getStoredUser string (fun s => Some s)
    (storeAuthData string (fun u => u) "abc" "alice" ∅)
  = StoredUser "alice".
Proof.
  apply (proj1 (proj2 (session_round_trip string (fun u => u) (fun s => Some s)
                         "abc" "alice" ∅))).
  - discriminate.
  - reflexivity.
Defined.

End SessionExample.

(** ** Sorting with a comparison function *)

Section SortFacts.

Import RequestsList.

Context {A : Type}.
Variable cmp : A -> A -> Z.

Lemma insertSorted_perm (x : A) (l : list A) : insertSorted cmp x l ≡ₚ x :: l.
Proof.
  induction l as [|y rest IH]; simpl; [reflexivity|].
  destruct (0 <? cmp x y); [|reflexivity].
  rewrite IH. apply Permutation_swap.
Qed.

Lemma sortWith_perm (l : list A) : sortWith cmp l ≡ₚ l.
Proof.
  induction l as [|x l IH]; simpl; [reflexivity|].
  rewrite insertSorted_perm. constructor. exact IH.
Qed.

Hypothesis cmp_total : forall x y, 0 < cmp x y -> cmp y x <= 0.
Hypothesis cmp_trans :
  forall x y z, cmp x y <= 0 -> cmp y z <= 0 -> cmp x z <= 0.

Lemma insertSorted_sorted (x : A) (l : list A) :
  StronglySorted (fun a b => cmp a b <= 0) l ->
  StronglySorted (fun a b => cmp a b <= 0) (insertSorted cmp x l).
Proof.
  induction l as [|y rest IH]; intros H; simpl.
  - repeat constructor.
  - inversion H as [|? ? Hrest Hall]; subst.
    destruct (Z.ltb_spec 0 (cmp x y)) as [Hgt|Hle].
    + constructor; [apply IH, Hrest|].
      rewrite insertSorted_perm. constructor; [apply cmp_total, Hgt|exact Hall].
    + constructor; [exact H|].
      constructor; [exact Hle|].
      eapply List.Forall_impl; [|exact Hall].
      intros z Hz. exact (cmp_trans x y z Hle Hz).
Qed.

Lemma sortWith_sorted (l : list A) :
  StronglySorted (fun a b => cmp a b <= 0) (sortWith cmp l).
Proof.
  induction l as [|x l IH]; simpl; [constructor|].
  apply insertSorted_sorted, IH.
Qed.

End SortFacts.

Section OrderFacts.

Import RequestsList.

Lemma string_compare_refl (s : string) : String.compare s s = Eq.
Proof.
  induction s as [|a s IH]; [reflexivity|]. simpl.
  unfold Ascii.compare. rewrite N.compare_refl. exact IH.
Qed.

Lemma string_compare_lt_trans (a b c : string) :
  String.compare a b = Lt -> String.compare b c = Lt -> String.compare a c = Lt.
Proof.
  revert b c. induction a as [|x a IH]; intros [|y b] [|z c]; simpl;
    try discriminate; try reflexivity.
  unfold Ascii.compare.
  destruct (N.compare_spec (N_of_ascii x) (N_of_ascii y)) as [Exy|Lxy|Gxy];
    try discriminate;
    destruct (N.compare_spec (N_of_ascii y) (N_of_ascii z)) as [Eyz|Lyz|Gyz];
    try discriminate; intros H1 H2.
  - rewrite Exy, Eyz, N.compare_refl. exact (IH b c H1 H2).
  - rewrite Exy. apply N.compare_lt_iff in Lyz. rewrite Lyz. reflexivity.
  - rewrite <- Eyz. apply N.compare_lt_iff in Lxy. rewrite Lxy. reflexivity.
  - assert (L : (N_of_ascii x < N_of_ascii z)%N) by lia.
    apply N.compare_lt_iff in L. rewrite L. reflexivity.
Qed.

Lemma string_ltb_asym (a b : string) :
  String.ltb a b = true -> String.ltb b a = false.
Proof.
  unfold String.ltb. rewrite (String.compare_antisym b a).
  destruct (String.compare a b); simpl; congruence.
Qed.

Lemma string_ltb_negtrans (a b c : string) :
  String.ltb a c = true -> String.ltb a b = true \/ String.ltb b c = true.
Proof.
  unfold String.ltb. intros H.
  destruct (String.compare a c) eqn:Eac; try discriminate.
  destruct (String.compare a b) eqn:Eab; [|auto|].
  - apply String.compare_eq_iff in Eab. subst b. rewrite Eac. auto.
  - right. rewrite (String.compare_antisym a b) in Eab.
    assert (Eba : String.compare b a = Lt)
      by (destruct (String.compare b a); simpl in Eab; congruence).
    rewrite (string_compare_lt_trans b a c Eba Eac). reflexivity.
Qed.

(** What the comparison function says on two keys compared with a strict
    order that is asymmetric. *)
Lemma ordered_le (lt gt asc : bool) :
  (lt = true -> gt = false) ->
  ordered lt gt asc <= 0 <-> (if asc then gt else lt) = false.
Proof.
  unfold ordered. intros H.
  destruct lt, gt, asc; simpl; try (specialize (H eq_refl); discriminate);
    split; intros; try reflexivity; try discriminate; lia.
Qed.

Section KeyOrder.

Context {K : Type}.
Variable ltb : K -> K -> bool.
Variable key : Requests.Request -> K.
Variable asc : bool.

Hypothesis ltb_asym : forall a b, ltb a b = true -> ltb b a = false.
Hypothesis ltb_negtrans :
  forall a b c, ltb a c = true -> ltb a b = true \/ ltb b c = true.

Let byKey (a b : Requests.Request) : Z :=
  ordered (ltb (key a) (key b)) (ltb (key b) (key a)) asc.

Lemma byKey_le (a b : Requests.Request) :
  byKey a b <= 0
  <-> (if asc then ltb (key b) (key a) else ltb (key a) (key b)) = false.
Proof. apply ordered_le, ltb_asym. Qed.

Lemma byKey_total (a b : Requests.Request) : 0 < byKey a b -> byKey b a <= 0.
Proof.
  intros H. apply byKey_le.
  destruct (if asc then ltb (key a) (key b) else ltb (key b) (key a)) eqn:E;
    [|reflexivity].
  exfalso. assert (Hle : byKey a b <= 0); [|lia].
  apply byKey_le. destruct asc; apply ltb_asym, E.
Qed.

Lemma byKey_trans (a b c : Requests.Request) :
  byKey a b <= 0 -> byKey b c <= 0 -> byKey a c <= 0.
Proof.
  rewrite !byKey_le. destruct asc; intros H1 H2.
  - destruct (ltb (key c) (key a)) eqn:E; [|reflexivity].
    destruct (ltb_negtrans _ (key b) _ E); congruence.
  - destruct (ltb (key a) (key c)) eqn:E; [|reflexivity].
    destruct (ltb_negtrans _ (key b) _ E); congruence.
Qed.

End KeyOrder.

Lemma Z_ltb_asym (a b : Z) : (a <? b) = true -> (b <? a) = false.
Proof. lia. Qed.

Lemma Z_ltb_negtrans (a b c : Z) :
  (a <? c) = true -> (a <? b) = true \/ (b <? c) = true.
Proof. destruct (Z.ltb_spec a b); [auto|right; lia]. Qed.

Variable timeValue : Requests.Request -> Z.

Lemma compareRequests_total (sortBy sortOrder : string) (a b : Requests.Request) :
  0 < compareRequests timeValue sortBy sortOrder a b ->
  compareRequests timeValue sortBy sortOrder b a <= 0.
Proof.
  unfold compareRequests.
  destruct (String.eqb sortBy "created_at");
    [apply (byKey_total Z.ltb timeValue _ Z_ltb_asym)|].
  destruct (String.eqb sortBy "game_name");
    [apply (byKey_total String.ltb (fun r => toLowerCase (Requests.game_name r))
              _ string_ltb_asym)|].
  destruct (String.eqb sortBy "status");
    [apply (byKey_total String.ltb Requests.status _ string_ltb_asym)|].
  lia.
Qed.

Lemma compareRequests_trans (sortBy sortOrder : string)
    (a b c : Requests.Request) :
  compareRequests timeValue sortBy sortOrder a b <= 0 ->
  compareRequests timeValue sortBy sortOrder b c <= 0 ->
  compareRequests timeValue sortBy sortOrder a c <= 0.
Proof.
  unfold compareRequests.
  destruct (String.eqb sortBy "created_at");
    [apply (byKey_trans Z.ltb timeValue _ Z_ltb_asym Z_ltb_negtrans)|].
  destruct (String.eqb sortBy "game_name");
    [apply (byKey_trans String.ltb (fun r => toLowerCase (Requests.game_name r))
              _ string_ltb_asym string_ltb_negtrans)|].
  destruct (String.eqb sortBy "status");
    [apply (byKey_trans String.ltb Requests.status _ string_ltb_asym
              string_ltb_negtrans)|].
  lia.
Qed.

Lemma StronglySorted_weaken {A : Type} (R R' : A -> A -> Prop) (l : list A) :
  (forall a b, R a b -> R' a b) -> StronglySorted R l -> StronglySorted R' l.
Proof.
  intros H HS. induction HS as [|x l HS IH Hall]; constructor; [exact IH|].
  eapply List.Forall_impl; [|exact Hall]. intros b. apply H.
Qed.

Lemma sortWith_constant (l : list Requests.Request) :
  sortWith (fun _ _ => 0) l = l.
Proof. induction l as [|x l IH]; simpl; [|rewrite IH; destruct l]; reflexivity. Qed.

Lemma filteredRequests_In (filterStatus : string) (rs : list Requests.Request)
    (r : Requests.Request) :
  In r (filteredRequests filterStatus rs)
  <-> In r rs /\ (filterStatus = "all" \/ Requests.status r = filterStatus).
Proof.
  unfold filteredRequests. rewrite List.filter_In, orb_true_iff.
  rewrite !String.eqb_eq. reflexivity.
Qed.

(** X5.  The cards shown on the Requests page are the loaded requests that
    pass the status filter, each once and no other; they are in the order of
    the comparison function (no card stands before one that compares lower),
    which for the first view, by date and descending, is newest first; and
    with a sort key that is none of the three the filtered list keeps the
    order in which it was loaded. *)
Theorem sortedRequests_view (filterStatus sortBy sortOrder : string)
    (rs : list Requests.Request) :
  let shown := sortedRequests timeValue filterStatus sortBy sortOrder rs in
  shown ≡ₚ filteredRequests filterStatus rs
  /\ (forall r, In r shown
                <-> In r rs /\ (filterStatus = "all"
                                \/ Requests.status r = filterStatus))
  /\ StronglySorted
       (fun a b => compareRequests timeValue sortBy sortOrder a b <= 0) shown
  /\ (sortBy = "created_at" -> sortOrder = "desc" ->
      StronglySorted (fun a b => timeValue b <= timeValue a) shown)
  /\ (sortBy <> "created_at" -> sortBy <> "game_name" -> sortBy <> "status" ->
      shown = filteredRequests filterStatus rs).
Proof.
  intros shown. subst shown. unfold sortedRequests.
  assert (Hs : StronglySorted
                 (fun a b => compareRequests timeValue sortBy sortOrder a b <= 0)
                 (sortWith (compareRequests timeValue sortBy sortOrder)
                    (filteredRequests filterStatus rs))).
  { apply sortWith_sorted.
    - apply compareRequests_total.
    - apply compareRequests_trans. }
  split; [apply sortWith_perm|].
  split; [|split; [exact Hs|split]].
  - intros r. rewrite <- filteredRequests_In.
    split; apply Permutation_in;
      [|symmetry]; apply sortWith_perm.
  - intros -> ->. eapply StronglySorted_weaken; [|exact Hs].
    intros a b. unfold compareRequests. cbn [String.eqb]. simpl.
    unfold ordered.
    destruct (Z.ltb_spec (timeValue a) (timeValue b));
      destruct (Z.ltb_spec (timeValue b) (timeValue a)); lia.
  - intros H1 H2 H3.
    apply String.eqb_neq in H1, H2, H3.
    replace (compareRequests timeValue sortBy sortOrder)
      with (fun _ _ : Requests.Request => 0).
    + apply sortWith_constant.
    + unfold compareRequests. rewrite H1, H2, H3. reflexivity.
Qed.

End OrderFacts.

Section SortFilter.

Import RequestsList.

Context {A : Type}.
Variable cmp : A -> A -> Z.
Variable keep : A -> bool.

Hypothesis cmp_trans :
  forall x y z, cmp x y <= 0 -> cmp y z <= 0 -> cmp x z <= 0.

Lemma insertSorted_first (x : A) (l : list A) :
  Forall (fun z => cmp x z <= 0) l -> insertSorted cmp x l = x :: l.
Proof.
  destruct l as [|y rest]; [reflexivity|].
  intros H. inversion H as [|? ? Hy _]; subst. simpl.
  destruct (Z.ltb_spec 0 (cmp x y)); [lia|reflexivity].
Qed.

Lemma filter_insertSorted (x : A) (l : list A) :
  StronglySorted (fun a b => cmp a b <= 0) l ->
  List.filter keep (insertSorted cmp x l)
  = if keep x then insertSorted cmp x (List.filter keep l)
    else List.filter keep l.
Proof.
  induction l as [|y rest IH]; intros H.
  - simpl. destruct (keep x); reflexivity.
  - inversion H as [|? ? Hrest Hall]; subst. specialize (IH Hrest).
    simpl. destruct (Z.ltb_spec 0 (cmp x y)) as [Hgt|Hle].
    + simpl. rewrite IH.
      destruct (keep y), (keep x); try reflexivity.
      simpl. destruct (Z.ltb_spec 0 (cmp x y)); [reflexivity|lia].
    + simpl. destruct (keep x) eqn:Ex; [|reflexivity].
      symmetry. apply (insertSorted_first x (List.filter keep (y :: rest))).
      apply List.Forall_forall. intros z Hz.
      apply List.filter_In in Hz as [Hz _].
      destruct Hz as [<-|Hz]; [exact Hle|].
      apply (cmp_trans x y z Hle).
      rewrite List.Forall_forall in Hall. apply Hall, Hz.
Qed.

Hypothesis cmp_total : forall x y, 0 < cmp x y -> cmp y x <= 0.

Lemma sortWith_filter (l : list A) :
  sortWith cmp (List.filter keep l) = List.filter keep (sortWith cmp l).
Proof.
  induction l as [|x l IH]; [reflexivity|].
  simpl. rewrite filter_insertSorted
    by (apply sortWith_sorted; assumption).
  destruct (keep x); simpl; rewrite IH; reflexivity.
Qed.

End SortFilter.

Section RequestsListFacts.

Import Requests RequestsList.

Variable timeValue : Request -> Z.

Lemma filter_comm {A : Type} (f g : A -> bool) (l : list A) :
  List.filter f (List.filter g l) = List.filter g (List.filter f l).
Proof.
  induction l as [|x l IH]; [reflexivity|]. simpl.
  destruct (g x) eqn:Eg, (f x) eqn:Ef; simpl; rewrite ?Eg, ?Ef, IH; reflexivity.
Qed.

(** X6.  After a delete that the server accepted, the cards shown are the
    cards shown before without those of the deleted request, in the same
    order, and no card of that request is left; when the delete is refused
    or the request fails, the list is unchanged and the error is shown. *)
Theorem confirmDelete_view (filterStatus sortBy sortOrder : string)
    (requestId : Z) (rs : list Request) :
  let view := sortedRequests timeValue filterStatus sortBy sortOrder in
  view (fst (confirmDelete (Some true) requestId rs))
  = List.filter (fun req => negb (bool_decide (id req = requestId))) (view rs)
  /\ (forall r, In r (fst (confirmDelete (Some true) requestId rs))
                <-> In r rs /\ id r <> requestId)
  /\ confirmDelete (Some false) requestId rs = (rs, true)
  /\ confirmDelete None requestId rs = (rs, true).
Proof.
  cbv zeta. split; [|split; [|split; reflexivity]].
  - unfold sortedRequests, confirmDelete, filteredRequests. cbn [fst].
    rewrite filter_comm. apply sortWith_filter.
    + apply compareRequests_trans.
    + apply compareRequests_total.
  - intros r. cbn [confirmDelete fst]. rewrite List.filter_In.
    rewrite negb_true_iff, bool_decide_eq_false. reflexivity.
Qed.

Lemma countStatus_perm (s : string) (l l' : list Request) :
  l ≡ₚ l' -> countStatus s l = countStatus s l'.
Proof.
  unfold countStatus. intros H.
  induction H as [|x l l' _ IH|x y l|l l' l'' _ IH1 _ IH2]; simpl.
  - reflexivity.
  - destruct (String.eqb (status x) s); simpl; rewrite IH; reflexivity.
  - destruct (String.eqb (status x) s), (String.eqb (status y) s); reflexivity.
  - congruence.
Qed.

Lemma countStatus_filtered (s filterStatus : string) (rs : list Request) :
  countStatus s (filteredRequests filterStatus rs)
  = if String.eqb filterStatus "all" || String.eqb filterStatus s
    then countStatus s rs else 0%nat.
Proof.
  unfold countStatus, filteredRequests.
  induction rs as [|x rs IH]; simpl;
    [destruct (_ || _); reflexivity|].
  destruct (String.eqb filterStatus "all") eqn:Ea; simpl in *.
  - destruct (String.eqb (status x) s) eqn:Ec; simpl; rewrite IH; reflexivity.
  - destruct (String.eqb_spec (status x) filterStatus) as [E|E]; simpl.
    + rewrite E. destruct (String.eqb filterStatus s) eqn:Ed; simpl;
        rewrite IH; reflexivity.
    + destruct (String.eqb_spec filterStatus s) as [E'|E']; [|exact IH].
      subst s. apply String.eqb_neq in E. rewrite E. exact IH.
Qed.

Lemma four_counters (l : list Request) :
  (countStatus "pending" l + countStatus "approved" l
   + countStatus "rejected" l + countStatus "completed" l <= List.length l)%nat.
Proof.
  unfold countStatus. induction l as [|x l IH]; simpl; [lia|].
  destruct (String.eqb_spec (status x) "pending") as [E|_];
    [rewrite E; simpl; lia|].
  destruct (String.eqb_spec (status x) "approved") as [E|_];
    [rewrite E; simpl; lia|].
  destruct (String.eqb_spec (status x) "rejected") as [E|_];
    [rewrite E; simpl; lia|].
  destruct (String.eqb (status x) "completed"); simpl; lia.
Qed.

Lemma filteredRequests_length (filterStatus : string) (rs : list Request) :
  (List.length (filteredRequests filterStatus rs) <= List.length rs)%nat.
Proof.
  unfold filteredRequests. induction rs as [|x rs IH]; simpl; [lia|].
  destruct (_ || _); simpl; lia.
Qed.

(** X7.  The Statistics box: Total counts every loaded request, the four
    status counters count the cards shown.  Their sum never exceeds Total;
    without a filter each counter is the number of loaded requests of its
    status; with a status filter the counter of that status is unchanged
    and the counters of all other statuses are 0. *)
Theorem statistics_counters (filterStatus sortBy sortOrder : string)
    (rs : list Request) :
  let shown := sortedRequests timeValue filterStatus sortBy sortOrder rs in
  let box := statistics rs shown in
  statTotal box = List.length rs
  /\ (statPending box + statApproved box + statRejected box
      + statAvailable box <= statTotal box)%nat
  /\ (forall s, filterStatus = "all" \/ filterStatus = s ->
                countStatus s shown = countStatus s rs)
  /\ (forall s, filterStatus <> "all" -> filterStatus <> s ->
                countStatus s shown = 0%nat).
Proof.
  cbv zeta.
  assert (Hc : forall s,
             countStatus s (sortedRequests timeValue filterStatus sortBy
                              sortOrder rs)
             = countStatus s (filteredRequests filterStatus rs)).
  { intros s. apply countStatus_perm, sortWith_perm. }
  split; [reflexivity|]. split; [|split].
  - unfold statistics. cbn. rewrite !Hc.
    pose proof (four_counters (filteredRequests filterStatus rs)).
    pose proof (filteredRequests_length filterStatus rs). lia.
  - intros s H. rewrite Hc, countStatus_filtered.
    destruct H as [-> | ->]; [reflexivity|].
    rewrite String.eqb_refl, orb_true_r. reflexivity.
  - intros s Ha Hs. rewrite Hc, countStatus_filtered.
    apply String.eqb_neq in Ha, Hs. rewrite Ha, Hs. reflexivity.
Qed.

End RequestsListFacts.

(** ** Moving a request along the lifecycle from the page *)

Section AdvanceFacts.

Import Requests RequestsList.

Lemma set_status_In (r : Request) (s : string) (rs : list Request) :
  In r rs -> In (withStatus s r) (set_status (id r) s rs).
Proof.
  intros H. unfold set_status. apply List.in_map_iff. exists r.
  split; [|exact H]. rewrite bool_decide_eq_true_2 by reflexivity. reflexivity.
Qed.

Lemma set_status_shape (rid : Z) (s : string) (rs : list Request) :
  map id (set_status rid s rs) = map id rs
  /\ map game_name (set_status rid s rs) = map game_name rs
  /\ (forall q, In q rs -> id q <> rid -> In q (set_status rid s rs))
  /\ (forall q, In q (set_status rid s rs) -> id q = rid -> status q = s).
Proof.
  unfold set_status. repeat split.
  - induction rs as [|x rs IH]; [reflexivity|]. simpl. rewrite IH.
    destruct (bool_decide (id x = rid)); reflexivity.
  - induction rs as [|x rs IH]; [reflexivity|]. simpl. rewrite IH.
    destruct (bool_decide (id x = rid)); reflexivity.
  - intros q Hq Hne. apply List.in_map_iff. exists q. split; [|exact Hq].
    rewrite bool_decide_eq_false_2 by exact Hne. reflexivity.
  - intros q Hq Heq. apply List.in_map_iff in Hq as [x [Hx _]].
    destruct (bool_decide (id x = rid)) eqn:E.
    + subst q. reflexivity.
    + subst q. apply bool_decide_eq_false in E. contradiction.
Qed.

Lemma advance_step (r : Request) (ok : option bool) (st : State) (next : string) :
  In r (requests st) ->
  getNextStatus (status r) = Some next ->
  advance true r ok st
  = match ok with
    | Some true =>
        ({| requests := set_status (id r) next (requests st);
            editModal := editModal st;
            nextStatusModal := closedNext;
            infoOpen := infoOpen st |},
         [{| patch_id := id r; patch_status := next |}])
    | _ =>
        ({| requests := requests st;
            editModal := editModal st;
            nextStatusModal := closedNext;
            infoOpen := true |},
         [{| patch_id := id r; patch_status := next |}])
    end.
Proof.
  intros Hin Hnext. unfold advance.
  assert (Hen : enabled true st (ClickNextStatus r) = true).
  { cbn [enabled andb]. rewrite bool_decide_eq_true_2
      by (apply list_elem_of_In; exact Hin).
    destruct (String.eqb_spec (status r) "completed") as [E|_]; [|reflexivity].
    rewrite E in Hnext. discriminate. }
  rewrite Hen. unfold openNextStatusModal. rewrite Hnext.
  destruct ok as [[|]|]; reflexivity.
Qed.

(** X8.  For an administrator, a click on the Next Status button of a
    listed request that has a next status, followed by the confirmation,
    sends one PATCH with that next status and closes the modal whatever the
    answer; when the server accepts, the request is listed with the next
    status, and otherwise the list is unchanged and the error is shown. *)
Theorem advance_request (r : Request) (ok : option bool) (st : State)
    (next : string) :
  In r (requests st) ->
  getNextStatus (status r) = Some next ->
  let after := fst (advance true r ok st) in
  snd (advance true r ok st) = [{| patch_id := id r; patch_status := next |}]
  /\ next_isOpen (nextStatusModal after) = false
  /\ (ok = Some true ->
      In (withStatus next r) (requests after)
      /\ map id (requests after) = map id (requests st)
      /\ (forall q, In q (requests st) -> id q <> id r -> In q (requests after)))
  /\ (ok <> Some true -> requests after = requests st /\ infoOpen after = true).
Proof.
  intros Hin Hnext. cbv zeta. rewrite (advance_step r ok st next Hin Hnext).
  destruct ok as [[|]|]; cbn [fst snd requests nextStatusModal next_isOpen
                              closedNext infoOpen];
    (split; [reflexivity|]); (split; [reflexivity|]);
    (split; [|intros H; try contradiction; auto]);
    intros H; try discriminate.
  destruct (set_status_shape (id r) next (requests st)) as [Hid [_ [Hoth _]]].
  split; [apply set_status_In, Hin|]. split; [exact Hid|exact Hoth].
Qed.

Lemma advance_request_witness :
  let r := {| id := 7; game_name := "Hades"; status := "rejected" |} in
  snd (advance true r (Some true) (init [r]))
  = [{| patch_id := 7; patch_status := "approved" |}].
Proof.
  intros r.
  apply (proj1 (advance_request r (Some true) (init [r]) "approved"
                  (or_introl eq_refl) eq_refl)).
Defined.

(** X9.  Two accepted confirmations take a pending request to completed,
    sending ['approved'] and then ['completed']; after that the Next Status
    button is not rendered for it and nothing more is sent. *)
Theorem pending_to_completed (r : Request) (st : State) (ok : option bool) :
  In r (requests st) ->
  status r = "pending" ->
  let first := advance true r (Some true) st in
  let second := advance true (withStatus "approved" r) (Some true) (fst first) in
  let third := advance true (withStatus "completed" r) ok (fst second) in
  snd first ++ snd second
  = [{| patch_id := id r; patch_status := "approved" |};
     {| patch_id := id r; patch_status := "completed" |}]
  /\ In (withStatus "completed" r) (requests (fst second))
  /\ enabled true (fst second) (ClickNextStatus (withStatus "completed" r)) = false
  /\ third = (fst second, []).
Proof.
  intros Hin Hs. cbv zeta.
  assert (H1 : getNextStatus (status r) = Some "approved")
    by (rewrite Hs; reflexivity).
  rewrite (advance_step r (Some true) st "approved" Hin H1). cbn [fst snd].
  set (st1 := {| requests := set_status (id r) "approved" (requests st);
                 editModal := editModal st; nextStatusModal := closedNext;
                 infoOpen := infoOpen st |}).
  assert (Hin1 : In (withStatus "approved" r) (requests st1))
    by (apply set_status_In, Hin).
  rewrite (advance_step (withStatus "approved" r) (Some true) st1 "completed"
             Hin1 eq_refl). cbn [fst snd app].
  split; [reflexivity|].
  assert (Hin2 : In (withStatus "completed" r)
                   (set_status (id r) "completed" (requests st1)))
    by (apply (set_status_In (withStatus "approved" r)), Hin1).
  split; [exact Hin2|].
  assert (Hen : forall s, enabled true s (ClickNextStatus (withStatus "completed" r))
                          = false)
    by (intros s; cbn; apply andb_false_r).
  split; [apply Hen|].
  unfold advance. rewrite Hen. reflexivity.
Qed.

Lemma pending_to_completed_witness :
  let r := {| id := 3; game_name := "Celeste"; status := "pending" |} in
  let first := advance true r (Some true) (init [r]) in
  let second := advance true (withStatus "approved" r) (Some true) (fst first) in
  requests (fst second)
  = [{| id := 3; game_name := "Celeste"; status := "completed" |}]
  /\ snd first ++ snd second
     = [{| patch_id := 3; patch_status := "approved" |};
        {| patch_id := 3; patch_status := "completed" |}].
Proof.
  intros r first second.
  split; [reflexivity|].
  exact (proj1 (pending_to_completed r (init [r]) None (or_introl eq_refl)
                  eq_refl)).
Defined.

(** X10.  A request whose status is none of pending, approved, rejected
    and completed still gets a Next Status button, labelled Unknown; a click
    on it opens nothing, and with it, as for a completed request or for a
    user who is no administrator, nothing is sent and the page is as
    before. *)
Theorem next_button_without_next_status (admin : bool) (r : Request)
    (ok : option bool) (st : State) :
  next_isOpen (nextStatusModal st) = false ->
  admin = false \/ status r = "completed" \/ getNextStatus (status r) = None ->
  advance admin r ok st = (st, [])
  /\ (status r <> "completed" -> getNextStatus (status r) = None ->
      getNextStatusText (status r) = "Unknown"
      /\ enabled admin st (ClickNextStatus r)
         = admin && bool_decide (r ∈ requests st)).
Proof.
  intros Hclosed Hcase. split.
  - unfold advance.
    assert (Hst : (if enabled admin st (ClickNextStatus r)
                   then openNextStatusModal r st else st) = st).
    { destruct (enabled admin st (ClickNextStatus r)) eqn:He; [|reflexivity].
      cbn [enabled] in He. apply andb_true_iff in He as [He Hc].
      apply andb_true_iff in He as [Ha _].
      destruct Hcase as [->|[Hs|Hn]]; [discriminate| |].
      - rewrite Hs in Hc. discriminate.
      - unfold openNextStatusModal. rewrite Hn. reflexivity. }
    rewrite Hst. unfold clickConfirm. rewrite Hclosed. reflexivity.
  - intros Hc Hn. unfold getNextStatusText. rewrite Hn. split; [reflexivity|].
    cbn [enabled]. apply String.eqb_neq in Hc. rewrite Hc.
    apply andb_true_r.
Qed.

Lemma next_button_without_next_status_witness :
  let r := {| id := 9; game_name := "Doom"; status := "archived" |} in
  advance true r (Some true) (init [r]) = (init [r], [])
  /\ getNextStatusText "archived" = "Unknown".
Proof.
  intros r.
  destruct (next_button_without_next_status true r (Some true) (init [r])
              eq_refl (or_intror (or_intror eq_refl))) as [H1 H2].
  split; [exact H1|].
  apply H2; [discriminate|reflexivity].
Defined.

(** X11.  Saving the edit modal sends one PATCH with the selected status.
    When the server accepts, the modal closes and the list keeps its ids
    and names in order, with the selected status on the rows of the edited
    request and every other row as before; when it refuses or the request
    fails, the list and the modal with its selection stay as they were and
    the error is shown. *)
Theorem edit_save_outcomes (r : Request) (ok : option bool) (st : State) :
  edit_request (editModal st) = Some r ->
  let after := fst (updateRequestStatus ok st) in
  snd (updateRequestStatus ok st)
  = [{| patch_id := id r; patch_status := newStatus (editModal st) |}]
  /\ (ok = Some true ->
      editModal after = closedEdit
      /\ map id (requests after) = map id (requests st)
      /\ map game_name (requests after) = map game_name (requests st)
      /\ (forall q, In q (requests st) -> id q <> id r -> In q (requests after))
      /\ (forall q, In q (requests after) -> id q = id r ->
                    status q = newStatus (editModal st)))
  /\ (ok <> Some true ->
      requests after = requests st
      /\ editModal after = editModal st
      /\ infoOpen after = true).
Proof.
  intros Hr. cbv zeta. unfold updateRequestStatus. rewrite Hr.
  destruct ok as [[|]|]; cbn [fst snd];
    (split; [reflexivity|]);
    (split; [intros H; try discriminate|intros H; try contradiction; auto]).
  cbn [closeEditModal editModal requests].
  destruct (set_status_shape (id r) (newStatus (editModal st)) (requests st))
    as [H1 [H2 [H3 H4]]].
  auto.
Qed.

Lemma edit_save_outcomes_witness :
  let r := {| id := 7; game_name := "Hades"; status := "approved" |} in
  let st := selectStatus OptRejected (openEditModal r (init [r])) in
  snd (updateRequestStatus (Some false) st)
  = [{| patch_id := 7; patch_status := "rejected" |}]
  /\ requests (fst (updateRequestStatus (Some false) st)) = [r].
Proof.
  intros r st.
  destruct (edit_save_outcomes r (Some false) st eq_refl) as [H1 [_ H2]].
  split; [exact H1|].
  apply H2. discriminate.
Defined.

End AdvanceFacts.

(** ** The smart import form *)

Section SmartImportFacts.

Import SmartGameImport.

Lemma remount_length (names shown : list string) :
  List.length (remount names shown) = List.length names.
Proof.
  unfold remount. rewrite length_app, length_take, length_drop. lia.
Qed.

Lemma handle_form (e : Event) (st : State) :
  enabled false st e = true ->
  gameInputs st <> [] ->
  List.length (inputValues st) = List.length (gameInputs st) ->
  gameInputs (fst (handle e st)) <> []
  /\ List.length (inputValues (fst (handle e st)))
     = List.length (gameInputs (fst (handle e st))).
Proof.
  intros He Hne Hlen. destruct e as [index value| |index| ]; cbn [handle fst].
  - cbn [typeInto gameInputs inputValues]. rewrite !length_insert.
    split; [|exact Hlen].
    intros E. apply (f_equal List.length) in E.
    rewrite length_insert in E. destruct (gameInputs st); [contradiction|].
    discriminate.
  - cbn [addGameInput gameInputs inputValues]. rewrite remount_length.
    split; [|reflexivity]. destruct (gameInputs st); discriminate.
  - unfold removeGameInput. cbn [enabled] in He.
    apply andb_true_iff in He as [H1 H2]. rewrite H1.
    cbn [gameInputs inputValues]. rewrite remount_length.
    split; [|reflexivity].
    apply Nat.ltb_lt in H1, H2. intros E.
    apply (f_equal List.length) in E. rewrite length_delete in E.
    + simpl in E. lia.
    + apply lookup_lt_is_Some_2. exact H2.
  - unfold handleImport. destruct (0 <? _)%nat; cbn [fst gameInputs inputValues].
    + rewrite remount_length. split; [discriminate|reflexivity].
    + split; assumption.
Qed.

Lemma run_form (es : list Event) (st : State) :
  gameInputs st <> [] ->
  List.length (inputValues st) = List.length (gameInputs st) ->
  gameInputs (fst (run es st)) <> []
  /\ List.length (inputValues (fst (run es st)))
     = List.length (gameInputs (fst (run es st))).
Proof.
  revert st. induction es as [|e es IH]; intros st Hne Hlen; [split; assumption|].
  cbn [run]. destruct (enabled false st e) eqn:He; [|apply IH; assumption].
  destruct (handle_form e st He Hne Hlen) as [Hne1 Hlen1].
  destruct (handle e st) as [st1 out1]. cbn [fst] in Hne1, Hlen1.
  specialize (IH st1 Hne1 Hlen1).
  destruct (run es st1) as [st2 out2]. exact IH.
Qed.

(** X12.  The smart import form always has at least one input, and as many
    texts on screen as names in its list, whatever is typed, added, removed
    or imported. *)
Theorem smart_form_never_empty (es : list Event) :
  gameInputs (fst (run es init)) <> []
  /\ List.length (inputValues (fst (run es init)))
     = List.length (gameInputs (fst (run es init))).
Proof. apply run_form; [discriminate|reflexivity]. Qed.

Lemma existsb_filter (l : list string) :
  existsb nonBlank l = (0 <? List.length (List.filter nonBlank l))%nat.
Proof.
  induction l as [|x l IH]; [reflexivity|]. simpl.
  destruct (nonBlank x); [reflexivity|exact IH].
Qed.

Lemma nonBlank_blank (name : string) : nonBlank name = negb (blank name).
Proof.
  unfold nonBlank.
  destruct (blank name) eqn:B.
  - apply trim_blank in B. rewrite B. reflexivity.
  - destruct (trim name) eqn:E; [|reflexivity].
    apply trim_blank in E. congruence.
Qed.

(** X13.  The import button is enabled exactly when a click on it calls
    [onImport]; the names it passes are the inputs that are not blank, as
    typed and in their order, as many as the label of the button says, and
    the list of the form is then the single empty name.  With blank inputs
    only, nothing is called and the form stays as it is. *)
Theorem smart_import_submits (disabled : bool) (st : State) :
  (enabled disabled st Import = true ->
   snd (handleImport st) = Some (List.filter nonBlank (gameInputs st)))
  /\ (disabled = false ->
      (enabled disabled st Import = true <-> snd (handleImport st) <> None))
  /\ (forall names, snd (handleImport st) = Some names ->
        names <> []
        /\ List.length names = importCount st
        /\ (forall n, In n names <-> In n (gameInputs st) /\ blank n = false)
        /\ gameInputs (fst (handleImport st)) = [""])
  /\ (snd (handleImport st) = None ->
      fst (handleImport st) = st
      /\ Forall (fun n => blank n = true) (gameInputs st)).
Proof.
  unfold enabled, hasValidGames, handleImport, importCount.
  rewrite existsb_filter.
  destruct (0 <? List.length (List.filter nonBlank (gameInputs st)))%nat eqn:E;
    cbn [fst snd gameInputs].
  - split; [reflexivity|]. split; [|split; [|discriminate]].
    + intros ->. split; [discriminate|reflexivity].
    + intros names [= <-]. apply Nat.ltb_lt in E.
      split; [|split; [reflexivity|split; [|reflexivity]]].
      * intros En. rewrite En in E. simpl in E. lia.
      * intros n. rewrite List.filter_In, nonBlank_blank, negb_true_iff.
        reflexivity.
  - split; [rewrite orb_true_r; discriminate|]. split; [|split; [discriminate|]].
    + intros ->. split; [discriminate|intros H; contradiction].
    + intros _. split; [reflexivity|].
      apply List.Forall_forall. intros n Hn.
      destruct (blank n) eqn:B; [reflexivity|exfalso].
      apply Nat.ltb_ge in E.
      assert (Hin : In n (List.filter nonBlank (gameInputs st))).
      { apply List.filter_In. split; [exact Hn|].
        rewrite nonBlank_blank, B. reflexivity. }
      destruct (List.filter nonBlank (gameInputs st)); [destruct Hin|].
      simpl in E. lia.
Qed.

Lemma smart_import_submits_witness :
  let st := typeInto 1 "  Hades " (addGameInput (typeInto 0 "   " init)) in
  snd (handleImport st) = Some ["  Hades "]
  /\ gameInputs (fst (handleImport st)) = [""].
Proof.
  intros st.
  destruct (smart_import_submits false st) as [H1 [_ [H3 _]]].
  assert (E : snd (handleImport st) = Some ["  Hades "])
    by (rewrite H1; reflexivity).
  split; [exact E|].
  exact (proj2 (proj2 (proj2 (H3 _ E)))).
Defined.

Lemma run_typing (es : list Event) (st : State) :
  Forall (fun e => match e with TypeInto _ _ | Add => True | _ => False end) es ->
  inputValues st = gameInputs st ->
  inputValues (fst (run es st)) = gameInputs (fst (run es st)).
Proof.
  revert st. induction es as [|e es IH]; intros st Hall Heq; [exact Heq|].
  inversion Hall as [|? ? He Hrest]; subst. cbn [run].
  destruct (enabled false st e); [|apply IH; assumption].
  assert (H1 : inputValues (fst (handle e st)) = gameInputs (fst (handle e st))).
  { destruct e as [index value| |index| ]; try contradiction; cbn.
    - rewrite Heq. reflexivity.
    - unfold remount. rewrite Heq.
      rewrite take_ge by (rewrite length_app; lia).
      rewrite drop_app_length. reflexivity. }
  destruct (handle e st) as [st1 out]. cbn [fst] in H1.
  specialize (IH st1 Hrest H1). destruct (run es st1) as [st2 outs]. exact IH.
Qed.

(** X14.  As long as inputs are only typed into or added, every input of
    the smart import form shows the name held for it.  Removing an input
    drops the name at its position from the list but the text of the last
    input from the screen, and an import empties the list while the first
    input keeps its text: from a form that agreed, the texts on screen are
    then the first texts of before. *)
Theorem smart_form_display (es : list Event) (index : nat) :
  Forall (fun e => match e with TypeInto _ _ | Add => True | _ => False end) es ->
  let st := fst (run es init) in
  inputValues st = gameInputs st
  /\ ((1 < List.length (gameInputs st))%nat ->
      gameInputs (removeGameInput index st) = delete index (gameInputs st)
      /\ inputValues (removeGameInput index st)
         = take (List.length (delete index (gameInputs st))) (gameInputs st))
  /\ (hasValidGames st = true ->
      gameInputs (fst (handleImport st)) = [""]
      /\ inputValues (fst (handleImport st)) = take 1 (gameInputs st)).
Proof.
  intros Hall st.
  assert (Heq : inputValues st = gameInputs st)
    by (apply run_typing; [exact Hall|reflexivity]).
  destruct (run_form es init) as [Hne _]; [discriminate|reflexivity|].
  fold st in Hne.
  split; [exact Heq|]. split.
  - intros Hlen. unfold removeGameInput.
    apply Nat.ltb_lt in Hlen. rewrite Hlen. cbn [gameInputs inputValues].
    split; [reflexivity|]. unfold remount. rewrite Heq.
    rewrite drop_ge; [apply app_nil_r|].
    rewrite delete_take_drop, length_app, length_take, length_drop. lia.
  - intros Hv. unfold handleImport. unfold hasValidGames in Hv.
    rewrite existsb_filter in Hv. rewrite Hv. cbn [fst gameInputs inputValues].
    split; [reflexivity|]. unfold remount. rewrite Heq.
    rewrite drop_ge; [apply app_nil_r|].
    destruct (gameInputs st); [contradiction|simpl; lia].
Qed.

Lemma smart_form_display_witness :
  let es := [TypeInto 0 "Hades"; Add; TypeInto 1 "Celeste"] in
  let st := fst (run es init) in
  gameInputs (removeGameInput 0 st) = ["Celeste"]
  /\ inputValues (removeGameInput 0 st) = ["Hades"].
Proof.
  intros es st.
  assert (Hall : Forall (fun e => match e with
                                  | TypeInto _ _ | Add => True
                                  | _ => False
                                  end) es)
    by (repeat constructor).
  destruct (smart_form_display es 0 Hall) as [_ [H _]].
  fold st in H. destruct H as [H1 H2]; [vm_compute; lia|].
  split; [rewrite H1|rewrite H2]; reflexivity.
Defined.

End SmartImportFacts.

(** ** The autocomplete inputs *)

Section AutocompleteFacts.

Import Autocomplete.

Variable S : Type.
Variable name : S -> string.
Variable gid : S -> Z.
Variable enc : string -> string.
Variable fetch : string -> Suggestions.FetchResult S.
Variable max : Z.
Variable nav : bool.

Lemma search_state (query : string) (st : State S) :
  let after := fst (search S enc fetch max query st) in
  isLoading after = false
  /\ value after = value st
  /\ (showDropdown after = true ->
      suggestions after <> [] /\ selectedIndex after = -1).
Proof.
  cbv zeta. unfold search.
  destruct (2 <=? String.length (trim query))%nat; cbn [fst].
  - destruct (Suggestions.result _) as [results|m];
      cbn [isLoading value showDropdown suggestions selectedIndex];
      repeat split; try discriminate.
    intros E. destruct results; [discriminate|]. discriminate.
  - cbn. repeat split; discriminate.
Qed.

Lemma handle_dropdownOk (e : Event) (st : State S) :
  dropdownOk S st -> isLoading st = false ->
  dropdownOk S (fst (handle S name gid enc fetch max nav e st))
  /\ isLoading (fst (handle S name gid enc fetch max nav e st)) = false.
Proof.
  intros Hok Hload. unfold dropdownOk in *.
  destruct e as [newValue|query|key|index| ]; cbn [handle].
  - cbn. split; assumption.
  - destruct (search_state query st) as [Hl [_ Hs]]. split; [|exact Hl].
    intros H. destruct (Hs H) as [Hne Hi]. split; [exact Hne|].
    rewrite Hi.
    destruct (suggestions (fst (search S enc fetch max query st)));
      [contradiction|]. simpl. lia.
  - unfold handleKeyDown.
    destruct (negb (showDropdown st) || _) eqn:Eg.
    + destruct key; try (split; assumption).
      destruct nav; cbn [fst]; split; assumption.
    + apply orb_false_iff in Eg as [Es El]. apply negb_false_iff in Es.
      destruct (Hok Es) as [Hne Hi].
      destruct key; cbn [fst]; try (split; assumption).
      * cbn. split; [|exact Hload]. intros _. split; [exact Hne|].
        destruct (Z.ltb_spec (selectedIndex st)
                    (Z.of_nat (List.length (suggestions st)) - 1)); lia.
      * cbn. split; [|exact Hload]. intros _. split; [exact Hne|].
        destruct (Z.ltb_spec 0 (selectedIndex st)); lia.
      * destruct ((0 <=? selectedIndex st) && _); [|split; assumption].
        destruct (suggestions st !! _); [|split; assumption].
        cbn. split; [discriminate|exact Hload].
      * cbn. split; [discriminate|exact Hload].
  - destruct (suggestions st !! index); [|split; assumption].
    cbn. split; [discriminate|exact Hload].
  - cbn. split; [discriminate|exact Hload].
Qed.

Lemma run_dropdownOk (es : list Event) (st : State S) :
  dropdownOk S st -> isLoading st = false ->
  dropdownOk S (fst (run S name gid enc fetch max nav es st))
  /\ isLoading (fst (run S name gid enc fetch max nav es st)) = false.
Proof.
  revert st. induction es as [|e es IH]; intros st Hok Hload;
    [split; assumption|].
  cbn [run]. destruct (enabled S st e); [|apply IH; assumption].
  destruct (handle_dropdownOk e st Hok Hload) as [Hok1 Hload1].
  destruct (handle S name gid enc fetch max nav e st) as [st1 out1].
  cbn [fst] in Hok1, Hload1. specialize (IH st1 Hok1 Hload1).
  destruct (run S name gid enc fetch max nav es st1) as [st2 out2]. exact IH.
Qed.

Lemma init_dropdownOk (v : string) : dropdownOk S (init S v).
Proof. intros H. discriminate. Qed.

Lemma reached_dropdownOk (v : string) (es : list Event) :
  dropdownOk S (fst (run S name gid enc fetch max nav es (init S v)))
  /\ isLoading (fst (run S name gid enc fetch max nav es (init S v))) = false.
Proof. apply run_dropdownOk; [apply init_dropdownOk|reflexivity]. Qed.

(** X15.  In every state an autocomplete input reaches between two
    handlers (the state updates of one callback being applied together), a
    shown dropdown has suggestions and its highlighted row is none or one
    of them, no search is left loading, and the "No games found" box, which
    needs a shown dropdown without suggestions, is never rendered. *)
Theorem autocomplete_dropdown (v : string) (es : list Event) :
  let st := fst (run S name gid enc fetch max nav es (init S v)) in
  (showDropdown st = true ->
   suggestions st <> []
   /\ -1 <= selectedIndex st < Z.of_nat (List.length (suggestions st)))
  /\ isLoading st = false
  /\ noResultsShown S st = false.
Proof.
  cbv zeta.
  destruct (reached_dropdownOk v es) as [Hok Hload].
  split; [exact Hok|]. split; [exact Hload|].
  unfold noResultsShown.
  destruct (showDropdown _) eqn:Es; [|reflexivity].
  destruct (Hok Es) as [Hne _].
  destruct (suggestions _); [contradiction|reflexivity].
Qed.

(** X16.  The search behind an autocomplete input: when the timer fires
    for a query whose trimmed length is below 2, nothing is requested and
    the dropdown is emptied and hidden; otherwise exactly one request is
    made, for that trimmed query with [maxSuggestions] as limit.  When it
    is rejected or answered not OK the dropdown is emptied and hidden; when
    it is answered with a list, the list is what the dropdown holds, shown
    unless it is empty, with no row highlighted. *)
Theorem autocomplete_search (query : string) (st : State S) :
  let url := "/api/import/suggestions?q=" +:+ enc (trim query)
             +:+ "&limit=" +:+ pretty max in
  ((String.length (trim query) < 2)%nat ->
   snd (search S enc fetch max query st) = []
   /\ suggestions (fst (search S enc fetch max query st)) = []
   /\ showDropdown (fst (search S enc fetch max query st)) = false)
  /\ ((2 <= String.length (trim query))%nat ->
      snd (search S enc fetch max query st) = [Requested url]
      /\ ((fetch url = Suggestions.Rejects
           \/ exists status statusText json,
                fetch url = Suggestions.Resolves false status statusText json) ->
          suggestions (fst (search S enc fetch max query st)) = []
          /\ showDropdown (fst (search S enc fetch max query st)) = false)
      /\ (forall status statusText results,
            fetch url = Suggestions.Resolves true status statusText (Some results) ->
            suggestions (fst (search S enc fetch max query st)) = results
            /\ showDropdown (fst (search S enc fetch max query st))
               = negb (bool_decide (results = []))
            /\ selectedIndex (fst (search S enc fetch max query st)) = -1)).
Proof.
  cbv zeta. unfold search. split.
  - intros H. apply Nat.leb_gt in H. rewrite H. cbn. auto.
  - intros H. pose proof H as H'. apply Nat.leb_le in H. rewrite H.
    unfold Suggestions.getGameSuggestions.
    assert (Hq : String.eqb query "" || (String.length (trim query) <? 2)%nat
                 = false).
    { apply orb_false_iff. split.
      - apply String.eqb_neq. intros ->. simpl in H'. lia.
      - apply Nat.ltb_ge. exact H'. }
    rewrite Hq. cbn [Suggestions.requested Suggestions.result map fst snd].
    split; [reflexivity|]. split.
    + intros [E|[status [statusText [json E]]]]; rewrite E; cbn; auto.
    + intros status statusText results E. rewrite E. cbn.
      repeat split. destruct results; reflexivity.
Qed.

(** X17.  The Enter key of an autocomplete input.  While suggestions are
    shown, Enter selects the highlighted one: its name becomes the value,
    the dropdown closes, [onSelect] gets the game ([NavigationSearch] also
    navigates to its page); without a highlighted row Enter does nothing.
    While no suggestion is shown, Enter does nothing in [GameAutocomplete];
    in [NavigationSearch] it leaves the field and calls [onSearch] with the
    trimmed value exactly when that has at least 2 characters. *)
Theorem autocomplete_enter (v : string) (es : list Event) :
  let st := fst (run S name gid enc fetch max nav es (init S v)) in
  let pressed := handleKeyDown S name gid nav Enter st in
  (showDropdown st = true ->
   (selectedIndex st = -1 -> pressed = (st, []))
   /\ (0 <= selectedIndex st ->
       exists game,
         suggestions st !! Z.to_nat (selectedIndex st) = Some game
         /\ value (fst pressed) = name game
         /\ showDropdown (fst pressed) = false
         /\ snd pressed
            = Selected game
              :: (if nav then [Navigated ("/game/" +:+ pretty (gid game))]
                  else [])))
  /\ (showDropdown st = false ->
      fst pressed = st
      /\ snd pressed
         = if nav
           then (if (2 <=? String.length (trim (value st)))%nat
                 then [Searched (trim (value st))] else []) ++ [Blurred]
           else []).
Proof.
  cbv zeta.
  destruct (reached_dropdownOk v es) as [Hok _].
  set (st := fst (run S name gid enc fetch max nav es (init S v))) in *.
  unfold handleKeyDown. split.
  - intros Hs. destruct (Hok Hs) as [Hne Hi]. rewrite Hs. cbn [negb orb].
    assert (Hl : (Z.of_nat (List.length (suggestions st)) =? 0) = false).
    { apply Z.eqb_neq. destruct (suggestions st); [contradiction|]. simpl. lia. }
    rewrite Hl. split.
    + intros E. rewrite E. reflexivity.
    + intros H0.
      assert (Hin : (0 <=? selectedIndex st)
                    && (selectedIndex st <? Z.of_nat (List.length (suggestions st)))
                    = true)
        by (apply andb_true_iff; split; [apply Z.leb_le|apply Z.ltb_lt]; lia).
      rewrite Hin.
      destruct (lookup_lt_is_Some_2 (suggestions st) (Z.to_nat (selectedIndex st)))
        as [game Hg]; [lia|].
      exists game. rewrite Hg. cbn. auto.
  - intros Hs. rewrite Hs. cbn [negb orb]. destruct nav; split; reflexivity.
Qed.

End AutocompleteFacts.

Section AutocompleteExample.

Import Autocomplete.

Lemma autocomplete_dropdown_witness :
  let fetch0 := fun _ : string =>
    Suggestions.Resolves true 200 "OK" (Some ["Hades"; "Halo"]) in
  let st := fst (Autocomplete.run string (fun s => s) (fun _ => 0) (fun s => s) fetch0 5 false
                   [TypeValue "ha"; TimerFires "ha"; KeyDown ArrowDown]
                   (Autocomplete.init string "")) in
  showDropdown st = true /\ selectedIndex st = 0 /\ suggestions st <> [].
Proof.
  intros fetch0 st.
  assert (Hs : showDropdown st = true) by reflexivity.
  split; [exact Hs|]. split; [reflexivity|].
  exact (proj1 (proj1 (autocomplete_dropdown string (fun s => s) (fun _ => 0)
                         (fun s => s) fetch0 5 false ""
                         [TypeValue "ha"; TimerFires "ha"; KeyDown ArrowDown])
                  Hs)).
Defined.

Lemma autocomplete_search_witness :
  let outcome := Autocomplete.search string (fun s => s)
                   (fun _ => Suggestions.Resolves false 500 "Server Error" None)
                   6 " halo " (Autocomplete.init string " halo ") in
  snd outcome = [Requested "/api/import/suggestions?q=halo&limit=6"]
  /\ showDropdown (fst outcome) = false.
Proof.
  intros outcome.
  destruct (proj2 (autocomplete_search string (fun s => s)
                     (fun _ => Suggestions.Resolves false 500 "Server Error" None)
                     6 " halo " (Autocomplete.init string " halo ")))
    as [H1 [H2 _]]; [vm_compute; lia|].
  split; [exact H1|].
  apply H2. right. eauto.
Defined.

Lemma autocomplete_enter_witness :
  let fetch0 := fun _ : string =>
    Suggestions.Resolves true 200 "OK" (Some ["Hades"; "Halo"]) in
  let st := fst (Autocomplete.run string (fun s => s) (fun _ => 7) (fun s => s)
                   fetch0 5 true
                   [TypeValue "ha"; TimerFires "ha"; KeyDown ArrowDown]
                   (Autocomplete.init string "")) in
  exists game,
    suggestions st !! Z.to_nat (selectedIndex st) = Some game
    /\ value (fst (handleKeyDown string (fun s => s) (fun _ => 7) true Enter st))
       = game
    /\ snd (handleKeyDown string (fun s => s) (fun _ => 7) true Enter st)
       = [Selected game; Navigated "/game/7"].
Proof.
  intros fetch0 st.
  destruct (proj1 (autocomplete_enter string (fun s => s) (fun _ => 7)
                     (fun s => s) fetch0 5 true ""
                     [TypeValue "ha"; TimerFires "ha"; KeyDown ArrowDown]))
    as [_ H]; [reflexivity|].
  destruct H as [game [Hg [Hv [_ Ho]]]]; [vm_compute; discriminate|].
  exists game. split; [exact Hg|]. split; [exact Hv|exact Ho].
Defined.

End AutocompleteExample.

(** ** The screenshot gallery *)

Section ScreenshotsFacts.

Import Screenshots.

Lemma handle_in_range (total : Z) (e : Event) (st : State) :
  0 <= activeScreenshot st < total ->
  enabled total st e = true ->
  0 <= activeScreenshot (handle total e st) < total.
Proof.
  intros Hr He. unfold enabled in He.
  apply andb_true_iff in He as [_ He].
  destruct e as [key| | |index| | ]; cbn [handle]; try exact Hr.
  - destruct key; cbn [handleKeyDown]; try exact Hr.
    + destruct (Z.ltb_spec 0 (activeScreenshot st)); [cbn; lia|exact Hr].
    + destruct (Z.ltb_spec (activeScreenshot st) (total - 1)); [cbn; lia|exact Hr].
  - apply Z.ltb_lt in He. cbn. lia.
  - apply Z.ltb_lt in He. cbn. lia.
  - apply andb_true_iff in He as [He Hi]. apply andb_true_iff in He as [_ H0].
    apply Z.leb_le in H0. apply Z.ltb_lt in Hi. cbn. lia.
Qed.

Lemma run_in_range (total : Z) (es : list Event) (st : State) :
  0 <= activeScreenshot st < total ->
  0 <= activeScreenshot (run total es st) < total.
Proof.
  revert st. induction es as [|e es IH]; intros st Hr; [exact Hr|].
  cbn [run]. apply IH.
  destruct (enabled total st e) eqn:He; [|exact Hr].
  apply handle_in_range; assumption.
Qed.

(** X18.  While one game with screenshots is shown, the gallery's index
    stays within the game's screenshots whatever keys are pressed and
    whatever arrows and thumbnails are clicked, so the picture
    [game.screenshots[activeScreenshot]] exists. *)
Theorem gallery_index_in_range (total : Z) (es : list Event) (st : State) :
  0 <= activeScreenshot st < total ->
  0 <= activeScreenshot (run total es st) < total.
Proof. apply run_in_range. Qed.

Lemma gallery_index_in_range_witness :
  0 <= activeScreenshot
         (run 12 [Key KeyArrowLeft; ClickThumbnail 9; ClickNext; ClickNext;
                  ClickNext; Key KeyArrowRight; ClickThumbnail 11] init) < 12.
Proof. apply gallery_index_in_range. cbn. lia. Defined.

Lemma arrow_right_steps (total : Z) (n : nat) (st : State) :
  0 < total ->
  0 <= activeScreenshot st ->
  activeScreenshot st + Z.of_nat n <= total - 1 ->
  run total (repeat (Key KeyArrowRight) n) st
  = setActiveScreenshot (fun prev => prev + Z.of_nat n) st.
Proof.
  intros Ht. revert st. induction n as [|n IH]; intros st H0 Hn.
  - destruct st. unfold setActiveScreenshot. cbn. f_equal. lia.
  - cbn [repeat run]. unfold enabled, inRange.
    assert (E : (0 <? total) = true) by (apply Z.ltb_lt; exact Ht).
    assert (E0 : (0 <=? activeScreenshot st) = true) by (apply Z.leb_le; exact H0).
    assert (E2 : (activeScreenshot st <? total) = true) by (apply Z.ltb_lt; lia).
    rewrite E, E0, E2. cbn [andb handle handleKeyDown].
    assert (E1 : (activeScreenshot st <? total - 1) = true)
      by (apply Z.ltb_lt; lia).
    rewrite E1. rewrite IH by (cbn; lia).
    destruct st. unfold setActiveScreenshot. cbn. f_equal. lia.
Qed.

(** X19.  Every screenshot of a game can be shown: from the first one,
    pressing the right arrow [i] times shows screenshot [i], also beyond
    the ten thumbnails, and changes nothing else. *)
Theorem gallery_reaches_every_screenshot (total i : Z) :
  0 <= i < total ->
  run total (repeat (Key KeyArrowRight) (Z.to_nat i)) init
  = {| activeScreenshot := i; isScreenshotFullscreen := false |}.
Proof.
  intros Hi. rewrite arrow_right_steps; [|lia|cbn; lia|cbn; lia].
  unfold setActiveScreenshot, init. cbn. f_equal. lia.
Qed.

Lemma gallery_reaches_every_screenshot_witness :
  activeScreenshot (run 15 (repeat (Key KeyArrowRight) (Z.to_nat 13)) init) = 13.
Proof.
  rewrite (gallery_reaches_every_screenshot 15 13); [reflexivity|lia].
Defined.

Lemma inRange_spec (total : Z) (st : State) :
  inRange total st = true <-> 0 <= activeScreenshot st < total.
Proof.
  unfold inRange. rewrite andb_true_iff, Z.leb_le, Z.ltb_lt. reflexivity.
Qed.

(** A page that rendered keeps rendering while its game is shown. *)
Lemma run_renders (screenshots : option Z) (es : list Event) (st : State) :
  renders screenshots st = true ->
  renders screenshots (run (default 0 screenshots) es st) = true.
Proof.
  intros Hr. destruct screenshots as [total|]; [|reflexivity].
  change (default 0 (Some total)) with total. destruct (Z.ltb_spec 0 total) as [Ht|Ht].
  - unfold renders in *. apply Z.ltb_lt in Ht. rewrite Ht in *.
    cbn [orb] in *. apply inRange_spec. apply run_in_range.
    apply inRange_spec. exact Hr.
  - assert (Hrun : run total es st = st).
    { clear Hr. induction es as [|e es IH]; [reflexivity|].
      cbn [run]. unfold enabled.
      assert (E : (0 <? total) = false) by (apply Z.ltb_ge; exact Ht).
      rewrite E. cbn [andb]. exact IH. }
    rewrite Hrun. exact Hr.
Qed.



End ScreenshotsFacts.

(** ** The requests of the settings page *)

Section SettingsTrafficFacts.

Import Settings SettingsTraffic.

Lemma testsFollowSaves_weaken (prev : option Request) (sent : list Request) :
  testsFollowSaves None sent = true -> testsFollowSaves prev sent = true.
Proof.
  destruct sent as [|r rest]; [reflexivity|].
  cbn [testsFollowSaves]. destruct r; try (intros H; exact H).
  cbn [savedFor andb]. discriminate.
Qed.

Lemma testsFollowSaves_app (prev : option Request) (a b : list Request) :
  testsFollowSaves prev a = true -> testsFollowSaves None b = true ->
  testsFollowSaves prev (a ++ b) = true.
Proof.
  revert prev. induction a as [|r a IH]; intros prev Ha Hb.
  - apply testsFollowSaves_weaken. exact Hb.
  - cbn [app testsFollowSaves] in *.
    apply andb_true_iff in Ha as [Hr Ha].
    apply andb_true_iff. split; [exact Hr|]. apply IH; assumption.
Qed.

Lemma handle_testsFollowSaves (e : Event) (st : State) :
  testsFollowSaves None (snd (handle e st)) = true.
Proof.
  destruct e as [t|v|k|s|s|v|save test|resp|k resp|resp| ];
    cbn [handle snd]; try reflexivity.
  unfold testTelegramConnection.
  destruct (negb (truthy (get (settings st) "telegramBotToken"))
            || negb (truthy (get (settings st) "telegramChatId"))) eqn:E;
    [reflexivity|].
  apply orb_false_iff in E as [Et Ec].
  apply negb_false_iff in Et. apply negb_false_iff in Ec.
  assert (Hp : testsFollowSaves None
                 [PutSettings (settings st);
                  PostTelegramTest (get (settings st) "telegramBotToken")
                                   (get (settings st) "telegramChatId")] = true).
  { cbn [testsFollowSaves savedFor]. rewrite Et, Ec.
    rewrite !bool_decide_eq_true_2 by reflexivity. reflexivity. }
  destruct save as [[|]|]; [|reflexivity|reflexivity].
  destruct test as [|ok [data|]]; [exact Hp| |exact Hp].
  destruct (ok && _); exact Hp.
Qed.

(** X21.  Whatever is done on the settings page, every test request to
    Telegram comes right after a PUT of the settings that holds the tested
    bot token and chat id, both non-empty: what is tested is what was sent
    to be stored. *)
Theorem telegram_test_follows_save (es : list Event) (st : State)
    (tested : option (JsVal * JsVal)) :
  testsFollowSaves None (snd (run es st tested)) = true.
Proof.
  revert st tested. induction es as [|e es IH]; intros st tested;
    [reflexivity|].
  cbn [run]. destruct (enabled st e); [|apply IH].
  pose proof (handle_testsFollowSaves e st) as He.
  destruct (handle e st) as [st1 sent1].
  specialize (IH st1 (track e st tested)).
  destruct (run es st1 (track e st tested)) as [[st2 tested2] sent2].
  cbn [snd] in *. apply testsFollowSaves_app; assumption.
Qed.

Lemma notifyName_logLevel (k : NotifyKey) : notifyName k <> "logLevel".
Proof. destruct k; discriminate. Qed.

Lemma flagName_logLevel (k : FlagKey) : flagName k <> "logLevel".
Proof. destruct k; discriminate. Qed.

Lemma handleSettingChange_logLevel (key : string) (value : JsVal) (st : State) :
  key <> "logLevel" ->
  settings st !! "logLevel" = None ->
  settings (handleSettingChange key value st) !! "logLevel" = None.
Proof.
  intros Hk Hs. unfold handleSettingChange.
  destruct (String.eqb key "telegramBotToken" || String.eqb key "telegramChatId");
    [destruct (truthy _)|];
    cbn [setSettings setTelegramTestSuccess settings];
    rewrite ?lookup_insert_ne by (exact Hk || discriminate); exact Hs.
Qed.

Lemma handle_logLevel (e : Event) (st : State) :
  settings st !! "logLevel" = None ->
  settings (fst (handle e st)) !! "logLevel" = None
  /\ forall body, In (PutSettings body) (snd (handle e st)) ->
                  body !! "logLevel" = None.
Proof.
  intros Hs.
  destruct e as [t|v|k|s|s|v|save test|resp|k resp|resp| ];
    cbn [handle fst snd].
  - split; [exact Hs|intros body []].
  - split; [|intros body []].
    apply handleSettingChange_logLevel; [discriminate|exact Hs].
  - split; [|intros body []].
    apply handleSettingChange_logLevel; [apply flagName_logLevel|exact Hs].
  - split; [|intros body []].
    apply handleSettingChange_logLevel; [discriminate|exact Hs].
  - split; [|intros body []].
    apply handleSettingChange_logLevel; [discriminate|exact Hs].
  - split; [|intros body []].
    apply handleSettingChange_logLevel; [discriminate|exact Hs].
  - unfold testTelegramConnection.
    destruct (negb _ || negb _); [split; [exact Hs|intros body []]|].
    destruct save as [[|]|];
      [destruct test as [|ok [data|]]; [|destruct (ok && _)|]|..];
      (split; [exact Hs|]); intros body Hin; cbn [snd In] in Hin;
      (destruct Hin as [[= <-]|Hin];
       [exact Hs|try destruct Hin as [[=]|Hin]; destruct Hin]).
  - unfold handleTelegramToggle. cbn [fst snd]. split.
    + destruct resp as [[|]|];
        cbn [setLoading setInfoModal setSettings settings];
        rewrite ?lookup_insert_ne by discriminate; exact Hs.
    + intros body [[= <-]|[]]. rewrite lookup_insert_ne by discriminate.
      exact Hs.
  - unfold handleTelegramNotificationToggle. cbn [fst snd].
    pose proof (notifyName_logLevel k) as Hk. split.
    + destruct resp as [[|]|];
        cbn [setLoading setInfoModal setSettings settings];
        rewrite ?lookup_insert_ne by exact Hk; exact Hs.
    + intros body [[= <-]|[]]. rewrite lookup_insert_ne by exact Hk.
      exact Hs.
  - unfold handleSave. cbn [fst snd]. split.
    + destruct resp as [[|]|]; exact Hs.
    + intros body [[= <-]|[]]. exact Hs.
  - split; [exact Hs|intros body []].
Qed.

Lemma run_logLevel (es : list Event) (st : State)
    (tested : option (JsVal * JsVal)) (body : gmap string JsVal) :
  settings st !! "logLevel" = None ->
  In (PutSettings body) (snd (run es st tested)) ->
  body !! "logLevel" = None.
Proof.
  revert st tested. induction es as [|e es IH]; intros st tested Hs Hin;
    [destruct Hin|].
  cbn [run] in Hin. destruct (enabled st e); [|exact (IH st tested Hs Hin)].
  destruct (handle_logLevel e st Hs) as [Hs1 Hb].
  destruct (handle e st) as [st1 sent1].
  specialize (IH st1 (track e st tested)).
  destruct (run es st1 (track e st tested)) as [[st2 tested2] sent2].
  cbn [fst snd] in *. apply in_app_or in Hin as [Hin|Hin].
  - apply Hb. exact Hin.
  - apply IH; assumption.
Qed.

Lemma mounted_logLevel (f : Fetched) :
  settings (mounted f) !! "logLevel" = None.
Proof.
  unfold mounted, loadSettings. cbn [fst].
  destruct f as [|[|] [data|]]; cbn [setLoading setSettings settings init];
    try reflexivity.
  apply lookup_delete_eq.
Qed.

(** X22.  The log level that the server returns with the settings is
    dropped when the page loads them, and no PUT of the page ever carries a
    [logLevel] again, whatever is done on the page. *)
Theorem log_level_never_sent (f : Fetched) (es : list Event)
    (body : gmap string JsVal) :
  In (PutSettings body) (snd (run es (mounted f) (stored f))) ->
  body !! "logLevel" = None.
Proof. apply run_logLevel, mounted_logLevel. Qed.

Lemma log_level_never_sent_witness :
  let data : gmap string JsVal :=
    <["logLevel" := JStr "DEBUG"]> (<["maxRequestsPerUser" := JNum 3]> ∅) in
  let body : gmap string JsVal := <["maxRequestsPerUser" := JNum 5]> ∅ in
  In (PutSettings body)
     (snd (run [ChangeMaxRequests 5; ClickSave (Some true)]
             (mounted (Responded true (Some data)))
             (stored (Responded true (Some data)))))
  /\ body !! "logLevel" = None.
Proof.
  intros data body.
  assert (Hin : In (PutSettings body)
                  (snd (run [ChangeMaxRequests 5; ClickSave (Some true)]
                          (mounted (Responded true (Some data)))
                          (stored (Responded true (Some data))))))
    by (left; vm_compute; reflexivity).
  split; [exact Hin|].
  exact (log_level_never_sent (Responded true (Some data))
           [ChangeMaxRequests 5; ClickSave (Some true)] body Hin).
Defined.

(** X23.  The two kinds of switches of the Telegram tab save at once: the
    PUT carries the form with the key flipped.  When the server refuses it,
    the key is set back to its old truth value and every other setting is
    as before; when the request itself fails, the key stays flipped in the
    form although nothing was saved.  Both failures show the error. *)
Theorem switch_save_outcomes (s : Switch) (st : State) :
  let old := truthy (get (settings st) (switchKey s)) in
  let flipped := <[switchKey s := JBool (negb old)]> (settings st) in
  (forall resp, snd (handle (click s resp) st) = [PutSettings flipped])
  /\ settings (fst (handle (click s (Some true)) st)) = flipped
  /\ settings (fst (handle (click s (Some false)) st))
     = <[switchKey s := JBool old]> (settings st)
  /\ settings (fst (handle (click s None) st)) = flipped
  /\ (forall resp, resp <> Some true ->
        isOpen (infoModal (fst (handle (click s resp) st))) = true
        /\ title (infoModal (fst (handle (click s resp) st))) = "Error Saving"
        /\ type (infoModal (fst (handle (click s resp) st))) = "error").
Proof.
  cbv zeta. destruct s as [|k]; cbn [click switchKey handle].
  - unfold handleTelegramToggle. cbn [fst snd].
    split; [reflexivity|]. split; [reflexivity|].
    split; [|split; [reflexivity|]].
    + cbn [setLoading setInfoModal setSettings settings].
      rewrite insert_insert_eq, negb_involutive. reflexivity.
    + intros [[|]|] H; [contradiction| |]; repeat split.
  - unfold handleTelegramNotificationToggle. cbn [fst snd].
    split; [reflexivity|]. split; [reflexivity|].
    split; [|split; [reflexivity|]].
    + cbn [setLoading setInfoModal setSettings settings].
      rewrite insert_insert_eq, negb_involutive. reflexivity.
    + intros [[|]|] H; [contradiction| |]; repeat split.
Qed.

Lemma switch_save_outcomes_witness :
  settings (fst (handle (click (Notification NotifyOnNewRequest) (Some false))
                        init))
  = <["notifyOnNewRequest" := JBool true]> defaultSettings.
Proof.
  exact (proj1 (proj2 (proj2 (switch_save_outcomes
                                (Notification NotifyOnNewRequest) init)))).
Defined.

End SettingsTrafficFacts.

(** ** The text import of the library page *)

Section TextImportFacts.

Import Library Names.

Lemma startsClean_trimStart (s : string) : startsClean (trimStart s) = true.
Proof.
  induction s as [|c r IH]; [reflexivity|].
  cbn [trimStart]. destruct (is_whitespace c) eqn:E; [exact IH|].
  cbn [startsClean]. rewrite E. reflexivity.
Qed.

Lemma trimStart_startsClean (s : string) :
  startsClean s = true -> trimStart s = s.
Proof.
  destruct s as [|c r]; [reflexivity|]. cbn [startsClean trimStart].
  intros H. apply negb_true_iff in H. rewrite H. reflexivity.
Qed.

Lemma startsClean_trimEnd (s : string) :
  startsClean s = true -> startsClean (trimEnd s) = true.
Proof.
  destruct s as [|c r]; [reflexivity|]. cbn [startsClean trimEnd].
  intros H. apply negb_true_iff in H. rewrite H. cbn [andb startsClean].
  rewrite H. reflexivity.
Qed.

Lemma trimEnd_idempotent (s : string) : trimEnd (trimEnd s) = trimEnd s.
Proof.
  induction s as [|c r IH]; [reflexivity|].
  cbn [trimEnd].
  destruct (is_whitespace c && String.eqb (trimEnd r) "") eqn:E; [reflexivity|].
  cbn [trimEnd]. rewrite IH, E. reflexivity.
Qed.

Lemma trim_idempotent (s : string) : trim (trim s) = trim s.
Proof.
  unfold trim.
  rewrite (trimStart_startsClean (trimEnd (trimStart s)))
    by apply startsClean_trimEnd, startsClean_trimStart.
  apply trimEnd_idempotent.
Qed.

Lemma oneLine_trimStart (s : string) :
  oneLine s = true -> oneLine (trimStart s) = true.
Proof.
  induction s as [|c r IH]; [reflexivity|].
  intros H. cbn [trimStart]. destruct (is_whitespace c); [|exact H].
  cbn [oneLine] in H. apply andb_true_iff in H as [_ H]. exact (IH H).
Qed.

Lemma oneLine_trimEnd (s : string) :
  oneLine s = true -> oneLine (trimEnd s) = true.
Proof.
  induction s as [|c r IH]; [reflexivity|].
  intros H. cbn [oneLine] in H. apply andb_true_iff in H as [Hc H].
  cbn [trimEnd]. destruct (is_whitespace c && _); [reflexivity|].
  cbn [oneLine]. rewrite Hc, (IH H). reflexivity.
Qed.

Lemma split_lines_all_oneLine (s : string) :
  Forall (fun l => oneLine l = true) (split_lines s).
Proof.
  induction s as [|c r IH]; [repeat constructor|].
  cbn [split_lines]. destruct (Ascii.eqb c LF) eqn:E.
  - constructor; [reflexivity|exact IH].
  - destruct (split_lines r) as [|l ls]; [repeat constructor; cbn; rewrite E; reflexivity|].
    inversion IH as [|? ? Hl Hls]; subst.
    constructor; [|exact Hls]. cbn [oneLine]. rewrite E, Hl. reflexivity.
Qed.

Lemma parseGameNames_clean (input : string) :
  Forall clean (parseGameNames input).
Proof.
  unfold parseGameNames.
  induction (split_lines_all_oneLine input) as [|l ls Hl _ IH]; [constructor|].
  cbn [map]. destruct (decide ((0 <? String.length (trim l))%nat = true)) as [H|H].
  - rewrite filter_cons_True by exact H. constructor; [|exact IH].
    split; [apply length_zero_empty, H|].
    split; [apply oneLine_trimEnd, oneLine_trimStart, Hl|apply trim_idempotent].
  - rewrite filter_cons_False by exact H. exact IH.
Qed.

(** X24.  The names the text import submits are clean: none is empty, none
    spans a line break, none has white space around it.  Writing them back
    to the text area, one per line, and importing again submits the same
    names. *)
Theorem parseGameNames_normal_form (input : string) :
  Forall clean (parseGameNames input)
  /\ parseGameNames (join (String LF EmptyString) (parseGameNames input))
     = parseGameNames input.
Proof.
  split; [apply parseGameNames_clean|].
  apply parseGameNames_join, parseGameNames_clean.
Qed.

Lemma error_message_prefix (message : string) :
  "Error during import: " +:+ message <> "No valid game names found in input.".
Proof. cbn. discriminate. Qed.

(** X25.  What the text import does.  With a blank text area it only shows
    "Please enter some games to import.".  Otherwise at least one name is
    submitted; when the import fails the error banner shows its message, no
    result panel is shown and the text area is left as it was, so that the
    import can be tried again.  The message "No valid game names found in
    input." is never the outcome. *)
Theorem text_import_outcomes (api : list string -> Response) (st : State) :
  (trim (textImportInput st) = "" ->
   banner (handleTextImport api st)
   = Some (ErrorBanner "Please enter some games to import.")
   /\ textImportInput (handleTextImport api st) = textImportInput st)
  /\ (trim (textImportInput st) <> "" ->
      parseGameNames (textImportInput st) <> []
      /\ forall message,
           importGamesFromText (api (parseGameNames (textImportInput st)))
           = inr message ->
           banner (handleTextImport api st)
           = Some (ErrorBanner ("Error during import: " +:+ message))
           /\ details (handleTextImport api st) = None
           /\ textImportInput (handleTextImport api st) = textImportInput st)
  /\ importMessage (handleTextImport api st)
     <> "No valid game names found in input.".
Proof.
  unfold handleTextImport.
  destruct (String.eqb_spec (trim (textImportInput st)) "") as [E|E].
  - split; [intros _; split; reflexivity|].
    split; [intros H; contradiction|].
    cbn. discriminate.
  - pose proof (parseGameNames_not_nil _ E) as Hn.
    destruct (parseGameNames (textImportInput st)) as [|n names] eqn:En;
      [contradiction|].
    cbn [List.length Nat.eqb].
    split; [intros H; contradiction|]. split.
    + intros _. split; [discriminate|].
      intros message Hm. rewrite Hm. unfold banner, details. cbn.
      destruct (importResults st); repeat split.
    + destruct (importGamesFromText (api (n :: names))) as [r|message].
      * cbn. discriminate.
      * cbn [importMessage setImportMessage]. apply error_message_prefix.
Qed.

End TextImportFacts.

(** ** Requesting a game from its detail page *)

Section RequestFlowFacts.

Import GameDetail RequestFlow.

(** X26.  Requesting a game from its page.  Unless the last status received
    says the game can be requested and is not available, and a user is
    logged in, there is no usable Create request button: nothing is sent
    and the page is unchanged.  Otherwise one request is posted for the
    game, with the comment "Request for <name>", and the modal is closed
    whatever the answer; when the server accepts, the status is asked again
    and replaced if that answer is OK, and otherwise the status is kept and
    the error is shown. *)
Theorem create_request (userLoggedIn : bool) (parsedGameId : option Z)
    (game : Game) (resp : option bool) (refresh : option (bool * GameStatus))
    (st : State) :
  isOpen (requestModal st) = false ->
  let usable :=
    userLoggedIn
    && negb (truthy (field is_available (gameStatus st)))
    && truthy (field can_request (gameStatus st)) in
  let outcome := request userLoggedIn parsedGameId game resp refresh st in
  (usable = false -> outcome = (st, []))
  /\ (usable = true ->
      (exists post, snd outcome = [post]
                    /\ game_name post = name game
                    /\ igdb_id post = parsedGameId
                    /\ comment post = "Request for " +:+ name game
                    /\ igdb_genres post <> Some ""
                    /\ igdb_cover_url post
                       <> Some "https://images.igdb.com/igdb/image/upload/t_cover_big/.webp")
      /\ requestModal (fst outcome) = closedRequest
      /\ (resp = Some true ->
          gameStatus (fst outcome) = checkGameStatus refresh (gameStatus st)
          /\ infoModal (fst outcome) = infoModal st)
      /\ (resp <> Some true ->
          gameStatus (fst outcome) = gameStatus st
          /\ info_isOpen (infoModal (fst outcome)) = true
          /\ info_type (infoModal (fst outcome)) = "error")).
Proof.
  intros Hclosed. cbv zeta. unfold request, availabilityPanel.
  destruct (truthy (field is_available (gameStatus st))) eqn:Ea.
  - rewrite andb_false_r. cbn [andb]. rewrite Hclosed.
    split; [reflexivity|discriminate].
  - destruct (truthy (field can_request (gameStatus st))) eqn:Ec.
    + destruct userLoggedIn; cbn [negb andb].
      * split; [discriminate|]. intros _.
        cbn [handleRequestGame setRequestModal requestModal isOpen
             RequestsList.clickConfirm confirmRequest].
        split.
        { eexists. split; [destruct resp as [[|]|]; reflexivity|].
          cbn [requestData game_name igdb_id comment igdb_genres igdb_cover_url].
          repeat split.
          - destruct (genres game) as [names|]; [|discriminate].
            destruct (String.eqb_spec (join ", " names) ""); [discriminate|].
            congruence.
          - destruct (cover_image_id game) as [image_id|]; [|discriminate].
            destruct (String.eqb_spec image_id "") as [E|E]; [discriminate|].
            intros H. apply E.
            assert (Hl : String.length
                           ("https://images.igdb.com/igdb/image/upload/t_cover_big/"
                            +:+ image_id +:+ ".webp")
                         = String.length
                             "https://images.igdb.com/igdb/image/upload/t_cover_big/.webp")
              by congruence.
            rewrite !length_append in Hl.
            destruct image_id; [reflexivity|cbn in Hl; lia]. }
        split; [destruct resp as [[|]|]; reflexivity|].
        split.
        { intros ->. split; reflexivity. }
        { intros H. destruct resp as [[|]|]; [contradiction| |];
            repeat split. }
      * rewrite Hclosed. split; [reflexivity|discriminate].
    + rewrite andb_false_r.
      destruct (truthy (field user_has_request (gameStatus st)));
        rewrite Hclosed; (split; [reflexivity|discriminate]).
Qed.

Lemma create_request_witness :
  let status := {| is_available := JBool false; can_request := JBool true;
                   user_has_request := JBool false;
                   user_request_status := JNull |} in
  let requested := {| is_available := JBool false; can_request := JBool false;
                      user_has_request := JBool true;
                      user_request_status := JStr "pending" |} in
  let game := {| name := "Hades"; cover_image_id := Some "co1abc";
                 genres := Some ["Indie"; "RPG"] |} in
  let outcome := request true (Some 113112) game (Some true)
                   (Some (true, requested)) (init (Some status)) in
  gameStatus (fst outcome) = Some requested
  /\ availabilityPanel true (gameStatus (fst outcome))
     = RequestBadge "Request: Pending".
Proof.
  intros status requested game outcome.
  destruct (create_request true (Some 113112) game (Some true)
              (Some (true, requested)) (init (Some status)) eq_refl)
    as [_ H].
  destruct (H eq_refl) as [_ [_ [Hok _]]].
  destruct (Hok eq_refl) as [Hs _].
  split; [exact Hs|]. unfold outcome. rewrite Hs. reflexivity.
Defined.

End RequestFlowFacts.

(** ** Sample runs *)

Section Samples.

Import Requests RequestsList.

Lemma sortedRequests_view_witness :
  let rs := [ {| id := 1; game_name := "Hades"; status := "pending" |};
              {| id := 3; game_name := "Celeste"; status := "approved" |};
              {| id := 2; game_name := "Braid"; status := "pending" |} ] in
  sortedRequests id "pending" "created_at" "desc" rs
  = [ {| id := 2; game_name := "Braid"; status := "pending" |};
      {| id := 1; game_name := "Hades"; status := "pending" |} ]
  /\ StronglySorted (fun a b => id b <= id a)
       (sortedRequests id "pending" "created_at" "desc" rs)
  /\ sortedRequests id "pending" "added" "desc" rs
     = filteredRequests "pending" rs.
Proof.
  intros rs. split; [reflexivity|]. split.
  - exact (proj1 (proj2 (proj2 (proj2
             (sortedRequests_view id "pending" "created_at" "desc" rs))))
             eq_refl eq_refl).
  - apply (proj2 (proj2 (proj2 (proj2
             (sortedRequests_view id "pending" "added" "desc" rs)))));
      discriminate.
Defined.

Lemma statistics_counters_witness :
  let rs := [ {| id := 1; game_name := "Hades"; status := "pending" |};
              {| id := 3; game_name := "Celeste"; status := "approved" |};
              {| id := 2; game_name := "Braid"; status := "pending" |} ] in
  countStatus "pending" (sortedRequests id "pending" "game_name" "asc" rs)
  = countStatus "pending" rs
  /\ countStatus "approved" (sortedRequests id "pending" "game_name" "asc" rs)
     = 0%nat.
Proof.
  intros rs.
  destruct (statistics_counters id "pending" "game_name" "asc" rs)
    as [_ [_ [Hsame Hzero]]].
  split; [apply Hsame; right; reflexivity|apply Hzero; discriminate].
Defined.

Lemma text_import_outcomes_witness :
  let api := fun _ : list string => Library.HttpError "" in
  let st := Library.setTextImportInput " Hades  " Library.init in
  Library.banner (Library.handleTextImport api st)
  = Some (Library.ErrorBanner "Error during import: Failed to import games")
  /\ Library.textImportInput (Library.handleTextImport api st) = " Hades  ".
Proof.
  intros api st.
  destruct (text_import_outcomes api st) as [_ [H _]].
  destruct H as [_ H]; [vm_compute; discriminate|].
  destruct (H "Failed to import games" eq_refl) as [Hb [_ Ht]].
  split; [exact Hb|exact Ht].
Defined.

End Samples.
